(** * Research paper assistant: chunker, cleaner, retrieval adapter, prompt builder

    A shallow embedding of [src/process_documents.py] (class
    [DocumentProcessor]) and [src/rag_pipeline.py] (class [RAGPipeline]),
    with the properties of the specification stated over it.

    Python strings are lists of Unicode code points, Python integers are
    [Z], dictionaries with string keys are [gmap string _], and the
    [while] loop of [chunk_text] is a fuelled recursion that returns [None]
    when the fuel is exhausted. *)

From Stdlib Require Import ZArith QArith List Ascii String Lia Bool DecimalString.
From Stdlib Require Import DecimalNat DecimalFacts.
From stdpp Require Import gmap strings list fin_maps sorting.

Local Open Scope Z_scope.

(** ** Python strings *)

Abbreviation pystr := (list N).

(** A literal of the source, as code points. *)
Definition py (s : string) : pystr :=
  List.map N_of_ascii (list_ascii_of_string s).

Definition py_len (t : pystr) : Z := Z.of_nat (length t).

(** [str.isspace] on one code point; the [re] class [\s] on [str]
    patterns is the same set. *)
Definition is_space (c : N) : bool :=
  ((9 <=? c) && (c <=? 13) || (28 <=? c) && (c <=? 32)
   || (c =? 133) || (c =? 160) || (c =? 5760)
   || (8192 <=? c) && (c <=? 8202)
   || (c =? 8232) || (c =? 8233) || (c =? 8239) || (c =? 8287)
   || (c =? 12288))%N.

(** The class [[.!?]]. *)
Definition is_terminator (c : N) : bool :=
  ((c =? 46) || (c =? 33) || (c =? 63))%N.

(** Index adjustment of a slice bound, as [PySlice_AdjustIndices] does
    for step 1: a negative bound counts from the end, and every bound is
    clipped to [0, n]. *)
Definition clip_index (n i : Z) : Z :=
  if i <? 0 then Z.max 0 (i + n) else Z.min i n.

(** [t[a:b]]. *)
Definition py_slice (t : pystr) (a b : Z) : pystr :=
  let a' := clip_index (py_len t) a in
  let b' := clip_index (py_len t) b in
  take (Z.to_nat (b' - a')) (drop (Z.to_nat a') t).

Fixpoint lstrip (t : pystr) : pystr :=
  match t with
  | c :: t' => if is_space c then lstrip t' else t
  | [] => []
  end.

Definition rstrip (t : pystr) : pystr := rev (lstrip (rev t)).

(** [t.strip()]. *)
Definition strip (t : pystr) : pystr := rstrip (lstrip t).

(** [[m.end() for m in re.finditer(r'[.!?]\s', s)]]: the scan goes left
    to right, and after a match it resumes behind the match. [pos] is the
    offset of [s] in the searched string. *)
Fixpoint finditer_ends (pos : Z) (s : pystr) : list Z :=
  match s with
  | [] => []
  | c :: rest =>
      match rest with
      | [] => []
      | d :: rest' =>
          if is_terminator c && is_space d
          then (pos + 2) :: finditer_ends (pos + 2) rest'
          else finditer_ends (pos + 1) rest
      end
  end.

Definition sentence_endings (search_text : pystr) : list Z :=
  finditer_ends 0 search_text.

(** ** Python values and dictionaries *)

Inductive pyval : Type :=
  | VStr (s : pystr)
  | VInt (z : Z)
  | VList (l : list pyval).

Inductive pyexn : Type :=
  | KeyError (k : string)
  | IndexError.

Definition bind {A B} (x : pyexn + A) (f : A -> pyexn + B) : pyexn + B :=
  match x with
  | inl e => inl e
  | inr a => f a
  end.

Notation "'try' x <- e ; k" := (bind e (fun x => k))
  (at level 10, x name, e at level 100, k at level 200).

(** [l[i]] for an index that is not negative. *)
Definition getitem {A} (l : list A) (i : nat) : pyexn + A :=
  match l !! i with
  | Some x => inr x
  | None => inl IndexError
  end.

(** [d[name]] for an entry that may be absent. *)
Definition field {A} (name : string) (entry : option A) : pyexn + A :=
  match entry with
  | Some x => inr x
  | None => inl (KeyError name)
  end.

(** [sep.join(parts)]. *)
Fixpoint join (sep : pystr) (parts : list pystr) : pystr :=
  match parts with
  | [] => []
  | p :: rest =>
      match rest with
      | [] => p
      | _ :: _ => p ++ sep ++ join sep rest
      end
  end.

(** [str(i)] for a natural number. *)
Definition decimal (i : nat) : pystr :=
  py (NilZero.string_of_uint (Nat.to_uint i)).

(** Truth value of a dictionary: [len(d) != 0]. *)
Definition dict_truthy {V} (d : gmap string V) : bool :=
  negb (Nat.eqb (size d) 0).

(** [d.update(other)]: the entries of [other] win. *)
Definition dict_update {V} (d other : gmap string V) : gmap string V :=
  other ∪ d.

(** ** DocumentProcessor *)

Module DocumentProcessor.

Record t : Type := Build {
  chunk_size : Z;
  chunk_overlap : Z
}.

(** [__init__]: both arguments are stored; no statement of the body can
    raise. *)
Definition __init__ (chunk_size chunk_overlap : Z) : pyexn + t :=
  inr {| chunk_size := chunk_size; chunk_overlap := chunk_overlap |}.

(** [re.sub(r'\s+', ' ', text)]: every maximal run of whitespace becomes
    one space; [in_run] tells that the previous character belonged to the
    run being replaced. *)
Fixpoint sub_spaces (in_run : bool) (text : pystr) : pystr :=
  match text with
  | [] => []
  | c :: rest =>
      if is_space c
      then (if in_run then sub_spaces true rest else 32%N :: sub_spaces true rest)
      else c :: sub_spaces false rest
  end.

Definition ascii_alnum (c : N) : bool :=
  ((48 <=? c) && (c <=? 57) || (65 <=? c) && (c <=? 90)
   || (97 <=? c) && (c <=? 122))%N.

(** The characters listed one by one in the class of line 44, in the
    order of the source: the ASCII punctuation, then the comparison signs,
    the degree sign, the Greek letters alpha to omega (without the final
    sigma), and the integral, partial and nabla signs. *)
Definition listed_symbols : list N :=
  [45; 46; 44; 59; 58; 40; 41; 91; 93; 123; 125; 61; 43; 45; 42; 47; 94;
   60; 62; 8805; 8804; 8776; 8764; 176;
   945; 946; 947; 948; 949; 950; 951; 952; 953; 954; 955; 956; 957; 958;
   959; 960; 961; 963; 964; 965; 966; 967; 968; 969;
   8747; 8706; 8711]%N.

Section Cleaner.

(** The alphanumeric property of the Unicode character database for the
    code points from 128 on; the table is not part of the repository. *)
Variable unicode_alnum : N -> bool.

(** The class [\w] on [str] patterns: alphanumeric or underscore. *)
Definition is_word (c : N) : bool :=
  if (c <? 128)%N then ascii_alnum c || (c =? 95)%N else unicode_alnum c.

(** The characters that the negated class of line 44 does not match. *)
Definition kept (c : N) : bool :=
  is_word c || is_space c || existsb (N.eqb c) listed_symbols.

Definition _clean_text (text : pystr) : pystr :=
  let text := sub_spaces false text in
  let text := List.filter kept text in
  strip text.

End Cleaner.

(** The end position of the chunk that starts at [start]: lines 63-76. *)
Definition chunk_end (self : t) (text : pystr) (start : Z) : Z :=
  let end_ := start + chunk_size self in
  if end_ <? py_len text then
    let search_start := Z.max start (end_ - 100) in
    let search_text := py_slice text search_start (end_ + 100) in
    match last (sentence_endings search_text) with
    | Some e => search_start + e
    | None => end_
    end
  else end_.

(** The dictionary literal of lines 81-85. *)
Definition new_chunk (chunk_text : pystr) (start end_ : Z) : gmap string pyval :=
  <["end_char" := VInt end_]>
    (<["start_char" := VInt start]> (<["text" := VStr chunk_text]> ∅)).

(** Lines 81-89: the literal, then [chunk.update(metadata)] when the
    metadata is given and not empty. *)
Definition make_chunk (metadata : option (gmap string pyval))
    (chunk_text : pystr) (start end_ : Z) : gmap string pyval :=
  let chunk := new_chunk chunk_text start end_ in
  match metadata with
  | Some md => if dict_truthy md then dict_update chunk md else chunk
  | None => chunk
  end.

(** The [while] loop of [chunk_text], one iteration per unit of fuel. *)
Fixpoint chunk_loop (fuel : nat) (self : t) (text : pystr)
    (metadata : option (gmap string pyval)) (start : Z)
    (chunks : list (gmap string pyval)) : option (list (gmap string pyval)) :=
  match fuel with
  | O => None
  | S fuel' =>
      if start <? py_len text then
        let end_ := chunk_end self text start in
        let chunk_text := strip (py_slice text start end_) in
        let chunks' :=
          match chunk_text with
          | [] => chunks
          | _ :: _ => chunks ++ [make_chunk metadata chunk_text start end_]
          end in
        chunk_loop fuel' self text metadata (end_ - chunk_overlap self) chunks'
      else Some chunks
  end.

Definition chunk_text (fuel : nat) (self : t) (text : pystr)
    (metadata : option (gmap string pyval)) : option (list (gmap string pyval)) :=
  chunk_loop fuel self text metadata 0 [].

Section Ingestion.

Variable unicode_alnum : N -> bool.

(** What [open], [pypdf.PdfReader] and [page.extract_text] give for a
    path: the text of every page in order, or [None] when one of them
    raises. The PDF library and the file system are not part of the
    repository. *)
Variable read_pages : pyval -> option (list pystr).

(** The loop of lines 30-31: [text += page.extract_text() + "\n"]. *)
Fixpoint page_text (text : pystr) (pages : list pystr) : pystr :=
  match pages with
  | [] => text
  | page :: rest => page_text (text ++ (page ++ [10%N])) rest
  end.

(** Lines 23-37: every exception is caught and gives the empty string. *)
Definition extract_text_from_pdf (pdf_path : pyval) : pystr :=
  match read_pages pdf_path with
  | Some pages => _clean_text unicode_alnum (page_text [] pages)
  | None => []
  end.

(** The dictionary literal of lines 126-132; the keys are read in the
    order of the source. *)
Definition chunk_metadata (paper : gmap string pyval) : pyexn + gmap string pyval :=
  try arxiv_id <- field "arxiv_id" (paper !! "arxiv_id"%string);
  try title <- field "title" (paper !! "title"%string);
  try authors <- field "authors" (paper !! "authors"%string);
  try published <- field "published" (paper !! "published"%string);
  try categories <- field "categories" (paper !! "categories"%string);
  inr (<["categories" := categories]> (<["published" := published]>
        (<["authors" := authors]> (<["title" := title]>
          (<["arxiv_id" := arxiv_id]> ∅))))).

(** The [for] loop of lines 115-138. The outer [None] is a call of
    [chunk_text] that does not return within the fuel. The list that is
    returned is also the list that lines 141-143 write to [output_path]. *)
Fixpoint process_loop (fuel : nat) (self : t)
    (papers_metadata : list (gmap string pyval))
    (all_chunks : list (gmap string pyval))
    : option (pyexn + list (gmap string pyval)) :=
  match papers_metadata with
  | [] => Some (inr all_chunks)
  | paper :: rest =>
      match field "title" (paper !! "title"%string) with
      | inl e => Some (inl e)
      | inr _ =>
          match field "pdf_path" (paper !! "pdf_path"%string) with
          | inl e => Some (inl e)
          | inr pdf_path =>
              let text := extract_text_from_pdf pdf_path in
              match text with
              | [] => process_loop fuel self rest all_chunks
              | _ :: _ =>
                  match chunk_metadata paper with
                  | inl e => Some (inl e)
                  | inr metadata =>
                      match chunk_text fuel self text (Some metadata) with
                      | None => None
                      | Some chunks =>
                          process_loop fuel self rest (all_chunks ++ chunks)
                      end
                  end
              end
          end
      end
  end.

(** Lines 98-148: the list that line 148 returns. Writing the list to
    [output_path] (lines 141-143) goes to the file system and is not
    modelled. *)
Definition process_papers (fuel : nat) (self : t)
    (papers_metadata : list (gmap string pyval))
    : option (pyexn + list (gmap string pyval)) :=
  process_loop fuel self papers_metadata [].

End Ingestion.

End DocumentProcessor.

Import DocumentProcessor.


(** ** RAGPipeline *)

Module RAGPipeline.

(** The result of [VectorStore.search]: for the single query, one list
    per field; an absent field is [None]. Distances are floats, which are
    only copied and compared here: they are rationals. The metadata
    values are the strings that [VectorStore.add_documents] stores. *)
Record search_results : Type := {
  documents : option (list (list pystr));
  metadatas : option (list (list (gmap string pystr)));
  distances : option (list (list Q))
}.

(** The dictionary literal of lines 37-41. *)
Record context_chunk : Type := {
  text : pystr;
  metadata : gmap string pystr;
  distance : Q
}.

(** The [for] loop of lines 36-42 over the indices still to visit. *)
Fixpoint format_results (results : search_results) (indices : list nat)
    (context_chunks : list context_chunk) : pyexn + list context_chunk :=
  match indices with
  | [] => inr context_chunks
  | i :: rest =>
      try docs <- field "documents" (documents results);
      try docs0 <- getitem docs 0;
      try doc <- getitem docs0 i;
      try metas <- field "metadatas" (metadatas results);
      try metas0 <- getitem metas 0;
      try meta <- getitem metas0 i;
      try dists <- field "distances" (distances results);
      try dists0 <- getitem dists 0;
      try dist <- getitem dists0 i;
      format_results results rest
        (context_chunks ++ [ {| text := doc; metadata := meta; distance := dist |} ])
  end.

(** [search] is [self.vector_store.search]. *)
Definition retrieve_context (search : pystr -> Z -> search_results)
    (query : pystr) (n_results : Z) : pyexn + list context_chunk :=
  let results := search query n_results in
  try docs <- field "documents" (documents results);
  try docs0 <- getitem docs 0;
  format_results results (seq 0 (length docs0)) [].

Definition nl : pystr := [10%N].

(** The f-string of lines 53-54 for the chunk of rank [i]. *)
Definition source_block (i : nat) (chunk : context_chunk) : pyexn + pystr :=
  let meta := metadata chunk in
  try title <- field "title" (meta !! "title"%string);
  try arxiv_id <- field "arxiv_id" (meta !! "arxiv_id"%string);
  inr (py "[Source " ++ decimal i ++ py ": " ++ title ++ py " (" ++ arxiv_id
       ++ py ")]" ++ nl ++ text chunk ++ nl).

(** The loop of lines 50-55; [i] is the rank of the first chunk. *)
Fixpoint context_parts (i : nat) (context_chunks : list context_chunk)
    : pyexn + list pystr :=
  match context_chunks with
  | [] => inr []
  | chunk :: rest =>
      try part <- source_block i chunk;
      try parts <- context_parts (S i) rest;
      inr (part :: parts)
  end.

Definition separator : pystr := nl ++ py "---" ++ nl.

Definition prompt_head : pystr :=
  py "You are a helpful research assistant. Answer the question based on the provided context from research papers."
  ++ nl ++ nl ++ py "Context from research papers:" ++ nl.

Definition prompt_tail : pystr :=
  nl ++ nl ++ py "Instructions:" ++ nl
  ++ py "- Answer based on the context provided above" ++ nl
  ++ py "- If the context doesn't contain enough information, say so" ++ nl
  ++ py "- Cite which source(s) you used (by source number)" ++ nl
  ++ py "- Be precise and scientific in your answer" ++ nl ++ nl
  ++ py "Answer:".

Definition build_prompt (query : pystr) (context_chunks : list context_chunk)
    : pyexn + pystr :=
  try parts <- context_parts 1 context_chunks;
  let context_str := join separator parts in
  inr (prompt_head ++ context_str ++ nl ++ nl ++ py "Question: " ++ query
       ++ prompt_tail).

(** Standard output: the strings printed so far, one per call of
    [print], beside the value or the exception. *)
Definition printing (A : Type) : Type := (list pystr * (pyexn + A))%type.

Definition say (line : pystr) : printing unit := ([line], inr tt).

Definition quiet {A} (r : pyexn + A) : printing A := ([], r).

Definition and_then {A B} (m : printing A) (k : A -> printing B) : printing B :=
  let (out, r) := m in
  match r with
  | inl e => (out, inl e)
  | inr a => let (out', r') := k a in (out ++ out', r')
  end.

Notation "'run' x <- e ; k" := (and_then e (fun x => k))
  (at level 10, x name, e at level 100, k at level 200).

Notation "e ;; k" := (and_then e (fun _ => k))
  (at level 100, k at level 200, right associativity).

(** [if verbose: ...]. *)
Definition when (verbose : bool) (m : printing unit) : printing unit :=
  if verbose then m else quiet (inr tt).

(** The attributes that [__init__] stores; [vector_store] stands for
    [self.vector_store.search]. *)
Record pipeline : Type := {
  vector_store : pystr -> Z -> search_results;
  use_openai : bool
}.

(** Lines 77-99: both branches return a fixed string. *)
Definition generate_answer (self : pipeline) (prompt : pystr) : pystr :=
  if use_openai self
  then py "[OpenAI integration not configured]"
  else py "[LLM response would go here - see prompt above]".

(** The dictionary literal of lines 146-151. *)
Record answer_record : Type := {
  query : pystr;
  answer : pystr;
  prompt : pystr;
  sources : list context_chunk
}.

Definition bar : pystr := repeat 61%N 60.

Definition check_mark : pystr := [10003%N].

Section Ask.

(** The format [:.3f] of a float; floating-point printing is not
    modelled. *)
Variable format_3f : Q -> pystr.

(** The loop of lines 126-128. *)
Fixpoint print_sources (i : nat) (context_chunks : list context_chunk)
    : printing unit :=
  match context_chunks with
  | [] => quiet (inr tt)
  | chunk :: rest =>
      let meta := metadata chunk in
      run title <- quiet (field "title" (meta !! "title"%string));
      say (py "  " ++ decimal i ++ py ". " ++ py_slice title 0 50
           ++ py "... (distance: " ++ format_3f (distance chunk) ++ py ")") ;;
      print_sources (S i) rest
  end.

(** Lines 101-164. *)
Definition ask (self : pipeline) (query : pystr) (n_results : Z)
    (verbose : bool) : printing answer_record :=
  when verbose
    (say (nl ++ bar) ;; say (py "Query: " ++ query) ;; say (bar ++ nl)) ;;
  when verbose (say (py "Step 1: Retrieving relevant context...")) ;;
  run context_chunks <-
    quiet (retrieve_context (vector_store self) query n_results);
  when verbose
    (say (check_mark ++ py " Retrieved " ++ decimal (length context_chunks)
          ++ py " relevant chunks" ++ nl) ;;
     print_sources 1 context_chunks) ;;
  when verbose (say (nl ++ py "Step 2: Building prompt...")) ;;
  run prompt <- quiet (build_prompt query context_chunks);
  when verbose
    (say (check_mark ++ py " Prompt built (" ++ decimal (length prompt)
          ++ py " chars)" ++ nl)) ;;
  when verbose (say (py "Step 3: Generating answer..." ++ nl)) ;;
  let answer := generate_answer self prompt in
  let result :=
    {| query := query; answer := answer; prompt := prompt;
       sources := context_chunks |} in
  when verbose
    (say (nl ++ bar) ;; say (py "PROMPT:") ;; say bar ;; say prompt ;;
     say (nl ++ bar) ;; say (py "ANSWER:") ;; say bar ;; say answer ;;
     say (bar ++ nl)) ;;
  quiet (inr result).

End Ask.

End RAGPipeline.

(** ** VectorStore *)

(** Exceptions beyond the two of [pyexn]. *)
Inductive pyerror : Type :=
  | Raised (e : pyexn)
  | TypeError
  | EOFError.

Definition bind_error {A B} (x : pyerror + A) (f : A -> pyerror + B)
    : pyerror + B :=
  match x with
  | inl e => inl e
  | inr a => f a
  end.

Notation "'attempt' x <- e ; k" := (bind_error e (fun x => k))
  (at level 10, x name, e at level 100, k at level 200).

Module VectorStore.

(** [d.get(key, default)]. *)
Definition get (d : gmap string pyval) (key : string) (dflt : pyval) : pyval :=
  default dflt (d !! key).

(** The elements of a list when all of them are strings. *)
Fixpoint strings_of (items : list pyval) : option (list pystr) :=
  match items with
  | [] => Some []
  | VStr s :: rest =>
      match strings_of rest with
      | Some parts => Some (s :: parts)
      | None => None
      end
  | _ :: _ => None
  end.

(** [sep.join(v)]: a list must hold strings only, a string is joined
    character by character, an integer is not iterable. *)
Definition join_value (sep : pystr) (v : pyval) : pyerror + pystr :=
  match v with
  | VList items =>
      match strings_of items with
      | Some parts => inr (join sep parts)
      | None => inl TypeError
      end
  | VStr s => inr (join sep ((fun c => [c]) <$> s))
  | VInt _ => inl TypeError
  end.

(** The dictionary literal of lines 58-64. *)
Definition chunk_metadata (chunk : gmap string pyval)
    : pyerror + gmap string pyval :=
  let arxiv_id := get chunk "arxiv_id" (VStr []) in
  let title := get chunk "title" (VStr []) in
  attempt authors <- join_value (py ", ") (get chunk "authors" (VList []));
  let published := get chunk "published" (VStr []) in
  attempt categories <- join_value (py ", ") (get chunk "categories" (VList []));
  inr (<["categories" := VStr categories]> (<["published" := published]>
        (<["authors" := VStr authors]> (<["title" := title]>
          (<["arxiv_id" := arxiv_id]> ∅))))).

(** [[chunk['text'] for chunk in chunks]], line 52. *)
Fixpoint chunk_texts (chunks : list (gmap string pyval)) : pyerror + list pyval :=
  match chunks with
  | [] => inr []
  | chunk :: rest =>
      match chunk !! "text"%string with
      | None => inl (Raised (KeyError "text"))
      | Some text =>
          attempt texts <- chunk_texts rest;
          inr (text :: texts)
      end
  end.

(** [[f"chunk_{i}" for i in range(n)]], line 53. *)
Definition chunk_ids (n : nat) : list pystr :=
  (fun i => py "chunk_" ++ decimal i) <$> seq 0 n.

(** The loop of lines 56-65. *)
Fixpoint chunk_metadatas (chunks : list (gmap string pyval))
    : pyerror + list (gmap string pyval) :=
  match chunks with
  | [] => inr []
  | chunk :: rest =>
      attempt metadata <- chunk_metadata chunk;
      attempt metadatas <- chunk_metadatas rest;
      inr (metadata :: metadatas)
  end.

(** The arguments of [self.collection.add], lines 77-82. *)
Record add_call (E : Type) : Type := {
  ids : list pystr;
  embeddings : E;
  documents : list pyval;
  metadatas : list (gmap string pyval)
}.

Arguments ids {E}.
Arguments embeddings {E}.
Arguments documents {E}.
Arguments metadatas {E}.

(** Lines 42-84, up to the call of [self.collection.add]: the result is
    the call that is made. [encode] is the embedding model. *)
Definition add_documents {E} (encode : list pyval -> E)
    (chunks : list (gmap string pyval)) : pyerror + add_call E :=
  attempt documents <- chunk_texts chunks;
  let ids := chunk_ids (length chunks) in
  attempt metadatas <- chunk_metadatas chunks;
  let embeddings := encode documents in
  inr {| ids := ids; embeddings := embeddings; documents := documents;
         metadatas := metadatas |}.

End VectorStore.

(** ** ArxivDownloader *)

Module ArxivDownloader.

(** The attributes of an [arxiv.Result] that the code reads;
    [published] is [result.published.isoformat()], [authors] holds
    [author.name] for every author. *)
Record arxiv_result : Type := {
  entry_id : pystr;
  title : pystr;
  authors : list pystr;
  summary : pystr;
  published : pystr;
  categories : list pystr
}.

(** [s.split(sep)] for a separator of one character: never empty. *)
Fixpoint split (sep : N) (s : pystr) : list pystr :=
  match s with
  | [] => [[]]
  | c :: rest =>
      if (c =? sep)%N then [] :: split sep rest
      else match split sep rest with
           | part :: parts => (c :: part) :: parts
           | [] => [[c]]
           end
  end.

(** [s.replace(old, new)] for two characters. *)
Definition replace (old new : N) (s : pystr) : pystr :=
  (fun c => if (c =? old)%N then new else c) <$> s.

(** [result.entry_id.split('/')[-1]], lines 49 and 81. *)
Definition arxiv_id_of (entry_id : pystr) : pystr :=
  default [] (last (split 47 entry_id)).

(** Line 52. *)
Definition filename_of (arxiv_id : pystr) : pystr :=
  replace 46 95 arxiv_id ++ py ".pdf".

(** Lines 30-33. *)
Definition search_query (query : pystr) (category : option pystr) : pystr :=
  match category with
  | Some (c :: category) => py "cat:" ++ (c :: category) ++ py " AND " ++ query
  | _ => query
  end.

(** Lines 78-88; [filepath] is [str(filepath)]. *)
Definition _extract_metadata (result : arxiv_result) (filepath : pystr)
    : gmap string pyval :=
  <["pdf_path" := VStr filepath]>
    (<["categories" := VList (VStr <$> categories result)]>
      (<["published" := VStr (published result)]>
        (<["abstract" := VStr (summary result)]>
          (<["authors" := VList (VStr <$> authors result)]>
            (<["title" := VStr (title result)]>
              (<["arxiv_id" := VStr (arxiv_id_of (entry_id result))]> ∅)))))).

Section Download.

(** [str(self.output_dir / filename)]. *)
Variable path_of : pystr -> pystr.

(** Whether [result.download_pdf] writes the file ([true]) or raises. *)
Variable download_pdf : arxiv_result -> bool.

(** [arxiv.Search(...).results()]. *)
Variable search : pystr -> Z -> list arxiv_result.

(** The loop of lines 46-73 over the results still to visit; [files] is
    the set of paths that exist. *)
Fixpoint download_loop (results : list arxiv_result) (files : gset pystr)
    (papers_metadata : list (gmap string pyval))
    : gset pystr * list (gmap string pyval) :=
  match results with
  | [] => (files, papers_metadata)
  | result :: rest =>
      let arxiv_id := arxiv_id_of (entry_id result) in
      let filename := filename_of arxiv_id in
      let filepath := path_of filename in
      if bool_decide (filepath ∈ files)
      then download_loop rest files
             (papers_metadata ++ [_extract_metadata result filepath])
      else if download_pdf result
      then download_loop rest ({[filepath]} ∪ files)
             (papers_metadata ++ [_extract_metadata result filepath])
      else download_loop rest files papers_metadata
  end.

(** Lines 12-76: the files afterwards and the list returned. *)
Definition download_papers (files : gset pystr) (query : pystr)
    (max_results : Z) (category : option pystr)
    : gset pystr * list (gmap string pyval) :=
  download_loop (search (search_query query category) max_results) files [].

End Download.

End ArxivDownloader.

(** ** The question loop of [main] *)

Module Main.

Definition ascii_lower (c : N) : N :=
  if ((65 <=? c) && (c <=? 90))%N then (c + 32)%N else c.

Inductive ending : Type :=
  | Quit
  | Failed (e : pyerror).

(** The prompt of [input]. *)
Definition question : pystr := RAGPipeline.nl ++ py "Your question: ".

Definition exit_words : list pystr := [py "quit"; py "exit"; py "q"].

Section Loop.

(** [str.lower] on a string that holds a code point from 128 on; the
    case tables of Unicode are not part of the repository. *)
Variable unicode_lower : pystr -> pystr.

Variable format_3f : Q -> pystr.

(** [s.lower()]. *)
Definition lower (s : pystr) : pystr :=
  if forallb (fun c => (c <? 128)%N) s then ascii_lower <$> s
  else unicode_lower s.

(** The [while True] loop of lines 42-51 of [main.py] on the lines that
    standard input still holds: what is printed, and how the loop ends
    ([input] raises [EOFError] when no line is left). *)
Fixpoint question_loop (rag : RAGPipeline.pipeline) (lines : list pystr)
    : list pystr * ending :=
  match lines with
  | [] => ([question], Failed EOFError)
  | line :: rest =>
      let query := strip line in
      if bool_decide (lower query ∈ exit_words) then ([question], Quit)
      else
        match query with
        | [] =>
            let r := question_loop rag rest in (question :: r.1, r.2)
        | _ :: _ =>
            let a := RAGPipeline.ask format_3f rag query 3 true in
            match a.2 with
            | inl e => (question :: a.1, Failed (Raised e))
            | inr _ =>
                let r := question_loop rag rest in
                (question :: a.1 ++ r.1, r.2)
            end
        end
  end.

End Loop.

End Main.

(** ** Notions used to state the properties *)

(** The least distance from a cursor to the end of its chunk: the end is
    either [start + chunk_size] or lies behind a match of two characters
    that starts at [max(start, end - 100)] or later. *)
Definition min_reach (self : DocumentProcessor.t) : Z :=
  Z.min (chunk_size self) (Z.max (chunk_size self - 100) 0 + 2).

Definition min_advance (self : DocumentProcessor.t) : Z :=
  min_reach self - chunk_overlap self.

(** What one iteration at cursor [start] appends to the list. *)
Definition emitted (self : DocumentProcessor.t) (text : pystr)
    (metadata : option (gmap string pyval)) (start : Z) : list (gmap string pyval) :=
  let end_ := chunk_end self text start in
  match strip (py_slice text start end_) with
  | [] => []
  | c :: ct => [make_chunk metadata (c :: ct) start end_]
  end.

(** Inputs of the examples. *)
Definition xs (n : nat) : pystr := repeat 120%N n.

Definition paced_text : pystr :=
  xs 200 ++ py ". " ++ xs 200 ++ py ". " ++ xs 200 ++ py ". " ++ xs 200
  ++ py ". " ++ xs 392.

Definition scenario_text : pystr := py "A. B. " ++ xs 2000 ++ py ". C.".

(** Configurations in which every iteration moves the cursor forward. *)
Definition advancing (self : DocumentProcessor.t) : Prop :=
  0 <= chunk_overlap self /\ 0 < min_advance self.

(** The configurations that the specification calls valid. *)
Definition valid_config (self : DocumentProcessor.t) : Prop :=
  0 < chunk_size self /\ 0 <= chunk_overlap self < chunk_size self.

(** Metadata that leaves the three fields of the chunk literal alone. *)
Definition keeps_core (metadata : option (gmap string pyval)) : Prop :=
  match metadata with
  | Some md =>
      md !! "text"%string = None /\ md !! "start_char"%string = None
      /\ md !! "end_char"%string = None
  | None => True
  end.

Definition chunk_offsets (chunk : gmap string pyval) : option (Z * Z) :=
  match chunk !! "start_char"%string, chunk !! "end_char"%string with
  | Some (VInt s), Some (VInt e) => Some (s, e)
  | _, _ => None
  end.

Definition offsets_of (r : option (list (gmap string pyval)))
    : option (list (option (Z * Z))) :=
  option_map (List.map chunk_offsets) r.

(** Position [i] lies in the range of [chunk]. *)
Definition covers (i : Z) (chunk : gmap string pyval) : Prop :=
  exists s e, chunk_offsets chunk = Some (s, e) /\ s <= i < e.

(** Chunk [c1] starts and ends before chunk [c2] does. *)
Definition before (c1 c2 : gmap string pyval) : Prop :=
  exists s1 e1 s2 e2, chunk_offsets c1 = Some (s1, e1)
    /\ chunk_offsets c2 = Some (s2, e2) /\ s1 < s2 /\ e1 < e2.

(** A sentence terminator at position [p] of [text] with a whitespace
    character right behind it. *)
Definition boundary_at (text : pystr) (p : Z) : bool :=
  (0 <=? p) &&
  match text !! Z.to_nat p, text !! Z.to_nat (p + 1) with
  | Some c, Some d => is_terminator c && is_space d
  | _, _ => false
  end.

(** The last boundary whose two characters lie in [lo, hi). *)
Definition last_boundary (text : pystr) (lo hi : Z) : option Z :=
  last (List.filter (boundary_at text) (seqZ lo (hi - 1 - lo))).

(** The chunk end as the specification words it, with the window clipped
    to the cursor and to the text. *)
Definition snapped_end (self : DocumentProcessor.t) (text : pystr) (start : Z) : Z :=
  let tentative := start + chunk_size self in
  match last_boundary text (Z.max start (tentative - 100))
          (Z.min (tentative + 100) (py_len text)) with
  | Some p => p + 2
  | None => tentative
  end.

(** No two neighbouring characters of [t] are both whitespace. *)
Fixpoint space_run_free (t : pystr) : bool :=
  match t with
  | c :: rest =>
      match rest with
      | d :: _ => negb (is_space c && is_space d) && space_run_free rest
      | [] => true
      end
  | [] => true
  end.

(** The strings [pieces] occur in [s] one behind the other, without
    overlap. *)
Fixpoint occurs_in_order (pieces : list pystr) (s : pystr) : Prop :=
  match pieces with
  | [] => True
  | w :: rest => exists pre post, s = pre ++ w ++ post /\ occurs_in_order rest post
  end.

Definition has_source_fields (chunk : RAGPipeline.context_chunk) : bool :=
  bool_decide (is_Some (RAGPipeline.metadata chunk !! "title"%string))
  && bool_decide (is_Some (RAGPipeline.metadata chunk !! "arxiv_id"%string)).

Definition title_of (chunk : RAGPipeline.context_chunk) : pystr :=
  default [] (RAGPipeline.metadata chunk !! "title"%string).

Definition arxiv_id_of (chunk : RAGPipeline.context_chunk) : pystr :=
  default [] (RAGPipeline.metadata chunk !! "arxiv_id"%string).

(** Title, document id and text of every chunk in the order of the list,
    with the separator line between two chunks. *)
Fixpoint chunk_pieces (chunks : list RAGPipeline.context_chunk) : list pystr :=
  match chunks with
  | [] => []
  | chunk :: rest =>
      [title_of chunk; arxiv_id_of chunk; RAGPipeline.text chunk]
      ++ match rest with
         | [] => []
         | _ :: _ => RAGPipeline.separator :: chunk_pieces rest
         end
  end.

(** Whitespace characters. *)
Definition blank (c : N) : Prop := is_space c = true.

Definition sample_meta : gmap string pystr :=
  <["arxiv_id" := py "2401.00001"]> (<["title" := py "Spin chains"]> ∅).

Definition sample_chunk : RAGPipeline.context_chunk :=
  {| RAGPipeline.text := py "Spin is quantised.";
     RAGPipeline.metadata := sample_meta;
     RAGPipeline.distance := 1 # 4 |}.

(** An index answer whose document list is shorter than the other two. *)
Definition lopsided_results : RAGPipeline.search_results :=
  {| RAGPipeline.documents := Some [[py "only"]];
     RAGPipeline.metadatas := Some [[sample_meta; sample_meta]];
     RAGPipeline.distances := Some [[1 # 10; 2 # 10]]%Q |}.

(** An index answer without documents and without the metadata field. *)
Definition hollow_results : RAGPipeline.search_results :=
  {| RAGPipeline.documents := Some [[]];
     RAGPipeline.metadatas := None;
     RAGPipeline.distances := Some [[1 # 10]]%Q |}.

(** An index answer with the same number of entries in every field. *)
Definition even_results : RAGPipeline.search_results :=
  {| RAGPipeline.documents := Some [[py "first"; py "second"]];
     RAGPipeline.metadatas := Some [[sample_meta; sample_meta]];
     RAGPipeline.distances := Some [[1 # 10; 2 # 10]]%Q |}.

Definition zip3 (docs : list pystr) (metas : list (gmap string pystr))
    (dists : list Q) : list RAGPipeline.context_chunk :=
  zip_with (fun dm dist => RAGPipeline.Build_context_chunk dm.1 dm.2 dist)
    (zip docs metas) dists.

(** The [text] of a chunk when it is a string. *)
Definition chunk_body (chunk : gmap string pyval) : option pystr :=
  match chunk !! "text"%string with
  | Some (VStr body) => Some body
  | _ => None
  end.

(** Not empty, and without whitespace at either end. *)
Definition trimmed (body : pystr) : Prop :=
  body <> []
  /\ (forall c, head body = Some c -> is_space c = false)
  /\ (forall c, last body = Some c -> is_space c = false).

(** A later chunk starts at most [overlap] characters before the end of
    an earlier one. *)
Definition shares_at_most (overlap : Z) (c1 c2 : gmap string pyval) : Prop :=
  exists s1 e1 s2 e2, chunk_offsets c1 = Some (s1, e1)
    /\ chunk_offsets c2 = Some (s2, e2) /\ e1 - s2 <= overlap.

(** A paper record with the six keys that [process_papers] reads. *)
Definition complete_paper (paper : gmap string pyval) : bool :=
  forallb (fun key => bool_decide (is_Some (paper !! key)))
    ["title"; "pdf_path"; "arxiv_id"; "authors"; "published"; "categories"]%string.

(** The five keys that a chunk takes over from its paper. *)
Definition same_provenance (chunk paper : gmap string pyval) : Prop :=
  Forall (fun key => chunk !! key = paper !! key)
    ["arxiv_id"; "title"; "authors"; "published"; "categories"]%string.

(** Inputs of the examples of ingestion. *)
Definition sample_result : ArxivDownloader.arxiv_result :=
  {| ArxivDownloader.entry_id := py "http://arxiv.org/abs/2401.00001v1";
     ArxivDownloader.title := py "Spin chains";
     ArxivDownloader.authors := [py "A. Bohr"; py "C. Dirac"];
     ArxivDownloader.summary := py "On spin.";
     ArxivDownloader.published := py "2024-01-01T00:00:00+00:00";
     ArxivDownloader.categories := [py "quant-ph"] |}.

Definition sample_paper : gmap string pyval :=
  ArxivDownloader._extract_metadata sample_result
    (py "data/raw_papers/2401_00001v1.pdf").

(** A paper record without a title. *)
Definition untitled_paper : gmap string pyval :=
  <["pdf_path" := VStr (py "data/raw_papers/none.pdf")]> ∅.

(** A reader that knows one file, of two pages. *)
Definition sample_reader (pdf_path : pyval) : option (list pystr) :=
  match pdf_path with
  | VStr path =>
      if bool_decide (path = py "data/raw_papers/2401_00001v1.pdf")
      then Some [py "Spin is quantised. "; py " It is 1/2!"]
      else None
  | _ => None
  end.

(** The path of the file of a result, and the record that
    [download_papers] lists for it. *)
Definition file_of (path_of : pystr -> pystr)
    (result : ArxivDownloader.arxiv_result) : pystr :=
  path_of (ArxivDownloader.filename_of
    (ArxivDownloader.arxiv_id_of (ArxivDownloader.entry_id result))).

Definition listed (path_of : pystr -> pystr)
    (result : ArxivDownloader.arxiv_result) : gmap string pyval :=
  ArxivDownloader._extract_metadata result (file_of path_of result).

(** What the index stores for the chunks of a result. *)
Definition indexed (result : ArxivDownloader.arxiv_result)
    (md : gmap string pyval) : Prop :=
  md !! "arxiv_id"%string
    = Some (VStr (ArxivDownloader.arxiv_id_of (ArxivDownloader.entry_id result)))
  /\ md !! "title"%string = Some (VStr (ArxivDownloader.title result))
  /\ md !! "authors"%string
     = Some (VStr (join (py ", ") (ArxivDownloader.authors result)))
  /\ md !! "published"%string = Some (VStr (ArxivDownloader.published result))
  /\ md !! "categories"%string
     = Some (VStr (join (py ", ") (ArxivDownloader.categories result))).

(** The keys of a record of [_extract_metadata]. *)
Definition record_keys : gset string :=
  {[ "arxiv_id"; "title"; "authors"; "abstract"; "published"; "categories";
     "pdf_path" ]}%string.

(** A stored metadata record as the index gives it back: its string
    values. *)
Definition stored_strings (md : gmap string pyval) : gmap string pystr :=
  omap (fun v => match v with VStr s => Some s | _ => None end) md.

(** What [add_documents] stores for a chunk of the sample paper, and an
    index answer that gives it back. *)
Definition sample_stored : gmap string pyval :=
  match VectorStore.chunk_metadata (<["text" := VStr (py "Spin.")]> sample_paper) with
  | inr md => md
  | inl _ => ∅
  end.

Definition stored_results : RAGPipeline.search_results :=
  {| RAGPipeline.documents := Some [[py "Spin."]];
     RAGPipeline.metadatas := Some [[stored_strings sample_stored]];
     RAGPipeline.distances := Some [[1 # 4]]%Q |}.

(** A line of standard input that holds only whitespace. *)
Definition blank_line (line : pystr) : Prop := strip line = [].

(** A line of standard input that ends the question loop. *)
Definition exit_line (unicode_lower : pystr -> pystr) (line : pystr) : Prop :=
  Main.lower unicode_lower (strip line) ∈ Main.exit_words.

(** The keys of the metadata that [add_documents] stores. *)
Definition index_keys : gset string :=
  {[ "arxiv_id"; "title"; "authors"; "published"; "categories" ]}%string.

(** The values that [', '.join] accepts. *)
Definition joinable (v : pyval) : bool :=
  match v with
  | VList items => bool_decide (is_Some (VectorStore.strings_of items))
  | VStr _ => true
  | VInt _ => false
  end.

(** The chunks that [add_documents] can store. *)
Definition storable (chunk : gmap string pyval) : bool :=
  bool_decide (is_Some (chunk !! "text"%string))
  && joinable (VectorStore.get chunk "authors" (VList []))
  && joinable (VectorStore.get chunk "categories" (VList [])).

(** ** Slices, trimming and the regular-expression scan *)

Section StringFacts.

Implicit Types (t s : pystr) (c : N).

Lemma py_len_nonneg t : 0 <= py_len t.
Proof. unfold py_len. lia. Qed.

Lemma clip_index_inside n i : 0 <= i <= n -> clip_index n i = i.
Proof. unfold clip_index. destruct (i <? 0) eqn:E; lia. Qed.

Lemma clip_index_beyond n i : 0 <= n <= i -> clip_index n i = n.
Proof. unfold clip_index. destruct (i <? 0) eqn:E; lia. Qed.

Lemma py_slice_whole t b : py_len t <= b -> py_slice t 0 b = t.
Proof.
  intros Hb. unfold py_slice. pose proof (py_len_nonneg t).
  rewrite (clip_index_inside _ 0), (clip_index_beyond _ b) by lia.
  simpl. apply take_ge. unfold py_len. lia.
Qed.

Lemma py_slice_fits t a b :
  0 <= a <= py_len t -> a + py_len (py_slice t a b) <= py_len t.
Proof.
  intros Ha. unfold py_slice, py_len in *.
  rewrite (clip_index_inside _ a) by lia.
  rewrite length_take, length_drop. lia.
Qed.

Lemma py_slice_lookup t a b i :
  0 <= a -> a <= i -> i < b -> i < py_len t ->
  py_slice t a b !! Z.to_nat (i - a) = t !! Z.to_nat i.
Proof.
  intros Ha Hai Hib Hil. unfold py_slice.
  rewrite (clip_index_inside _ a) by lia.
  assert (i < clip_index (py_len t) b)
    by (unfold clip_index; destruct (b <? 0) eqn:E; lia).
  rewrite lookup_take_lt by lia. rewrite lookup_drop. f_equal. lia.
Qed.

Lemma lstrip_keeps t c : c ∈ t -> is_space c = false -> c ∈ lstrip t.
Proof.
  induction t as [|d t IH]; simpl; intros Hin Hc; [done|].
  destruct (is_space d) eqn:Hd; [|done].
  apply elem_of_cons in Hin as [->|Hin]; [congruence|auto].
Qed.

Lemma elem_of_rev_iff t c : c ∈ rev t <-> c ∈ t.
Proof. rewrite !list_elem_of_In. symmetry. apply in_rev. Qed.

Lemma strip_keeps t c : c ∈ t -> is_space c = false -> c ∈ strip t.
Proof.
  intros Hin Hc. unfold strip, rstrip.
  apply elem_of_rev_iff, lstrip_keeps; [|done].
  by apply elem_of_rev_iff, lstrip_keeps.
Qed.

Lemma strip_nonempty t c : c ∈ t -> is_space c = false -> strip t <> [].
Proof.
  intros Hin Hc Hs. pose proof (strip_keeps t c Hin Hc) as H.
  rewrite Hs in H. by apply not_elem_of_nil in H.
Qed.

Lemma finditer_ends_step pos c d rest :
  finditer_ends pos (c :: d :: rest) =
  if is_terminator c && is_space d
  then (pos + 2) :: finditer_ends (pos + 2) rest
  else finditer_ends (pos + 1) (d :: rest).
Proof. reflexivity. Qed.

Lemma finditer_ends_bounds s : forall pos e,
  e ∈ finditer_ends pos s -> pos + 2 <= e <= pos + py_len s.
Proof.
  remember (length s) as n eqn:Hn. revert s Hn.
  induction n as [n IH] using lt_wf_ind. intros s Hn pos e.
  destruct s as [|c [|d rest]]; try (by intros ?%not_elem_of_nil).
  rewrite finditer_ends_step. unfold py_len. simpl length in *.
  destruct (is_terminator c && is_space d).
  - intros [->|Hin]%elem_of_cons; [lia|].
    apply (IH (length rest)) in Hin; [|lia|done].
    unfold py_len in Hin. lia.
  - intros Hin. apply (IH (length (d :: rest))) in Hin; [|simpl; lia|done].
    unfold py_len in Hin. simpl length in Hin. lia.
Qed.

End StringFacts.

(** ** The chunker loop *)

Section ChunkerFacts.

Context (self : DocumentProcessor.t) (text : pystr)
  (metadata : option (gmap string pyval)).

Local Abbreviation loop fuel := (chunk_loop fuel self text metadata).
Local Abbreviation next start := (chunk_end self text start - chunk_overlap self).

Lemma chunk_end_reach start :
  0 <= start -> start + min_reach self <= chunk_end self text start.
Proof.
  intros Hs. unfold chunk_end, min_reach. cbv zeta.
  destruct (_ <? py_len text); [|lia].
  destruct (last _) as [e|] eqn:He; [|lia].
  apply last_Some_elem_of, finditer_ends_bounds in He. lia.
Qed.

Lemma chunk_end_cases start :
  0 <= start < py_len text ->
  chunk_end self text start = start + chunk_size self
  \/ (start + chunk_size self < py_len text
      /\ chunk_end self text start <= py_len text).
Proof.
  intros Hs. unfold chunk_end. cbv zeta.
  destruct (_ <? py_len text) eqn:Hlt; [|by left].
  apply Z.ltb_lt in Hlt.
  destruct (last _) as [e|] eqn:He; [|by left]. right. split; [done|].
  apply last_Some_elem_of, finditer_ends_bounds in He.
  pose proof (py_slice_fits text (Z.max start (start + chunk_size self - 100))
    (start + chunk_size self + 100)). lia.
Qed.

Lemma chunk_loop_step fuel start acc :
  loop (S fuel) start acc =
  if start <? py_len text
  then loop fuel (next start) (acc ++ emitted self text metadata start)
  else Some acc.
Proof.
  unfold loop, next, emitted. simpl. destruct (start <? _); [|done].
  destruct (strip _); [by rewrite app_nil_r|done].
Qed.

Lemma chunk_loop_acc fuel : forall start acc,
  loop fuel start acc = (fun r => acc ++ r) <$> loop fuel start [].
Proof.
  induction fuel as [|fuel IH]; intros start acc; [done|].
  rewrite !chunk_loop_step. destruct (start <? _); [|by simpl; rewrite app_nil_r].
  rewrite IH, (IH _ ([] ++ _)). simpl.
  destruct (loop fuel _ []); simpl; [by rewrite app_assoc|done].
Qed.

Lemma chunk_loop_unfold fuel start :
  loop (S fuel) start [] =
  if start <? py_len text
  then (fun r => emitted self text metadata start ++ r) <$> loop fuel (next start) []
  else Some [].
Proof.
  rewrite chunk_loop_step. destruct (start <? _); [|done].
  by rewrite chunk_loop_acc.
Qed.

Lemma chunk_loop_more_fuel fuel : forall fuel' start acc r,
  loop fuel start acc = Some r -> (fuel <= fuel')%nat ->
  loop fuel' start acc = Some r.
Proof.
  induction fuel as [|fuel IH]; intros fuel' start acc r Hr Hle; [done|].
  destruct fuel' as [|fuel']; [lia|].
  rewrite chunk_loop_step in *. destruct (start <? _); [|done].
  apply IH; [done|lia].
Qed.

Lemma chunk_loop_stuck start :
  start < py_len text -> next start = start ->
  forall fuel acc, loop fuel start acc = None.
Proof.
  intros Hlt Hnext. induction fuel as [|fuel IH]; intros acc; [done|].
  rewrite chunk_loop_step, (proj2 (Z.ltb_lt _ _) Hlt), Hnext. apply IH.
Qed.

Lemma next_advances start :
  advancing self -> 0 <= start -> start + min_advance self <= next start.
Proof.
  intros [Ho Hadv] Hs. pose proof (chunk_end_reach start Hs).
  unfold next, min_advance in *. lia.
Qed.

Lemma chunk_loop_returns fuel : forall start acc,
  advancing self -> 0 <= start ->
  (Z.to_nat (py_len text - start) < fuel)%nat ->
  is_Some (loop fuel start acc).
Proof.
  induction fuel as [|fuel IH]; intros start acc Hadv Hs Hfuel; [lia|].
  rewrite chunk_loop_step. destruct (start <? _) eqn:Hlt; [|by eexists].
  apply Z.ltb_lt in Hlt. pose proof (next_advances start Hadv Hs).
  destruct Hadv as [Ho Hpos]. apply IH; [done|lia|lia].
Qed.

Lemma chunk_text_total :
  advancing self ->
  exists chunks, forall fuel, (Z.to_nat (py_len text) < fuel)%nat ->
    chunk_text fuel self text metadata = Some chunks.
Proof.
  intros Hadv.
  destruct (chunk_loop_returns (S (Z.to_nat (py_len text))) 0 [] Hadv)
    as [chunks Hc]; [lia|rewrite Z.sub_0_r; lia|].
  exists chunks. intros fuel Hfuel. unfold chunk_text.
  apply (chunk_loop_more_fuel _ _ _ _ _ Hc). lia.
Qed.

Lemma emitted_short start : (length (emitted self text metadata start) <= 1)%nat.
Proof. unfold emitted. destruct (strip _); simpl; lia. Qed.

Lemma chunk_loop_count fuel : forall start r,
  advancing self -> 0 <= start -> loop fuel start [] = Some r ->
  Z.of_nat (length r) * min_advance self
  <= Z.max 0 (py_len text - start + min_advance self - 1).
Proof.
  induction fuel as [|fuel IH]; intros start r Hadv Hs Hr; [done|].
  rewrite chunk_loop_unfold in Hr.
  destruct (start <? _) eqn:Hlt; [|injection Hr as <-; simpl; lia].
  apply Z.ltb_lt in Hlt. pose proof (next_advances start Hadv Hs) as Hn.
  destruct (loop fuel (next start) []) as [r'|] eqn:Hr'; [|done].
  injection Hr as <-. rewrite length_app.
  pose proof (emitted_short start) as He. destruct Hadv as [Ho Hpos].
  apply IH in Hr'; [|done|lia]. nia.
Qed.

Lemma chunk_loop_Forall (P : gmap string pyval -> Prop) (I : Z -> Prop) :
  (forall s, I s -> s < py_len text -> I (next s)) ->
  (forall s, I s -> s < py_len text -> Forall P (emitted self text metadata s)) ->
  forall fuel start acc r, I start -> Forall P acc ->
    loop fuel start acc = Some r -> Forall P r.
Proof.
  intros Hnext Hemit. induction fuel as [|fuel IH]; intros start acc r HI Hacc Hr; [done|].
  rewrite chunk_loop_step in Hr. destruct (start <? _) eqn:Hlt; [|by injection Hr as <-].
  apply Z.ltb_lt in Hlt. eapply IH; [|apply Forall_app_2|done]; eauto.
Qed.

Lemma make_chunk_offsets ct s e :
  keeps_core metadata -> chunk_offsets (make_chunk metadata ct s e) = Some (s, e).
Proof.
  intros Hk. unfold chunk_offsets, make_chunk, dict_update.
  destruct metadata as [md|]; [destruct Hk as (_ & Hs & He); destruct (dict_truthy md)|];
    rewrite ?(lookup_union_r md) by done; done.
Qed.

Lemma make_chunk_text ct s e :
  keeps_core metadata ->
  make_chunk metadata ct s e !! "text"%string = Some (VStr ct).
Proof.
  intros Hk. unfold make_chunk, dict_update.
  destruct metadata as [md|]; [destruct Hk as (Ht & _); destruct (dict_truthy md)|];
    rewrite ?(lookup_union_r md) by done; done.
Qed.

Lemma emitted_fields start chunk :
  keeps_core metadata -> chunk ∈ emitted self text metadata start ->
  chunk_offsets chunk = Some (start, chunk_end self text start)
  /\ chunk !! "text"%string
     = Some (VStr (strip (py_slice text start (chunk_end self text start))))
  /\ strip (py_slice text start (chunk_end self text start)) <> [].
Proof.
  intros Hk. unfold emitted. destruct (strip _) as [|c ct] eqn:Hs.
  - by intros ?%not_elem_of_nil.
  - intros ->%list_elem_of_singleton.
    by rewrite make_chunk_offsets, make_chunk_text.
Qed.

Lemma emitted_visible start i c :
  0 <= start <= i -> i < chunk_end self text start ->
  text !! Z.to_nat i = Some c -> is_space c = false ->
  exists chunk_text,
    emitted self text metadata start
    = [make_chunk metadata chunk_text start (chunk_end self text start)].
Proof.
  intros Hs Hi Hc Hsp.
  assert (i < py_len text) by (apply lookup_lt_Some in Hc; unfold py_len; lia).
  assert (c ∈ py_slice text start (chunk_end self text start)) as Hin.
  { apply list_elem_of_lookup. exists (Z.to_nat (i - start)).
    rewrite py_slice_lookup by lia. done. }
  unfold emitted. destruct (strip _) as [|d ct] eqn:Hst.
  - by apply strip_nonempty in Hin.
  - by exists (d :: ct).
Qed.

Lemma emitted_covering start i c :
  keeps_core metadata -> 0 <= start <= i -> i < chunk_end self text start ->
  text !! Z.to_nat i = Some c -> is_space c = false ->
  Exists (covers i) (emitted self text metadata start).
Proof.
  intros Hk Hs Hi Hc Hsp.
  destruct (emitted_visible start i c Hs Hi Hc Hsp) as [ct ->].
  apply Exists_cons_hd. exists start, (chunk_end self text start).
  rewrite make_chunk_offsets by done. split; [done|lia].
Qed.

Lemma chunk_loop_head fuel r c :
  advancing self -> keeps_core metadata ->
  loop fuel 0 [] = Some r -> text !! 0%nat = Some c -> is_space c = false ->
  exists chunk e, head r = Some chunk /\ chunk_offsets chunk = Some (0, e).
Proof.
  intros Hadv Hk Hr Hc Hsp. destruct fuel as [|fuel]; [done|].
  rewrite chunk_loop_unfold in Hr.
  assert (0 < py_len text) by (apply lookup_lt_Some in Hc; unfold py_len; lia).
  destruct (0 <? py_len text) eqn:Hlt; [|apply Z.ltb_ge in Hlt; lia].
  destruct (loop fuel (next 0) []) as [r'|]; [|done]. injection Hr as <-.
  pose proof (chunk_end_reach 0 ltac:(lia)) as Hreach.
  destruct Hadv as [Ho Hpos]. unfold min_advance in Hpos.
  destruct (emitted_visible 0 0 c) as [ct ->]; [lia|lia|done|done|].
  eexists _, _. split; [done|]. by apply make_chunk_offsets.
Qed.

Lemma chunk_loop_last fuel : forall start r c,
  advancing self -> keeps_core metadata -> 0 <= start < py_len text ->
  loop fuel start [] = Some r -> last text = Some c -> is_space c = false ->
  exists chunk s e, last r = Some chunk
    /\ chunk_offsets chunk = Some (s, e) /\ py_len text <= e.
Proof.
  induction fuel as [|fuel IH]; intros start r c Hadv Hk Hs Hr Hc Hsp; [done|].
  rewrite chunk_loop_unfold in Hr.
  destruct (start <? py_len text) eqn:Hlt; [|apply Z.ltb_ge in Hlt; lia].
  destruct (loop fuel (next start) []) as [r'|] eqn:Hr'; [|done].
  injection Hr as <-. pose proof (next_advances start Hadv ltac:(lia)) as Hn.
  assert (0 <= chunk_overlap self /\ 0 < min_advance self) as [Ho Hpos] by done.
  destruct (decide (next start < py_len text)) as [Hin|Hout].
  - destruct (IH (next start) r' c) as (chunk & s & e & Hl & Hoff & He);
      try done; [lia|].
    exists chunk, s, e. rewrite last_app, Hl. done.
  - assert (r' = []) as ->.
    { destruct fuel as [|fuel']; [done|]. rewrite chunk_loop_unfold in Hr'.
      destruct (next start <? py_len text) eqn:E; [apply Z.ltb_lt in E; lia|].
      by injection Hr' as <-. }
    rewrite last_lookup in Hc.
    destruct (emitted_visible start (py_len text - 1) c) as [ct ->];
      [lia|lia| |done|].
    { rewrite <- Hc. f_equal. unfold py_len. lia. }
    eexists _, start, (chunk_end self text start).
    split; [done|]. split; [by apply make_chunk_offsets|lia].
Qed.

Lemma chunk_loop_covers fuel : forall start r,
  advancing self -> keeps_core metadata -> 0 <= start ->
  loop fuel start [] = Some r ->
  forall i c, start <= i -> text !! Z.to_nat i = Some c -> is_space c = false ->
    Exists (covers i) r.
Proof.
  induction fuel as [|fuel IH]; intros start r Hadv Hk Hs Hr i c Hi Hc Hsp; [done|].
  assert (i < py_len text) by (apply lookup_lt_Some in Hc; unfold py_len; lia).
  rewrite chunk_loop_unfold in Hr.
  destruct (start <? _) eqn:Hlt; [|apply Z.ltb_ge in Hlt; lia].
  destruct (loop fuel (next start) []) as [r'|] eqn:Hr'; [|done].
  injection Hr as <-. apply Exists_app.
  destruct (decide (i < chunk_end self text start)) as [Hin|Hout].
  - left. by apply (emitted_covering start i c).
  - right. pose proof (next_advances start Hadv Hs). destruct Hadv as [Ho Hpos].
    apply (IH (next start) r') with (c := c); try done; try (split; done);
      unfold next in *; lia.
Qed.

Lemma chunk_loop_from fuel start r :
  advancing self -> keeps_core metadata -> 0 <= start ->
  loop fuel start [] = Some r ->
  Forall (fun chunk => exists s e, chunk_offsets chunk = Some (s, e)
            /\ start <= s /\ s + min_reach self <= e) r.
Proof.
  intros Hadv Hk Hs.
  apply (chunk_loop_Forall _ (fun s => start <= s)); [| |lia|done].
  - intros s Hle Hlt. pose proof (next_advances s Hadv). destruct Hadv. lia.
  - intros s Hle Hlt. apply Forall_forall. intros chunk Hin.
    apply emitted_fields in Hin as (Hoff & _); [|done].
    exists s, (chunk_end self text s). split; [done|].
    split; [done|]. apply chunk_end_reach. lia.
Qed.

Lemma chunk_loop_sorted fuel : forall start r,
  advancing self -> keeps_core metadata -> 0 <= start ->
  loop fuel start [] = Some r -> StronglySorted before r.
Proof.
  induction fuel as [|fuel IH]; intros start r Hadv Hk Hs Hr; [done|].
  rewrite chunk_loop_unfold in Hr.
  destruct (start <? _) eqn:Hlt; [|injection Hr as <-; constructor].
  destruct (loop fuel (next start) []) as [r'|] eqn:Hr'; [|done].
  injection Hr as <-. pose proof (next_advances start Hadv Hs) as Hn.
  assert (0 <= next start) as Hs' by (destruct Hadv; lia).
  pose proof (IH _ _ Hadv Hk Hs' Hr') as Hsorted.
  pose proof (chunk_loop_from _ _ _ Hadv Hk Hs' Hr') as Hfrom.
  pose proof (emitted_fields start) as Hf.
  unfold emitted in *. destruct (strip _) as [|c ct]; [done|].
  simpl. constructor; [done|].
  destruct (Hf _ Hk ltac:(apply list_elem_of_singleton; done)) as (Hoff & _).
  eapply Forall_impl; [exact Hfrom|]. intros chunk (s & e & Hce & Hle & Hre).
  exists start, (chunk_end self text start), s, e.
  destruct Hadv as [Ho Hpos]. unfold next, min_advance in *.
  repeat split; try done; lia.
Qed.

End ChunkerFacts.

(** ** Properties of the chunker *)

(** C1, as the code has it: when the overlap is not negative and is less
    than the least distance [min_reach] from a cursor to its chunk end,
    every iteration moves the cursor forward by at least [min_advance], the
    loop ends for every text within [len(text) + 1] iterations, and the
    number of chunks is at most [ceil(len(text) / min_advance)]. *)
Theorem chunk_text_terminates (self : DocumentProcessor.t) (text : pystr)
    (metadata : option (gmap string pyval)) :
  advancing self ->
  (forall start, 0 <= start ->
     start + min_advance self <= chunk_end self text start - chunk_overlap self)
  /\ exists chunks,
       (forall fuel, (Z.to_nat (py_len text) < fuel)%nat ->
          chunk_text fuel self text metadata = Some chunks)
       /\ Z.of_nat (length chunks)
          <= (py_len text + min_advance self - 1) / min_advance self.
Proof.
  intros Hadv. split; [intros start Hs; by apply next_advances|].
  destruct (chunk_text_total self text metadata Hadv) as [chunks Hc].
  exists chunks. split; [done|].
  specialize (Hc (S (Z.to_nat (py_len text))) ltac:(lia)).
  apply chunk_loop_count in Hc; [|done|lia].
  destruct Hadv as [Ho Hpos]. pose proof (py_len_nonneg text).
  apply Z.div_le_lower_bound; lia.
Qed.

Lemma chunk_text_terminates_witness :
  advancing (Build 1000 200)
  /\ exists chunks,
       (forall fuel, (Z.to_nat (py_len scenario_text) < fuel)%nat ->
          chunk_text fuel (Build 1000 200) scenario_text None = Some chunks)
       /\ Z.of_nat (length chunks) <= (py_len scenario_text + 702 - 1) / 702.
Proof.
  assert (advancing (Build 1000 200)) as Hadv by (vm_compute; split; [discriminate|reflexivity]).
  split; [exact Hadv|].
  exact (proj2 (chunk_text_terminates (Build 1000 200) scenario_text None Hadv)).
Defined.

(** C1 fails on the code in two ways. With [chunk_size = 3] and
    [chunk_overlap = 2] the text ["a. bcd"] is snapped back to end 3 from
    cursor 1, so the cursor stays at 1 and no amount of fuel ends the loop.
    With [chunk_size = 300] and [chunk_overlap = 0] a text of 1200
    characters whose boundaries pull every chunk end back gives 6 chunks,
    more than [ceil(1200 / 300) + 1]. *)
Lemma chunk_text_loops_or_exceeds_bound :
  (valid_config (Build 3 2)
   /\ forall fuel, chunk_text fuel (Build 3 2) (py "a. bcd") None = None)
  /\ (valid_config (Build 300 0)
      /\ length <$> chunk_text 7 (Build 300 0) paced_text None = Some 6%nat
      /\ (py_len paced_text + (300 - 0) - 1) / (300 - 0) + 1 < 6).
Proof.
  split; split.
  - vm_compute. repeat split; congruence.
  - intros [|fuel]; [done|]. unfold chunk_text. rewrite chunk_loop_step.
    change (0 <? py_len (py "a. bcd")) with true. cbv iota.
    replace (chunk_end (Build 3 2) (py "a. bcd") 0 - chunk_overlap (Build 3 2))
      with 1 by (vm_compute; reflexivity).
    apply chunk_loop_stuck; vm_compute; reflexivity.
  - vm_compute. repeat split; congruence.
  - split; vm_compute; reflexivity.
Qed.

(** C2, as the code has it: a text of at most [chunk_size - chunk_overlap]
    characters whose trimmed form is not empty gives exactly one chunk; its
    text is the trimmed input, its [start_char] is 0 and its [end_char] is
    [chunk_size], which is at least the length of the text. The metadata
    must leave the three fields of the chunk alone. *)
Theorem short_text_single_chunk (self : DocumentProcessor.t) (text : pystr)
    (metadata : option (gmap string pyval)) (fuel : nat) :
  0 <= chunk_overlap self ->
  py_len text <= chunk_size self - chunk_overlap self ->
  strip text <> [] ->
  keeps_core metadata ->
  (2 <= fuel)%nat ->
  exists chunk,
    chunk_text fuel self text metadata = Some [chunk]
    /\ chunk !! "text"%string = Some (VStr (strip text))
    /\ chunk_offsets chunk = Some (0, chunk_size self)
    /\ py_len text <= chunk_size self.
Proof.
  intros Ho Hlen Hne Hk Hfuel.
  assert (0 < py_len text) as Hpos.
  { destruct text; [done|]. unfold py_len. simpl. lia. }
  assert (chunk_end self text 0 = chunk_size self) as Hend.
  { unfold chunk_end. simpl. destruct (_ <? _) eqn:E; [|done].
    apply Z.ltb_lt in E. lia. }
  exists (make_chunk metadata (strip text) 0 (chunk_size self)).
  rewrite make_chunk_text, make_chunk_offsets by done.
  split; [|repeat split; lia].
  apply (chunk_loop_more_fuel self text metadata 2); [|done].
  rewrite chunk_loop_step. destruct (0 <? py_len text) eqn:E; [|apply Z.ltb_ge in E; lia].
  rewrite chunk_loop_step, Hend.
  destruct (chunk_size self - chunk_overlap self <? py_len text) eqn:E';
    [apply Z.ltb_lt in E'; lia|].
  unfold emitted. rewrite Hend, py_slice_whole by lia.
  destruct (strip text); done.
Qed.

Lemma short_text_single_chunk_witness :
  exists chunk,
    chunk_text 2 (Build 1000 200) (py " One sentence. ") None = Some [chunk]
    /\ chunk !! "text"%string = Some (VStr (strip (py " One sentence. ")))
    /\ chunk_offsets chunk = Some (0, 1000)
    /\ py_len (py " One sentence. ") <= 1000.
Proof.
  apply (short_text_single_chunk (Build 1000 200) (py " One sentence. ") None 2).
  - simpl. lia.
  - vm_compute. discriminate.
  - vm_compute. discriminate.
  - exact I.
  - lia.
Defined.

(** C2 fails on the code: with [chunk_size = 10] and [chunk_overlap = 5]
    the text ["abcdefghij"] is not longer than [chunk_size], and the loop
    goes on from cursor 5 and gives a second chunk. *)
Lemma short_text_two_chunks :
  py_len (py "abcdefghij") <= chunk_size (Build 10 5)
  /\ strip (py "abcdefghij") <> []
  /\ offsets_of (chunk_text 5 (Build 10 5) (py "abcdefghij") None)
     = Some [Some (0, 10); Some (5, 15)].
Proof. vm_compute. repeat split; congruence. Qed.

(** C3, as the code has it: in an advancing configuration, with metadata
    that leaves the offsets alone, every chunk has
    [0 <= start_char < end_char] and [start_char < len(text)], and its
    [end_char] is at most [len(text)] or equals
    [start_char + chunk_size]. *)
Theorem chunk_offsets_invariant (self : DocumentProcessor.t) (text : pystr)
    (metadata : option (gmap string pyval)) :
  advancing self -> keeps_core metadata ->
  exists chunks,
    (forall fuel, (Z.to_nat (py_len text) < fuel)%nat ->
       chunk_text fuel self text metadata = Some chunks)
    /\ Forall (fun chunk => exists s e,
         chunk_offsets chunk = Some (s, e)
         /\ 0 <= s < e /\ s < py_len text
         /\ (e <= py_len text \/ e = s + chunk_size self)) chunks.
Proof.
  intros Hadv Hk.
  destruct (chunk_text_total self text metadata Hadv) as [chunks Hc].
  exists chunks. split; [done|].
  specialize (Hc (S (Z.to_nat (py_len text))) ltac:(lia)).
  revert Hc. apply (chunk_loop_Forall _ _ _ _ (fun s => 0 <= s)); [| |lia|done].
  - intros s Hs Hlt. cbv beta in *.
    pose proof (next_advances self text s Hadv Hs). destruct Hadv. lia.
  - intros s Hs Hlt. cbv beta in *. apply Forall_forall. intros chunk Hin.
    apply emitted_fields in Hin as (Hoff & _); [|done].
    exists s, (chunk_end self text s). split; [done|].
    pose proof (chunk_end_reach self text s Hs).
    pose proof (chunk_end_cases self text s ltac:(lia)).
    destruct Hadv as [Ho Hpos]. unfold min_advance in Hpos. lia.
Qed.

Lemma chunk_offsets_invariant_witness :
  exists chunks,
    (forall fuel, (Z.to_nat (py_len scenario_text) < fuel)%nat ->
       chunk_text fuel (Build 1000 200) scenario_text None = Some chunks)
    /\ Forall (fun chunk => exists s e,
         chunk_offsets chunk = Some (s, e)
         /\ 0 <= s < e /\ s < py_len scenario_text
         /\ (e <= py_len scenario_text \/ e = s + 1000)) chunks.
Proof.
  apply (chunk_offsets_invariant (Build 1000 200) scenario_text None).
  - vm_compute. split; [discriminate|reflexivity].
  - exact I.
Defined.

(** C3 fails on the code: the end of the last chunk is
    [start + chunk_size] whatever the length of the text; for ["abc"] and
    [chunk_size = 10] the only chunk has [end_char = 10]. *)
Lemma end_char_beyond_text :
  offsets_of (chunk_text 3 (Build 10 0) (py "abc") None) = Some [Some (0, 10)]
  /\ py_len (py "abc") < 10.
Proof. vm_compute. split; reflexivity. Qed.

(** C5, as the code has it: in an advancing configuration, with metadata
    that leaves the offsets alone, the chunks come in strictly increasing
    order of [start_char] and of [end_char], and every character of the
    text that is not whitespace lies in the range of a chunk; the first
    chunk starts at 0 when the text starts with such a character, and the
    last chunk ends at or behind the end of the text when the text ends
    with one. Windows whose trimmed content is empty give no chunk, so a
    position outside every range holds whitespace. *)
Theorem chunks_cover_text (self : DocumentProcessor.t) (text : pystr)
    (metadata : option (gmap string pyval)) :
  advancing self -> keeps_core metadata ->
  exists chunks,
    (forall fuel, (Z.to_nat (py_len text) < fuel)%nat ->
       chunk_text fuel self text metadata = Some chunks)
    /\ StronglySorted before chunks
    /\ (forall (i : nat) (c : N), text !! i = Some c -> is_space c = false ->
         Exists (covers (Z.of_nat i)) chunks)
    /\ (forall c, head text = Some c -> is_space c = false ->
         exists chunk e, head chunks = Some chunk
           /\ chunk_offsets chunk = Some (0, e))
    /\ (forall c, last text = Some c -> is_space c = false ->
         exists chunk s e, last chunks = Some chunk
           /\ chunk_offsets chunk = Some (s, e) /\ py_len text <= e).
Proof.
  intros Hadv Hk.
  destruct (chunk_text_total self text metadata Hadv) as [chunks Hc].
  exists chunks. split; [done|].
  specialize (Hc (S (Z.to_nat (py_len text))) ltac:(lia)).
  unfold chunk_text in Hc. split; [|split; [|split]].
  - by eapply (chunk_loop_sorted self text metadata _ 0).
  - intros i c Hi Hsp.
    eapply (chunk_loop_covers self text metadata _ 0 chunks Hadv Hk);
      [done|exact Hc|lia|by rewrite Nat2Z.id|done].
  - intros c Hh Hsp. rewrite head_lookup in Hh.
    by eapply (chunk_loop_head self text metadata).
  - intros c Hl Hsp.
    assert (0 < py_len text) by (destruct text; [done|unfold py_len; simpl; lia]).
    eapply (chunk_loop_last self text metadata _ 0); done.
Qed.

Lemma chunks_cover_text_witness :
  exists chunks,
    (forall fuel, (Z.to_nat (py_len scenario_text) < fuel)%nat ->
       chunk_text fuel (Build 1000 200) scenario_text None = Some chunks)
    /\ StronglySorted before chunks
    /\ (forall (i : nat) (c : N), scenario_text !! i = Some c -> is_space c = false ->
         Exists (covers (Z.of_nat i)) chunks)
    /\ (forall c, head scenario_text = Some c -> is_space c = false ->
         exists chunk e, head chunks = Some chunk
           /\ chunk_offsets chunk = Some (0, e))
    /\ (forall c, last scenario_text = Some c -> is_space c = false ->
         exists chunk s e, last chunks = Some chunk
           /\ chunk_offsets chunk = Some (s, e) /\ py_len scenario_text <= e).
Proof.
  apply (chunks_cover_text (Build 1000 200) scenario_text None).
  - vm_compute. split; [discriminate|reflexivity].
  - exact I.
Defined.

(** C5 fails on the code: with [chunk_size = 1] and [chunk_overlap = 0]
    the text ["a b"] gives the ranges [0, 1) and [2, 3); the window of the
    space is trimmed to nothing and gives no chunk, so the second chunk
    starts behind the end of the first. *)
Lemma whitespace_window_leaves_gap :
  valid_config (Build 1 0)
  /\ offsets_of (chunk_text 4 (Build 1 0) (py "a b") None)
     = Some [Some (0, 1); Some (2, 3)].
Proof. vm_compute. repeat split; congruence. Qed.

(** C10: the metadata is merged over the literal. When it has none of the
    keys [text], [start_char] and [end_char], the [text] of every chunk is
    the trimmed slice between the chunk's own offsets; metadata with the
    key [text] replaces the extracted content. *)
Theorem metadata_merge :
  (forall fuel self text metadata chunks,
     keeps_core metadata ->
     chunk_text fuel self text metadata = Some chunks ->
     Forall (fun chunk => exists s e,
       chunk_offsets chunk = Some (s, e)
       /\ chunk !! "text"%string = Some (VStr (strip (py_slice text s e)))) chunks)
  /\ (let md : gmap string pyval := {[ "text"%string := VStr (py "other") ]} in
      exists chunk,
        chunk_text 2 (Build 10 0) (py "abc") (Some md) = Some [chunk]
        /\ chunk !! "text"%string = Some (VStr (py "other"))
        /\ chunk_offsets chunk = Some (0, 10)
        /\ strip (py_slice (py "abc") 0 10) = py "abc").
Proof.
  split.
  - intros fuel self text metadata chunks Hk.
    apply (chunk_loop_Forall _ _ _ _ (fun _ => True)); [done| |done|done].
    intros s _ _. apply Forall_forall. intros chunk Hin.
    apply emitted_fields in Hin as (Hoff & Htext & _); [|done].
    by exists s, (chunk_end self text s).
  - exists (make_chunk (Some {[ "text"%string := VStr (py "other") ]}) (py "abc") 0 10).
    repeat split; vm_compute; reflexivity.
Qed.

Lemma metadata_merge_witness :
  Forall (fun chunk => exists s e,
    chunk_offsets chunk = Some (s, e)
    /\ chunk !! "text"%string = Some (VStr (strip (py_slice (py "ab. cd") s e))))
    [make_chunk (Some {[ "title"%string := VStr (py "T") ]}) (py "ab. cd") 0 10].
Proof.
  apply (proj1 metadata_merge 2%nat (Build 10 0) (py "ab. cd")
           (Some {[ "title"%string := VStr (py "T") ]})).
  - vm_compute. repeat split.
  - vm_compute. reflexivity.
Defined.

(** ** The sentence-boundary snap *)

Lemma terminator_not_space (c : N) : is_space c = true -> is_terminator c = false.
Proof.
  unfold is_space, is_terminator. intros H.
  destruct (N.eqb_spec c 46) as [->|]; [done|].
  destruct (N.eqb_spec c 33) as [->|]; [done|].
  destruct (N.eqb_spec c 63) as [->|]; done.
Qed.

Lemma boundary_at_cons (c : N) (s : pystr) (q : Z) :
  0 <= q -> boundary_at (c :: s) (q + 1) = boundary_at s q.
Proof.
  intros Hq. unfold boundary_at.
  rewrite (proj2 (Z.leb_le 0 q)), (proj2 (Z.leb_le 0 (q + 1))) by lia.
  replace (Z.to_nat (q + 1 + 1)) with (S (Z.to_nat (q + 1))) by lia.
  replace (Z.to_nat (q + 1)) with (S (Z.to_nat q)) by lia.
  reflexivity.
Qed.

Lemma filter_boundary_shift (c : N) (s : pystr) (pos m n : Z) :
  pos < m ->
  List.filter (fun p => boundary_at (c :: s) (p - pos)) (seqZ m n)
  = List.filter (fun p => boundary_at s (p - (pos + 1))) (seqZ m n).
Proof.
  intros Hm. apply filter_ext_in. intros p Hp%list_elem_of_In%elem_of_seqZ.
  replace (p - pos) with (p - (pos + 1) + 1) by lia.
  apply boundary_at_cons. lia.
Qed.

(** The scan finds every boundary of the searched string: two matches
    cannot overlap, since the second character of a match is whitespace
    and so is no terminator. *)
Lemma finditer_ends_boundaries (s : pystr) : forall pos,
  finditer_ends pos s
  = (fun p => p + 2) <$>
    List.filter (fun p => boundary_at s (p - pos)) (seqZ pos (py_len s - 1)).
Proof.
  remember (length s) as n eqn:Hn. revert s Hn.
  induction n as [n IH] using lt_wf_ind. intros s Hn pos.
  destruct s as [|c [|d rest]]; [done|done|].
  rewrite finditer_ends_step.
  assert (py_len (c :: d :: rest) - 1 = 1 + py_len rest) as ->
    by (unfold py_len; simpl length; lia).
  rewrite seqZ_cons by (pose proof (py_len_nonneg rest); lia).
  replace (Z.pred (1 + py_len rest)) with (py_len rest) by lia.
  simpl List.filter. replace (pos - pos) with 0 by lia.
  change (boundary_at (c :: d :: rest) 0) with (is_terminator c && is_space d).
  rewrite filter_boundary_shift by lia.
  destruct (is_terminator c && is_space d) eqn:Hcd.
  - apply andb_prop in Hcd as [_ Hd].
    rewrite (IH (length rest) ltac:(simpl in Hn; lia) rest eq_refl).
    simpl. f_equal. destruct rest as [|e rest]; [done|].
    assert (py_len (e :: rest) = 1 + py_len rest) as Hlen
      by (unfold py_len; simpl length; lia).
    rewrite Hlen.
    rewrite (seqZ_cons (Z.succ pos)) by (pose proof (py_len_nonneg rest); lia).
    replace (Z.pred (1 + py_len rest)) with (py_len rest) by lia.
    replace (1 + py_len rest - 1) with (py_len rest) by lia.
    simpl List.filter. replace (Z.succ pos - (pos + 1)) with 0 by lia.
    assert (boundary_at (d :: e :: rest) 0 = false) as ->.
    { unfold boundary_at. simpl. by rewrite terminator_not_space. }
    rewrite (filter_boundary_shift d (e :: rest) (pos + 1)) by lia.
    replace (pos + 1 + 1) with (pos + 2) by lia.
    by replace (Z.succ (Z.succ pos)) with (pos + 2) by lia.
  - rewrite (IH (length (d :: rest)) ltac:(simpl in Hn |- *; lia) (d :: rest) eq_refl).
    replace (py_len (d :: rest) - 1) with (py_len rest)
      by (unfold py_len; simpl length; lia).
    by replace (Z.succ pos) with (pos + 1) by lia.
Qed.

Lemma boundary_at_slice (text : pystr) (a b q : Z) :
  0 <= a <= py_len text -> 0 <= q -> q + 1 < py_len (py_slice text a b) ->
  boundary_at (py_slice text a b) q = boundary_at text (a + q).
Proof.
  intros Ha Hq Hlen. unfold boundary_at, py_slice in *.
  rewrite (clip_index_inside _ a) in * by lia.
  unfold py_len in *. rewrite length_take, length_drop in Hlen.
  rewrite !lookup_take_lt, !lookup_drop by lia.
  rewrite (proj2 (Z.leb_le 0 q)), (proj2 (Z.leb_le 0 (a + q))) by lia.
  replace (Z.to_nat a + Z.to_nat q)%nat with (Z.to_nat (a + q)) by lia.
  replace (Z.to_nat a + Z.to_nat (q + 1))%nat with (Z.to_nat (a + q + 1)) by lia.
  done.
Qed.

Lemma py_slice_len (text : pystr) (a b : Z) :
  0 <= a <= b -> a <= py_len text ->
  py_len (py_slice text a b) = Z.min b (py_len text) - a.
Proof.
  intros Ha Hl. unfold py_slice, py_len in *.
  rewrite (clip_index_inside _ a) by lia.
  rewrite length_take, length_drop. unfold clip_index.
  destruct (b <? 0) eqn:E; [apply Z.ltb_lt in E; lia|]. lia.
Qed.

Lemma snap_agrees (self : DocumentProcessor.t) (text : pystr) (start : Z) :
  0 < chunk_size self -> 0 <= start ->
  start + chunk_size self < py_len text ->
  chunk_end self text start = snapped_end self text start.
Proof.
  intros Hc Hs Hlt. unfold chunk_end, snapped_end, last_boundary, sentence_endings.
  cbv zeta. rewrite (proj2 (Z.ltb_lt _ _) Hlt).
  remember (Z.max start (start + chunk_size self - 100)) as lo eqn:Hlo.
  remember (Z.min (start + chunk_size self + 100) (py_len text)) as hi eqn:Hhi.
  remember (py_slice text lo (start + chunk_size self + 100)) as w eqn:Hwdef.
  assert (py_len w = hi - lo) as Hw by (subst w; rewrite py_slice_len; lia).
  rewrite finditer_ends_boundaries, Hw, fmap_last.
  replace (hi - 1 - lo) with (hi - lo - 1) by lia.
  replace (seqZ lo (hi - lo - 1)) with (Z.add lo <$> seqZ 0 (hi - lo - 1))
    by (rewrite fmap_add_seqZ; f_equal; lia).
  change (Z.add lo <$> seqZ 0 (hi - lo - 1)) with (List.map (Z.add lo) (seqZ 0 (hi - lo - 1))).
  rewrite filter_map_swap.
  change (List.map (Z.add lo) ?l) with (Z.add lo <$> l). rewrite fmap_last.
  assert (List.filter (fun p => boundary_at w (p - 0)) (seqZ 0 (hi - lo - 1))
          = List.filter (fun p => boundary_at text (lo + p)) (seqZ 0 (hi - lo - 1))) as ->.
  { apply filter_ext_in. intros p Hp%list_elem_of_In%elem_of_seqZ.
    rewrite Z.sub_0_r. subst w. apply boundary_at_slice; lia. }
  destruct (last _) as [q|]; simpl; lia.
Qed.

(** C6, as the code has it: when the tentative end [start + chunk_size]
    lies before the end of the text, the chunk end is the position right
    behind the last boundary (a terminator followed by whitespace) whose
    two characters lie between [max(start, tentative - 100)] and
    [min(tentative + 100, len(text))], and the tentative end when the
    window holds no boundary. In the scenario text the window from 900 to
    1100 holds only the letter x, so the first chunk ends at 1000. *)
Theorem snap_to_last_boundary :
  (forall self text start,
     0 < chunk_size self -> 0 <= start ->
     start + chunk_size self < py_len text ->
     chunk_end self text start = snapped_end self text start)
  /\ last_boundary scenario_text 900 1100 = None
  /\ offsets_of (chunk_text 4 (Build 1000 200) scenario_text None)
     = Some [Some (0, 1000); Some (800, 1800); Some (1600, 2600)].
Proof.
  split; [exact snap_agrees|]. split; vm_compute; reflexivity.
Qed.

Lemma snap_to_last_boundary_witness :
  (0 < chunk_size (Build 10 0) /\ 0 <= 0
   /\ 0 + chunk_size (Build 10 0) < py_len (py "ab. " ++ xs 30))
  /\ chunk_end (Build 10 0) (py "ab. " ++ xs 30) 0
     = snapped_end (Build 10 0) (py "ab. " ++ xs 30) 0
  /\ snapped_end (Build 10 0) (py "ab. " ++ xs 30) 0 = 4.
Proof.
  assert (0 < chunk_size (Build 10 0)) as H1 by (simpl; lia).
  assert (0 <= 0) as H2 by lia.
  assert (0 + chunk_size (Build 10 0) < py_len (py "ab. " ++ xs 30)) as H3
    by (vm_compute; reflexivity).
  split; [done|]. split; [|vm_compute; reflexivity].
  exact (proj1 snap_to_last_boundary (Build 10 0) (py "ab. " ++ xs 30) 0 H1 H2 H3).
Defined.

(** C6 fails on the code for the scenario: no character between offsets
    900 and 1100 of the scenario text is a terminator followed by
    whitespace, and the first chunk ends exactly at offset 1000. The
    window also never reaches back behind the cursor: with
    [chunk_size = 10] the boundary at offset 2 lies less than 100
    characters before the tentative end 14 of the second chunk, and that
    chunk still ends at 14. *)
Lemma scenario_end_not_snapped :
  (chunk_end (Build 1000 200) scenario_text 0 = 1000
   /\ forallb (fun p => negb (boundary_at scenario_text p)) (seqZ 900 200) = true
   /\ head <$> offsets_of (chunk_text 4 (Build 1000 200) scenario_text None)
      = Some (Some (Some (0, 1000))))
  /\ (boundary_at (py "ab. " ++ xs 30) 2 = true
      /\ offsets_of (chunk_text 5 (Build 10 0) (py "ab. " ++ xs 30) None)
         = Some [Some (0, 4); Some (4, 14); Some (14, 24); Some (24, 34)]).
Proof. repeat split; vm_compute; reflexivity. Qed.

(** ** Construction *)

(** C4, as the code has it: the constructor checks nothing. For every
    pair of integers it returns a processor that holds exactly the two
    arguments, so construction with a valid configuration succeeds, and so
    does construction with an invalid one. *)
Theorem init_stores_arguments (chunk_size chunk_overlap : Z) :
  __init__ chunk_size chunk_overlap = inr (Build chunk_size chunk_overlap).
Proof. reflexivity. Qed.

(** C4 fails on the code: target size 0 with overlap -5, and overlap equal
    to the target size, are accepted and stored as given. Nothing checks
    the values later either: a processor with target size 0 and overlap 0
    keeps its cursor at 0 on the text ["abc"] for ever. *)
Lemma init_accepts_invalid :
  (__init__ 0 (-5) = inr (Build 0 (-5)) /\ ~ valid_config (Build 0 (-5)))
  /\ (__init__ 10 10 = inr (Build 10 10) /\ ~ valid_config (Build 10 10))
  /\ (__init__ 0 0 = inr (Build 0 0)
      /\ forall fuel, chunk_text fuel (Build 0 0) (py "abc") None = None).
Proof.
  repeat split; try (unfold valid_config; simpl; lia).
  intros fuel. apply chunk_loop_stuck; vm_compute; reflexivity.
Qed.

(** ** The text cleaner *)

Section CleanerFacts.

Variable unicode_alnum : N -> bool.

Implicit Types (t : pystr) (c : N).

Lemma lstrip_split t : exists pre, t = pre ++ lstrip t /\ Forall blank pre.
Proof.
  induction t as [|c t (pre & Ht & Hpre)]; [by exists []|]. simpl.
  destruct (is_space c) eqn:Hc; [|by exists []].
  exists (c :: pre). split; [simpl; by f_equal|by constructor].
Qed.

Lemma rstrip_split t : exists suf, t = rstrip t ++ suf /\ Forall blank suf.
Proof.
  destruct (lstrip_split (rev t)) as (pre & Ht & Hpre). exists (rev pre). split.
  - unfold rstrip. rewrite <- rev_app_distr, <- Ht. by rewrite rev_involutive.
  - rewrite Forall_forall in Hpre. apply Forall_forall.
    intros c Hc. apply Hpre. by apply elem_of_rev_iff.
Qed.

Lemma strip_split t :
  exists pre suf, t = pre ++ strip t ++ suf /\ Forall blank pre /\ Forall blank suf.
Proof.
  destruct (lstrip_split t) as (pre & Ht & Hpre).
  destruct (rstrip_split (lstrip t)) as (suf & Hl & Hsuf).
  exists pre, suf. unfold strip. by rewrite <- Hl.
Qed.

Lemma lstrip_head t c : head (lstrip t) = Some c -> is_space c = false.
Proof.
  induction t as [|d t IH]; simpl; [done|].
  destruct (is_space d) eqn:Hd; [done|]. simpl. by intros [= <-].
Qed.

Lemma strip_head t c : head (strip t) = Some c -> is_space c = false.
Proof.
  unfold strip. destruct (rstrip_split (lstrip t)) as (suf & Hl & _).
  intros Hh. apply (lstrip_head t). rewrite Hl.
  destruct (rstrip (lstrip t)); [done|]. done.
Qed.

Lemma strip_last t c : last (strip t) = Some c -> is_space c = false.
Proof.
  unfold strip, rstrip. intros Hl. apply (lstrip_head (rev (lstrip t))).
  rewrite <- Hl. generalize (lstrip (rev (lstrip t))). intros l.
  destruct l as [|d l]; [done|]. simpl. by rewrite last_snoc.
Qed.

Lemma filter_blank (P : N -> bool) t :
  (forall c, P c = true -> is_space c = false) -> Forall blank t ->
  List.filter P t = [].
Proof.
  intros HP Ht. induction Ht as [|c t Hc _ IH]; [done|]. simpl. rewrite IH.
  destruct (P c) eqn:E; [|done]. apply HP in E. unfold blank in Hc. congruence.
Qed.

Lemma filter_strip (P : N -> bool) t :
  (forall c, P c = true -> is_space c = false) ->
  List.filter P (strip t) = List.filter P t.
Proof.
  intros HP. destruct (strip_split t) as (pre & suf & Ht & Hpre & Hsuf).
  rewrite Ht at 2. rewrite !List.filter_app.
  by rewrite (filter_blank P pre), (filter_blank P suf), app_nil_r.
Qed.

Lemma filter_sub_spaces (P : N -> bool) t : forall in_run,
  (forall c, P c = true -> is_space c = false) ->
  List.filter P (sub_spaces in_run t) = List.filter P t.
Proof.
  intros in_run HP. revert in_run.
  assert (P 32%N = false) as H32.
  { destruct (P 32%N) eqn:E; [|done]. by apply HP in E. }
  induction t as [|c t IH]; intros in_run; [done|]. simpl.
  destruct (is_space c) eqn:Hc.
  - assert (P c = false) as ->.
    { destruct (P c) eqn:E; [|done]. apply HP in E. congruence. }
    destruct in_run; simpl; rewrite ?H32; apply IH.
  - simpl. by rewrite IH.
Qed.

Lemma sub_spaces_chars t : forall in_run c,
  c ∈ sub_spaces in_run t -> (c ∈ t \/ c = 32%N) /\ (is_space c = true -> c = 32%N).
Proof.
  induction t as [|d t IH]; intros in_run c; simpl; [by intros ?%not_elem_of_nil|].
  destruct (is_space d) eqn:Hd.
  - destruct in_run.
    + intros [[Hin| ->] Hsp]%IH; (split; [|done]); [left; by right|by right].
    + intros [->|[[Hin| ->] Hsp]%IH]%elem_of_cons; (split; try done);
        [by right|left; by right|by right].
  - intros [->|[[Hin| ->] Hsp]%IH]%elem_of_cons; (split; try done);
      [left; by left|congruence|left; by right|by right].
Qed.

Lemma strip_subset t c : c ∈ strip t -> c ∈ t.
Proof.
  destruct (strip_split t) as (pre & suf & Ht & _). intros Hc. rewrite Ht.
  apply elem_of_app. right. apply elem_of_app. by left.
Qed.

Lemma space_run_free_app t1 t2 :
  space_run_free (t1 ++ t2) = true ->
  space_run_free t1 = true /\ space_run_free t2 = true.
Proof.
  induction t1 as [|c [|d t1] IH]; simpl; [done| |].
  - destruct t2; [done|]. intros [_ ?]%andb_prop. done.
  - intros [Hcd Hrest]%andb_prop. apply IH in Hrest as [H1 H2].
    split; [|done]. simpl in H1. by rewrite Hcd, H1.
Qed.

Lemma sub_spaces_run_free t : forall in_run,
  space_run_free (sub_spaces in_run t) = true
  /\ (in_run = true -> forall c, head (sub_spaces in_run t) = Some c ->
        is_space c = false).
Proof.
  induction t as [|c t IH]; intros in_run; simpl; [done|].
  destruct (is_space c) eqn:Hc.
  - destruct (IH true) as [Hfree Hhead]. destruct in_run; [done|].
    split; [|done]. simpl. destruct (sub_spaces true t) as [|d r] eqn:E; [done|].
    by rewrite Hfree, (Hhead eq_refl d eq_refl).
  - destruct (IH false) as [Hfree _]. split; [|by intros _ ? [= <-]].
    simpl. destruct (sub_spaces false t) as [|d r] eqn:E; [done|].
    by rewrite Hfree, Hc.
Qed.

Lemma filter_all (P : N -> bool) t :
  (forall c, c ∈ t -> P c = true) -> List.filter P t = t.
Proof.
  intros H. apply forallb_filter_id, forallb_forall.
  intros c Hc%list_elem_of_In. by apply H.
Qed.

End CleanerFacts.

(** X1. What the cleaner does guarantee: the output of the empty string is
    empty; every character of the output is on the allow-list, and a
    whitespace character of the output is a plain space; the output
    neither starts nor ends with whitespace; the characters of the output
    that are not whitespace are the allowed ones of the input, in the same
    order and number; and when no character of the input is deleted, no
    two whitespace characters of the output are neighbours. *)
Theorem clean_text_contract (unicode_alnum : N -> bool) (text : pystr) :
  _clean_text unicode_alnum [] = []
  /\ Forall (fun c => kept unicode_alnum c = true
                      /\ (is_space c = true -> c = 32%N))
       (_clean_text unicode_alnum text)
  /\ (forall c, head (_clean_text unicode_alnum text) = Some c -> is_space c = false)
  /\ (forall c, last (_clean_text unicode_alnum text) = Some c -> is_space c = false)
  /\ List.filter (fun c => negb (is_space c)) (_clean_text unicode_alnum text)
     = List.filter (fun c => kept unicode_alnum c && negb (is_space c)) text
  /\ (forallb (kept unicode_alnum) text = true ->
      space_run_free (_clean_text unicode_alnum text) = true).
Proof.
  unfold _clean_text. repeat split.
  - apply Forall_forall. intros c Hc%strip_subset.
    apply list_elem_of_In, filter_In in Hc as [Hc Hk]. split; [done|].
    apply list_elem_of_In, sub_spaces_chars in Hc. tauto.
  - intros c. apply strip_head.
  - intros c. apply strip_last.
  - rewrite filter_strip by (intros c; by destruct (is_space c)).
    rewrite <- (filter_sub_spaces (fun c => kept unicode_alnum c && negb (is_space c))
                 text false) by (intros c [_ ?]%andb_prop; by destruct (is_space c)).
    generalize (sub_spaces false text). intros l.
    induction l as [|c l IH]; [done|]. simpl.
    destruct (kept unicode_alnum c); simpl; [|done].
    destruct (is_space c); simpl; by rewrite IH.
  - intros Hall. rewrite filter_all.
    + destruct (strip_split (sub_spaces false text)) as (pre & suf & Ht & _).
      pose proof (proj1 (sub_spaces_run_free text false)) as Hfree.
      rewrite Ht in Hfree. apply space_run_free_app in Hfree as [_ Hfree].
      by apply space_run_free_app in Hfree as [Hfree _].
    + intros c [[Hc| ->] _]%sub_spaces_chars.
      * apply (proj1 (forallb_forall _ _) Hall). by apply list_elem_of_In.
      * unfold kept. by rewrite orb_true_r.
Qed.

Lemma clean_text_contract_witness :
  forallb (kept (fun _ => false)) (py "  ab" ++ [10%N] ++ py " cd ") = true
  /\ space_run_free (_clean_text (fun _ => false) (py "  ab" ++ [10%N] ++ py " cd ")) = true.
Proof.
  assert (forallb (kept (fun _ => false)) (py "  ab" ++ [10%N] ++ py " cd ") = true) as H by (vm_compute; reflexivity).
  split; [exact H|].
  exact (proj2 (proj2 (proj2 (proj2 (proj2
    (clean_text_contract (fun _ => false) (py "  ab" ++ [10%N] ++ py " cd ")))))) H).
Defined.

(** C7 asks for an output in which every run of whitespace is one space.
    The code collapses the runs first (the comment of line 41 reads
    "Remove excessive whitespace") and deletes the characters outside the
    allow-list afterwards, so a deleted character leaves the spaces on its
    two sides next to each other: whatever the Unicode table says,
    ["a ! b"] is cleaned to ["a  b"], with two spaces. *)
Lemma deleted_character_joins_spaces :
  ~ (exists unicode_alnum,
       space_run_free (_clean_text unicode_alnum (py "a ! b")) = true)
  /\ _clean_text (fun _ => false) (py "a ! b") = py "a  b".
Proof.
  split; [|vm_compute; reflexivity].
  intros [unicode_alnum H]. vm_compute in H. discriminate.
Qed.

(** ** The prompt *)

Section PromptFacts.

Implicit Types (s w : pystr) (pieces : list pystr).

Lemma occurs_in_order_app pieces1 pieces2 s1 s2 :
  occurs_in_order pieces1 s1 -> occurs_in_order pieces2 s2 ->
  occurs_in_order (pieces1 ++ pieces2) (s1 ++ s2).
Proof.
  revert s1. induction pieces1 as [|w pieces1 IH]; intros s1 H1 H2; simpl.
  - clear H1. revert s2 H2. induction pieces2 as [|w pieces2 _]; [done|].
    intros s2 (pre & post & -> & Hpost). exists (s1 ++ pre), post.
    by rewrite <- app_assoc.
  - destruct H1 as (pre & post & -> & Hpost). exists pre, (post ++ s2).
    split; [by rewrite <- !app_assoc|by apply IH].
Qed.

Lemma occurs_in_order_one w s1 s2 : occurs_in_order [w] (s1 ++ w ++ s2).
Proof. by exists s1, s2. Qed.

Lemma source_block_fields i chunk :
  has_source_fields chunk = true ->
  exists part, RAGPipeline.source_block i chunk = inr part
    /\ occurs_in_order
         [title_of chunk; arxiv_id_of chunk; RAGPipeline.text chunk] part.
Proof.
  unfold has_source_fields, title_of, arxiv_id_of, RAGPipeline.source_block.
  intros [[title Ht]%bool_decide_eq_true [aid Ha]%bool_decide_eq_true]%andb_prop.
  rewrite Ht, Ha. cbn [bind field default]. eexists. split; [done|].
  cbn [occurs_in_order].
  exists (py "[Source " ++ decimal i ++ py ": "),
    (py " (" ++ aid ++ py ")]" ++ RAGPipeline.nl ++ RAGPipeline.text chunk
     ++ RAGPipeline.nl).
  split; [by rewrite <- !app_assoc|].
  exists (py " ("),
    (py ")]" ++ RAGPipeline.nl ++ RAGPipeline.text chunk ++ RAGPipeline.nl).
  split; [done|].
  exists (py ")]" ++ RAGPipeline.nl), RAGPipeline.nl.
  split; [by rewrite <- !app_assoc|done].
Qed.

Lemma context_parts_fields chunks : forall i,
  forallb has_source_fields chunks = true ->
  exists parts, RAGPipeline.context_parts i chunks = inr parts
    /\ occurs_in_order (chunk_pieces chunks) (join RAGPipeline.separator parts).
Proof.
  induction chunks as [|chunk rest IH]; intros i Hall; [by exists []|].
  cbn [forallb] in Hall. apply andb_prop in Hall as [Hchunk Hrest].
  destruct (source_block_fields i chunk Hchunk) as (part & Hpart & Hocc).
  destruct (IH (S i) Hrest) as (parts & Hparts & Hoccs).
  exists (part :: parts). cbn [RAGPipeline.context_parts bind].
  rewrite Hpart. cbn [bind]. rewrite Hparts. cbn [bind].
  split; [done|].
  destruct rest as [|chunk' rest].
  - cbn [RAGPipeline.context_parts] in Hparts. injection Hparts as <-.
    cbn [chunk_pieces join]. by rewrite app_nil_r.
  - destruct parts as [|part' parts].
    { cbn [RAGPipeline.context_parts bind] in Hparts.
      destruct (RAGPipeline.source_block (S i) chunk'); [done|].
      cbn [bind] in Hparts.
      destruct (RAGPipeline.context_parts (S (S i)) rest); done. }
    cbn [chunk_pieces join] in *.
    apply (occurs_in_order_app [_; _; _] (_ :: _)); [done|].
    apply (occurs_in_order_app [RAGPipeline.separator] _ RAGPipeline.separator);
      [|done].
    by exists [], [].
Qed.

End PromptFacts.

(** C8: for chunks that carry a title and a document id, [build_prompt]
    returns a prompt, and in that prompt the title, the document id and the
    text of every chunk occur verbatim, chunk after chunk in the order of
    the input list, with the separator line between two chunks, and the
    query occurs behind them. A chunk that occurs twice in the list occurs
    twice in the prompt. The result is a function of the two arguments. *)
Theorem build_prompt_fidelity (query : pystr)
    (context_chunks : list RAGPipeline.context_chunk) :
  forallb has_source_fields context_chunks = true ->
  exists prompt,
    RAGPipeline.build_prompt query context_chunks = inr prompt
    /\ occurs_in_order (chunk_pieces context_chunks ++ [query]) prompt.
Proof.
  intros Hall. unfold RAGPipeline.build_prompt.
  destruct (context_parts_fields context_chunks 1%nat Hall) as (parts & -> & Hocc).
  cbn [bind]. eexists. split; [done|].
  apply (occurs_in_order_app [] _ RAGPipeline.prompt_head); [done|].
  apply occurs_in_order_app; [done|].
  rewrite !app_assoc, <- app_assoc. apply occurs_in_order_one.
Qed.

Lemma build_prompt_fidelity_witness :
  forallb has_source_fields [sample_chunk; sample_chunk] = true
  /\ exists prompt,
       RAGPipeline.build_prompt (py "What is spin?") [sample_chunk; sample_chunk]
       = inr prompt
       /\ occurs_in_order
            (chunk_pieces [sample_chunk; sample_chunk] ++ [py "What is spin?"])
            prompt.
Proof.
  assert (forallb has_source_fields [sample_chunk; sample_chunk] = true) as H
    by (vm_compute; reflexivity).
  split; [exact H|].
  exact (build_prompt_fidelity (py "What is spin?") [sample_chunk; sample_chunk] H).
Defined.

(** ** The retrieval adapter *)

Section RetrievalFacts.

Context (results : RAGPipeline.search_results)
  (docs : list pystr) (docs_rest : list (list pystr))
  (metas : list (gmap string pystr)) (metas_rest : list (list (gmap string pystr)))
  (dists : list Q) (dists_rest : list (list Q)).

Hypothesis Hdocs : RAGPipeline.documents results = Some (docs :: docs_rest).
Hypothesis Hmetas : RAGPipeline.metadatas results = Some (metas :: metas_rest).
Hypothesis Hdists : RAGPipeline.distances results = Some (dists :: dists_rest).

Lemma format_results_cons i rest acc :
  RAGPipeline.format_results results (i :: rest) acc =
  match docs !! i, metas !! i, dists !! i with
  | Some doc, Some meta, Some dist =>
      RAGPipeline.format_results results rest
        (acc ++ [RAGPipeline.Build_context_chunk doc meta dist])
  | _, _, _ => inl IndexError
  end.
Proof.
  cbn [RAGPipeline.format_results]. rewrite Hdocs, Hmetas, Hdists.
  cbn [field bind getitem lookup list_lookup]. unfold getitem.
  destruct (docs !! i); [|done]. cbn [bind].
  destruct (metas !! i); [|done]. cbn [bind].
  by destruct (dists !! i).
Qed.

Lemma format_results_app indices1 : forall indices2 acc,
  RAGPipeline.format_results results (indices1 ++ indices2) acc =
  try acc' <- RAGPipeline.format_results results indices1 acc;
  RAGPipeline.format_results results indices2 acc'.
Proof.
  induction indices1 as [|i indices1 IH]; intros indices2 acc; [done|].
  rewrite <- app_comm_cons, !format_results_cons.
  destruct (docs !! i), (metas !! i), (dists !! i); done.
Qed.

Lemma format_results_prefix (n : nat) :
  (n <= length docs)%nat -> (n <= length metas)%nat -> (n <= length dists)%nat ->
  RAGPipeline.format_results results (seq 0 n) []
  = inr (zip3 (take n docs) (take n metas) (take n dists)).
Proof.
  induction n as [|n IH]; intros Hd Hm Hs; [done|].
  rewrite seq_S, format_results_app, IH by lia. cbn [bind plus].
  destruct (lookup_lt_is_Some_2 docs n ltac:(lia)) as [doc Hdoc].
  destruct (lookup_lt_is_Some_2 metas n ltac:(lia)) as [meta Hmeta].
  destruct (lookup_lt_is_Some_2 dists n ltac:(lia)) as [dist Hdist].
  rewrite format_results_cons, Hdoc, Hmeta, Hdist. cbn [RAGPipeline.format_results].
  rewrite (take_S_r docs n doc), (take_S_r metas n meta), (take_S_r dists n dist) by done.
  unfold zip3. f_equal.
  rewrite (zip_with_app pair) by (rewrite !length_take; lia).
  rewrite zip_with_app by (rewrite length_zip_with, !length_take; lia).
  done.
Qed.

Lemma format_results_inl indices : forall acc e,
  RAGPipeline.format_results results indices acc = inl e -> e = IndexError.
Proof.
  induction indices as [|i indices IH]; intros acc e; [done|].
  rewrite format_results_cons.
  destruct (docs !! i), (metas !! i), (dists !! i); try (by intros [= <-]).
  apply IH.
Qed.

Lemma format_results_inr indices : forall acc r i,
  RAGPipeline.format_results results indices acc = inr r -> i ∈ indices ->
  is_Some (metas !! i) /\ is_Some (dists !! i).
Proof.
  induction indices as [|j indices IH]; intros acc r i Hr Hi;
    [by apply not_elem_of_nil in Hi|].
  rewrite format_results_cons in Hr.
  destruct (docs !! j) eqn:Ed, (metas !! j) eqn:Em, (dists !! j) eqn:Es; try done.
  apply elem_of_cons in Hi as [->|Hi]; [by rewrite Em, Es|by eapply IH].
Qed.

End RetrievalFacts.

Lemma retrieve_context_lists (search : pystr -> Z -> RAGPipeline.search_results)
    (query : pystr) (n_results : Z)
    (docs : list pystr) (docs_rest : list (list pystr))
    (metas : list (gmap string pystr)) (metas_rest : list (list (gmap string pystr)))
    (dists : list Q) (dists_rest : list (list Q)) :
  RAGPipeline.documents (search query n_results) = Some (docs :: docs_rest) ->
  RAGPipeline.metadatas (search query n_results) = Some (metas :: metas_rest) ->
  RAGPipeline.distances (search query n_results) = Some (dists :: dists_rest) ->
  ((length metas < length docs)%nat \/ (length dists < length docs)%nat ->
     RAGPipeline.retrieve_context search query n_results = inl IndexError)
  /\ ((length docs <= length metas)%nat -> (length docs <= length dists)%nat ->
        RAGPipeline.retrieve_context search query n_results
        = inr (zip3 docs metas dists))
  /\ (length metas = length docs -> length dists = length docs ->
        exists chunks,
          RAGPipeline.retrieve_context search query n_results = inr chunks
          /\ RAGPipeline.text <$> chunks = docs
          /\ RAGPipeline.metadata <$> chunks = metas
          /\ RAGPipeline.distance <$> chunks = dists).
Proof.
  intros Hdocs Hmetas Hdists.
  assert (RAGPipeline.retrieve_context search query n_results
          = RAGPipeline.format_results (search query n_results)
              (seq 0 (length docs)) []) as Hcall.
  { unfold RAGPipeline.retrieve_context. cbv zeta. by rewrite Hdocs. }
  assert ((length docs <= length metas)%nat -> (length docs <= length dists)%nat ->
          RAGPipeline.retrieve_context search query n_results
          = inr (zip3 docs metas dists)) as Hcut.
  { intros Hm Hs. rewrite Hcall.
    rewrite (format_results_prefix _ _ _ _ _ _ _ Hdocs Hmetas Hdists) by lia.
    rewrite firstn_all. unfold zip3.
    rewrite <- (zip_with_take_r _ docs metas), <- (zip_with_take_r _ _ dists).
    by rewrite length_zip_with, length_take, Nat.min_l by (rewrite ?length_take; lia). }
  split; [|split; [exact Hcut|]].
  - intros Hshort. rewrite Hcall.
    destruct (RAGPipeline.format_results _ _ _) as [e|r] eqn:Hr.
    + f_equal. by eapply format_results_inl.
    + exfalso.
      assert (forall i, (i < length docs)%nat ->
                is_Some (metas !! i) /\ is_Some (dists !! i)) as Hall.
      { intros i Hi. eapply format_results_inr; [done..|].
        apply elem_of_seq. lia. }
      destruct Hshort as [Hshort|Hshort].
      * destruct (Hall (length metas) Hshort) as [[m Hm] _].
        apply lookup_lt_Some in Hm. lia.
      * destruct (Hall (length dists) Hshort) as [_ [d Hd]].
        apply lookup_lt_Some in Hd. lia.
  - intros Hm Hs. exists (zip3 docs metas dists). split; [apply Hcut; lia|].
    clear Hcall Hcut Hdocs Hmetas Hdists. unfold zip3.
    revert metas dists Hm Hs.
    induction docs as [|doc docs' IH]; intros [|meta metas'] [|dist dists'];
      try done.
    intros [= Hm] [= Hs]. destruct (IH metas' dists' Hm Hs) as (H1 & H2 & H3).
    repeat split; simpl; f_equal; assumption.
Qed.

(** C9, as the code has it: the loop runs over the positions of the
    document list and checks nothing. When the metadata list or the
    distance list is shorter than the document list, the call fails with
    [IndexError]. When the document list is the shortest, the result is cut
    to its length without an error. When the three lists have the same
    length, the result has one chunk per position, and its texts, metadata
    and distances are the three lists in the order of the index. A missing
    document field fails with [KeyError]; a missing metadata field fails
    with [KeyError] when there is a document, and goes unnoticed when the
    document list is empty. *)
Theorem retrieve_context_shape (search : pystr -> Z -> RAGPipeline.search_results)
    (query : pystr) (n_results : Z) :
  (forall docs docs_rest metas metas_rest dists dists_rest,
     RAGPipeline.documents (search query n_results) = Some (docs :: docs_rest) ->
     RAGPipeline.metadatas (search query n_results) = Some (metas :: metas_rest) ->
     RAGPipeline.distances (search query n_results) = Some (dists :: dists_rest) ->
     ((length metas < length docs)%nat \/ (length dists < length docs)%nat ->
        RAGPipeline.retrieve_context search query n_results = inl IndexError)
     /\ ((length docs <= length metas)%nat -> (length docs <= length dists)%nat ->
           RAGPipeline.retrieve_context search query n_results
           = inr (zip3 docs metas dists))
     /\ (length metas = length docs -> length dists = length docs ->
           exists chunks,
             RAGPipeline.retrieve_context search query n_results = inr chunks
             /\ RAGPipeline.text <$> chunks = docs
             /\ RAGPipeline.metadata <$> chunks = metas
             /\ RAGPipeline.distance <$> chunks = dists))
  /\ (RAGPipeline.documents (search query n_results) = None ->
        RAGPipeline.retrieve_context search query n_results
        = inl (KeyError "documents"))
  /\ (forall doc docs docs_rest,
        RAGPipeline.documents (search query n_results)
        = Some ((doc :: docs) :: docs_rest) ->
        RAGPipeline.metadatas (search query n_results) = None ->
        RAGPipeline.retrieve_context search query n_results
        = inl (KeyError "metadatas"))
  /\ (forall docs_rest,
        RAGPipeline.documents (search query n_results) = Some ([] :: docs_rest) ->
        RAGPipeline.retrieve_context search query n_results = inr []).
Proof.
  split; [intros; by eapply retrieve_context_lists|].
  unfold RAGPipeline.retrieve_context. cbv zeta. repeat split.
  - by intros ->.
  - intros doc docs docs_rest Hd Hm. rewrite Hd.
    cbn [field bind getitem lookup list_lookup length seq
         RAGPipeline.format_results].
    by rewrite Hd, Hm.
  - intros docs_rest Hd. by rewrite Hd.
Qed.

Lemma retrieve_context_shape_witness :
  RAGPipeline.retrieve_context (fun _ _ => even_results) (py "spin") 3
  = inr (zip3 [py "first"; py "second"] [sample_meta; sample_meta]
           [1 # 10; 2 # 10]%Q).
Proof.
  apply (proj1 (proj2 (proj1 (retrieve_context_shape (fun _ _ => even_results)
    (py "spin") 3) _ [] _ [] _ [] eq_refl eq_refl eq_refl))); simpl; lia.
Defined.

(** C9 fails on the code: an answer with one document, two metadata
    entries and two distances gives a list of one chunk and no error; an
    answer without documents and without the metadata field gives the
    empty list and no error. *)
Lemma retrieve_context_masks_mismatch :
  RAGPipeline.retrieve_context (fun _ _ => lopsided_results) (py "spin") 3
  = inr [RAGPipeline.Build_context_chunk (py "only") sample_meta (1 # 10)]
  /\ RAGPipeline.retrieve_context (fun _ _ => hollow_results) (py "spin") 3
     = inr [].
Proof. split; vm_compute; reflexivity. Qed.

(** ** Further properties of the chunker *)

Section ChunkerMore.

Context (self : DocumentProcessor.t) (text : pystr)
  (metadata : option (gmap string pyval)).

Lemma length_lstrip (t : pystr) : (length (lstrip t) <= length t)%nat.
Proof.
  induction t as [|c t IH]; simpl; [done|]. destruct (is_space c); simpl; lia.
Qed.

Lemma length_strip (t : pystr) : (length (strip t) <= length t)%nat.
Proof.
  unfold strip, rstrip. rewrite length_rev.
  etrans; [apply length_lstrip|]. rewrite length_rev. apply length_lstrip.
Qed.

Lemma strip_blank (t : pystr) : Forall blank t -> strip t = [].
Proof.
  intros Ht. destruct (strip t) as [|c body] eqn:Hs; [done|].
  assert (c ∈ t) as Hc by (apply strip_subset; rewrite Hs; by left).
  rewrite Forall_forall in Ht. specialize (Ht c Hc).
  pose proof (strip_head t c) as Hh. rewrite Hs in Hh. specialize (Hh eq_refl).
  unfold blank in Ht. congruence.
Qed.

Lemma py_slice_subset (t : pystr) (a b : Z) (c : N) : c ∈ py_slice t a b -> c ∈ t.
Proof.
  unfold py_slice. intros Hc%elem_of_take. destruct Hc as (i & Hi & _).
  rewrite lookup_drop in Hi. by eapply list_elem_of_lookup_2.
Qed.

Lemma py_slice_short (t : pystr) (a b : Z) :
  0 <= a <= b -> py_len (py_slice t a b) <= b - a.
Proof.
  intros Hab. unfold py_slice, py_len. rewrite length_take.
  unfold clip_index. destruct (a <? 0) eqn:Ea; [apply Z.ltb_lt in Ea; lia|].
  destruct (b <? 0) eqn:Eb; [apply Z.ltb_lt in Eb; lia|]. lia.
Qed.

Lemma chunk_end_within start :
  0 <= chunk_size self -> 0 <= start < py_len text ->
  chunk_end self text start <= start + chunk_size self + 100.
Proof.
  intros Hc Hs. unfold chunk_end. cbv zeta.
  destruct (_ <? py_len text) eqn:Hlt; [|lia]. apply Z.ltb_lt in Hlt.
  destruct (last _) as [e|] eqn:He; [|lia].
  apply last_Some_elem_of, finditer_ends_bounds in He.
  pose proof (py_slice_short text (Z.max start (start + chunk_size self - 100))
    (start + chunk_size self + 100)). lia.
Qed.

Lemma emitted_blank start :
  Forall blank text -> emitted self text metadata start = [].
Proof.
  intros Hb. unfold emitted. rewrite strip_blank; [done|].
  apply Forall_forall. intros c Hc%py_slice_subset.
  rewrite Forall_forall in Hb. by apply Hb.
Qed.

Lemma chunk_loop_blank fuel : forall start r,
  Forall blank text -> chunk_loop fuel self text metadata start [] = Some r ->
  r = [].
Proof.
  induction fuel as [|fuel IH]; intros start r Hb Hr; [done|].
  rewrite chunk_loop_unfold, emitted_blank in Hr by done.
  destruct (start <? _); [|by injection Hr].
  destruct (chunk_loop fuel _ _ _ _ _) as [r'|] eqn:Hr'; [|done].
  injection Hr as <-. by eapply IH.
Qed.

Lemma chunk_loop_shares fuel : forall start r,
  advancing self -> keeps_core metadata -> 0 <= start ->
  chunk_loop fuel self text metadata start [] = Some r ->
  StronglySorted (shares_at_most (chunk_overlap self)) r.
Proof.
  induction fuel as [|fuel IH]; intros start r Hadv Hk Hs Hr; [done|].
  rewrite chunk_loop_unfold in Hr.
  destruct (start <? _) eqn:Hlt; [|injection Hr as <-; constructor].
  destruct (chunk_loop fuel _ _ _ _ _) as [r'|] eqn:Hr'; [|done].
  injection Hr as <-. pose proof (next_advances self text start Hadv Hs) as Hn.
  assert (0 <= chunk_end self text start - chunk_overlap self) as Hs'
    by (destruct Hadv; lia).
  pose proof (IH _ _ Hadv Hk Hs' Hr') as Hsorted.
  pose proof (chunk_loop_from _ _ _ _ _ _ Hadv Hk Hs' Hr') as Hfrom.
  pose proof (emitted_fields self text metadata start) as Hf.
  unfold emitted in *. destruct (strip _) as [|c ct]; [done|].
  simpl. constructor; [done|].
  destruct (Hf _ Hk ltac:(apply list_elem_of_singleton; done)) as (Hoff & _).
  eapply Forall_impl; [exact Hfrom|]. intros chunk (s & e & Hce & Hle & Hre).
  exists start, (chunk_end self text start), s, e. repeat split; try done. lia.
Qed.

End ChunkerMore.

(** X3: in an advancing configuration, with metadata that leaves the core
    keys alone, the [text] of every chunk is a string that is not empty
    and neither starts nor ends with whitespace. *)
Theorem chunk_text_trimmed (self : DocumentProcessor.t) (text : pystr)
    (metadata : option (gmap string pyval)) :
  advancing self -> keeps_core metadata ->
  exists chunks,
    (forall fuel, (Z.to_nat (py_len text) < fuel)%nat ->
       chunk_text fuel self text metadata = Some chunks)
    /\ Forall (fun chunk => exists body,
         chunk_body chunk = Some body /\ trimmed body) chunks.
Proof.
  intros Hadv Hk.
  destruct (chunk_text_total self text metadata Hadv) as [chunks Hc].
  exists chunks. split; [done|].
  specialize (Hc (S (Z.to_nat (py_len text))) ltac:(lia)).
  revert Hc. apply (chunk_loop_Forall _ _ _ _ (fun _ => True)); [done| |done|done].
  intros s _ _. apply Forall_forall. intros chunk Hin.
  apply emitted_fields in Hin as (_ & Htext & Hne); [|done].
  eexists. unfold chunk_body. rewrite Htext. split; [done|].
  split; [done|]. split; intros c; [apply strip_head|apply strip_last].
Qed.

Lemma chunk_text_trimmed_witness :
  exists chunks,
    (forall fuel, (Z.to_nat (py_len scenario_text) < fuel)%nat ->
       chunk_text fuel (Build 1000 200) scenario_text None = Some chunks)
    /\ Forall (fun chunk => exists body,
         chunk_body chunk = Some body /\ trimmed body) chunks.
Proof.
  apply (chunk_text_trimmed (Build 1000 200) scenario_text None).
  - vm_compute. split; [discriminate|reflexivity].
  - exact I.
Defined.

(** X4: in an advancing configuration no chunk spans more than
    [chunk_size + 100] characters, and its text is not longer than its
    span. *)
Theorem chunk_span_bounded (self : DocumentProcessor.t) (text : pystr)
    (metadata : option (gmap string pyval)) :
  advancing self -> keeps_core metadata ->
  exists chunks,
    (forall fuel, (Z.to_nat (py_len text) < fuel)%nat ->
       chunk_text fuel self text metadata = Some chunks)
    /\ Forall (fun chunk => exists s e body,
         chunk_offsets chunk = Some (s, e) /\ chunk_body chunk = Some body
         /\ py_len body <= e - s <= chunk_size self + 100) chunks.
Proof.
  intros Hadv Hk.
  destruct (chunk_text_total self text metadata Hadv) as [chunks Hc].
  exists chunks. split; [done|].
  specialize (Hc (S (Z.to_nat (py_len text))) ltac:(lia)).
  revert Hc. apply (chunk_loop_Forall _ _ _ _ (fun s => 0 <= s)); [| |lia|done].
  - intros s Hs Hlt. cbv beta.
    pose proof (next_advances self text s Hadv Hs). destruct Hadv. lia.
  - intros s Hs Hlt. cbv beta in Hs. apply Forall_forall. intros chunk Hin.
    apply emitted_fields in Hin as (Hoff & Htext & _); [|done].
    exists s, (chunk_end self text s), (strip (py_slice text s (chunk_end self text s))).
    unfold chunk_body. rewrite Htext. repeat split; try done.
    + pose proof (chunk_end_reach self text s Hs).
      destruct Hadv as [Ho Hpos]. unfold min_advance in Hpos.
      pose proof (py_slice_short text s (chunk_end self text s) ltac:(lia)).
      pose proof (length_strip (py_slice text s (chunk_end self text s))).
      unfold py_len in *. lia.
    + destruct Hadv as [Ho Hpos]. unfold min_advance, min_reach in Hpos.
      pose proof (chunk_end_within self text s ltac:(lia) ltac:(lia)). lia.
Qed.

Lemma chunk_span_bounded_witness :
  exists chunks,
    (forall fuel, (Z.to_nat (py_len paced_text) < fuel)%nat ->
       chunk_text fuel (Build 300 0) paced_text None = Some chunks)
    /\ Forall (fun chunk => exists s e body,
         chunk_offsets chunk = Some (s, e) /\ chunk_body chunk = Some body
         /\ py_len body <= e - s <= 300 + 100) chunks.
Proof.
  apply (chunk_span_bounded (Build 300 0) paced_text None).
  - vm_compute. split; [discriminate|reflexivity].
  - exact I.
Defined.

(** X5: in an advancing configuration a later chunk starts at most
    [chunk_overlap] characters before the end of any earlier chunk: two
    chunks never share more than the configured overlap. *)
Theorem chunk_overlap_bounded (self : DocumentProcessor.t) (text : pystr)
    (metadata : option (gmap string pyval)) :
  advancing self -> keeps_core metadata ->
  exists chunks,
    (forall fuel, (Z.to_nat (py_len text) < fuel)%nat ->
       chunk_text fuel self text metadata = Some chunks)
    /\ StronglySorted (shares_at_most (chunk_overlap self)) chunks.
Proof.
  intros Hadv Hk.
  destruct (chunk_text_total self text metadata Hadv) as [chunks Hc].
  exists chunks. split; [done|].
  specialize (Hc (S (Z.to_nat (py_len text))) ltac:(lia)).
  by eapply (chunk_loop_shares self text metadata _ 0).
Qed.

Lemma chunk_overlap_bounded_witness :
  exists chunks,
    (forall fuel, (Z.to_nat (py_len scenario_text) < fuel)%nat ->
       chunk_text fuel (Build 1000 200) scenario_text None = Some chunks)
    /\ StronglySorted (shares_at_most 200) chunks.
Proof.
  apply (chunk_overlap_bounded (Build 1000 200) scenario_text None).
  - vm_compute. split; [discriminate|reflexivity].
  - exact I.
Defined.

(** X6: in an advancing configuration a text that holds nothing but
    whitespace, the empty text among them, gives no chunk. *)
Theorem blank_text_no_chunks (self : DocumentProcessor.t) (text : pystr)
    (metadata : option (gmap string pyval)) (fuel : nat) :
  advancing self -> Forall blank text ->
  (Z.to_nat (py_len text) < fuel)%nat ->
  chunk_text fuel self text metadata = Some [].
Proof.
  intros Hadv Hb Hfuel.
  destruct (chunk_text_total self text metadata Hadv) as [chunks Hc].
  rewrite (Hc fuel Hfuel). f_equal.
  by eapply (chunk_loop_blank self text metadata), Hc.
Qed.

Lemma blank_text_no_chunks_witness :
  chunk_text 5 (Build 2 0) (py "   ") (Some {[ "title"%string := VStr (py "T") ]})
  = Some [].
Proof.
  apply blank_text_no_chunks.
  - vm_compute. split; [discriminate|reflexivity].
  - repeat constructor.
  - vm_compute. lia.
Defined.

(** ** Extraction and batch processing *)

Section IngestionFacts.

Context (unicode_alnum : N -> bool) (read_pages : pyval -> option (list pystr)).

Local Abbreviation extract := (extract_text_from_pdf unicode_alnum read_pages).
Local Abbreviation process fuel self papers acc :=
  (process_loop unicode_alnum read_pages fuel self papers acc).

Lemma clean_text_ends (t : pystr) (c : N) :
  (head (_clean_text unicode_alnum t) = Some c -> is_space c = false)
  /\ (last (_clean_text unicode_alnum t) = Some c -> is_space c = false).
Proof. unfold _clean_text. split; [apply strip_head|apply strip_last]. Qed.

Lemma clean_text_chars (t : pystr) (c : N) :
  c ∈ _clean_text unicode_alnum t ->
  kept unicode_alnum c = true /\ (is_space c = true -> c = 32%N).
Proof.
  unfold _clean_text. intros Hc%strip_subset.
  apply list_elem_of_In, filter_In in Hc as [Hc Hk]. split; [done|].
  apply list_elem_of_In, sub_spaces_chars in Hc. tauto.
Qed.

Lemma clean_text_content (t : pystr) :
  List.filter (fun c => negb (is_space c)) (_clean_text unicode_alnum t)
  = List.filter (fun c => kept unicode_alnum c && negb (is_space c)) t.
Proof.
  unfold _clean_text.
  rewrite filter_strip by (intros c; by destruct (is_space c)).
  rewrite <- (filter_sub_spaces (fun c => kept unicode_alnum c && negb (is_space c))
               t false) by (intros c [_ ?]%andb_prop; by destruct (is_space c)).
  generalize (sub_spaces false t). intros l.
  induction l as [|c l IH]; [done|]. simpl.
  destruct (kept unicode_alnum c); simpl; [|done].
  destruct (is_space c); simpl; by rewrite IH.
Qed.

Lemma page_text_content (P : N -> bool) (pages : list pystr) : forall text,
  P 10%N = false ->
  List.filter P (page_text text pages)
  = List.filter P text ++ List.filter P (concat pages).
Proof.
  induction pages as [|page pages IH]; intros text H10; simpl.
  - by rewrite app_nil_r.
  - rewrite IH, !List.filter_app by done. simpl. rewrite H10.
    by rewrite app_nil_r, app_assoc.
Qed.

Lemma chunk_metadata_keys (paper md : gmap string pyval) :
  chunk_metadata paper = inr md ->
  keeps_core (Some md) /\ dict_truthy md = true
  /\ Forall (fun key => md !! key = paper !! key /\ is_Some (md !! key))
       ["arxiv_id"; "title"; "authors"; "published"; "categories"]%string.
Proof.
  unfold chunk_metadata, field, bind.
  destruct (paper !! "arxiv_id"%string) as [v1|] eqn:H1; [|done].
  destruct (paper !! "title"%string) as [v2|] eqn:H2; [|done].
  destruct (paper !! "authors"%string) as [v3|] eqn:H3; [|done].
  destruct (paper !! "published"%string) as [v4|] eqn:H4; [|done].
  destruct (paper !! "categories"%string) as [v5|] eqn:H5; [|done].
  intros [= <-]. split; [done|]. split; [done|].
  repeat constructor; rewrite ?H1, ?H2, ?H3, ?H4, ?H5; by eexists.
Qed.

Lemma chunk_metadata_complete (paper : gmap string pyval) :
  complete_paper paper = true -> exists md, chunk_metadata paper = inr md.
Proof.
  unfold complete_paper. cbn [forallb]. rewrite !andb_true_iff.
  intros ([v1 H1]%bool_decide_eq_true & [v2 H2]%bool_decide_eq_true
          & [v3 H3]%bool_decide_eq_true & [v4 H4]%bool_decide_eq_true
          & [v5 H5]%bool_decide_eq_true & [v6 H6]%bool_decide_eq_true & _).
  unfold chunk_metadata. rewrite H3, H1, H4, H5, H6. cbn [field bind]. by eexists.
Qed.

Lemma process_loop_acc fuel self papers : forall acc,
  process fuel self papers acc =
  match process fuel self papers [] with
  | Some (inr chunks) => Some (inr (acc ++ chunks))
  | other => other
  end.
Proof.
  induction papers as [|paper rest IH]; intros acc; simpl.
  - by rewrite app_nil_r.
  - destruct (field "title" _); [done|].
    destruct (field "pdf_path" _) as [|path]; [done|].
    destruct (extract path); [apply IH|].
    destruct (chunk_metadata paper) as [|md]; [done|].
    destruct (chunk_text fuel self _ (Some md)) as [chunks|]; [|done].
    rewrite (IH (acc ++ chunks)), (IH chunks).
    destruct (process fuel self rest []) as [[e|r]|]; try done.
    by rewrite app_assoc.
Qed.

Lemma process_loop_app fuel self papers1 : forall papers2,
  process fuel self (papers1 ++ papers2) [] =
  match process fuel self papers1 [] with
  | Some (inr chunks) => process fuel self papers2 chunks
  | other => other
  end.
Proof.
  induction papers1 as [|paper rest IH]; intros papers2; [done|].
  rewrite <- app_comm_cons. simpl.
  destruct (field "title" _); [done|].
  destruct (field "pdf_path" _) as [|path]; [done|].
  destruct (extract path); [apply IH|].
  destruct (chunk_metadata paper) as [|md]; [done|].
  destruct (chunk_text fuel self _ (Some md)) as [chunks|]; [|done].
  rewrite (process_loop_acc fuel self (rest ++ papers2) chunks), IH.
  rewrite (process_loop_acc fuel self rest chunks).
  destruct (process fuel self rest []) as [[e|r]|]; try done.
  rewrite (process_loop_acc _ _ papers2 (chunks ++ r)).
  rewrite (process_loop_acc _ _ papers2 r).
  destruct (process fuel self papers2 []) as [[e|r2]|]; try done.
  by rewrite app_assoc.
Qed.

End IngestionFacts.

(** X2: [extract_text_from_pdf] never raises. For a file that cannot be
    read the result is the empty string; otherwise the result neither
    starts nor ends with whitespace, its only whitespace character is the
    plain space (no page break or newline is left), every character is on
    the allow-list, and its characters other than whitespace are the
    allowed ones of the pages, in page order. *)
Theorem extract_text_is_clean (unicode_alnum : N -> bool)
    (read_pages : pyval -> option (list pystr)) (pdf_path : pyval) :
  (read_pages pdf_path = None ->
     extract_text_from_pdf unicode_alnum read_pages pdf_path = [])
  /\ (forall c, head (extract_text_from_pdf unicode_alnum read_pages pdf_path)
               = Some c -> is_space c = false)
  /\ (forall c, last (extract_text_from_pdf unicode_alnum read_pages pdf_path)
               = Some c -> is_space c = false)
  /\ Forall (fun c => kept unicode_alnum c = true
                      /\ (is_space c = true -> c = 32%N))
       (extract_text_from_pdf unicode_alnum read_pages pdf_path)
  /\ (forall pages, read_pages pdf_path = Some pages ->
        List.filter (fun c => negb (is_space c))
          (extract_text_from_pdf unicode_alnum read_pages pdf_path)
        = List.filter (fun c => kept unicode_alnum c && negb (is_space c))
            (concat pages)).
Proof.
  unfold extract_text_from_pdf.
  destruct (read_pages pdf_path) as [pages|]; repeat split; try done.
  - intros c. apply clean_text_ends.
  - intros c. apply clean_text_ends.
  - apply Forall_forall. intros c. apply clean_text_chars.
  - intros ? [= <-]. rewrite clean_text_content.
    by rewrite page_text_content by (by rewrite andb_false_r).
Qed.

Section BatchFacts.

Context (unicode_alnum : N -> bool) (read_pages : pyval -> option (list pystr)).

Local Abbreviation extract := (extract_text_from_pdf unicode_alnum read_pages).
Local Abbreviation process fuel self papers acc :=
  (process_loop unicode_alnum read_pages fuel self papers acc).

Lemma emitted_provenance (self : DocumentProcessor.t) (text : pystr)
    (paper md : gmap string pyval) (start : Z) (chunk : gmap string pyval) :
  chunk_metadata paper = inr md ->
  chunk ∈ emitted self text (Some md) start ->
  same_provenance chunk paper
  /\ exists s e, chunk_offsets chunk = Some (s, e)
       /\ chunk_body chunk = Some (strip (py_slice text s e)).
Proof.
  intros Hmd Hin. destruct (chunk_metadata_keys _ _ Hmd) as (Hk & Htruthy & Hkeys).
  split.
  - unfold emitted in Hin. destruct (strip _) as [|c body];
      [by apply not_elem_of_nil in Hin|].
    apply list_elem_of_singleton in Hin as ->.
    unfold same_provenance, make_chunk, dict_update. rewrite Htruthy.
    eapply Forall_impl; [exact Hkeys|]. intros key [Hkey Hsome]. cbv beta.
    rewrite <- Hkey. by apply lookup_union_l'.
  - apply emitted_fields in Hin as (Hoff & Htext & _); [|done].
    exists start, (chunk_end self text start). split; [done|].
    unfold chunk_body. by rewrite Htext.
Qed.

Lemma process_loop_provenance fuel self papers : forall chunks,
  process fuel self papers [] = Some (inr chunks) ->
  Forall (fun chunk => exists paper pdf_path,
    paper ∈ papers /\ paper !! "pdf_path"%string = Some pdf_path
    /\ same_provenance chunk paper
    /\ exists s e, chunk_offsets chunk = Some (s, e)
         /\ chunk_body chunk = Some (strip (py_slice (extract pdf_path) s e)))
    chunks.
Proof.
  induction papers as [|paper rest IH]; intros chunks Hr.
  - injection Hr as <-. constructor.
  - assert (forall l, Forall (fun chunk => exists paper0 pdf_path,
        paper0 ∈ rest /\ paper0 !! "pdf_path"%string = Some pdf_path
        /\ same_provenance chunk paper0
        /\ exists s e, chunk_offsets chunk = Some (s, e)
             /\ chunk_body chunk = Some (strip (py_slice (extract pdf_path) s e))) l ->
      Forall (fun chunk => exists paper0 pdf_path,
        paper0 ∈ paper :: rest /\ paper0 !! "pdf_path"%string = Some pdf_path
        /\ same_provenance chunk paper0
        /\ exists s e, chunk_offsets chunk = Some (s, e)
             /\ chunk_body chunk = Some (strip (py_slice (extract pdf_path) s e))) l)
      as Hweaken.
    { intros l Hl. eapply Forall_impl; [exact Hl|].
      intros chunk (p0 & path0 & Hin & Hrest).
      exists p0, path0. split; [by right|done]. }
    simpl in Hr. unfold field in Hr.
    destruct (paper !! "title"%string); [|done].
    destruct (paper !! "pdf_path"%string) as [path|] eqn:Hpath; [|done].
    destruct (extract path) as [|c text] eqn:Htext; [by apply Hweaken, IH|].
    destruct (chunk_metadata paper) as [|md] eqn:Hmd; [done|].
    destruct (chunk_text fuel self (c :: text) (Some md)) as [own|] eqn:Hown; [|done].
    rewrite process_loop_acc in Hr.
    destruct (process fuel self rest []) as [[e|r]|] eqn:Hrest; try done.
    injection Hr as <-. apply Forall_app. split; [|by apply Hweaken, IH].
    revert Hown.
    apply (chunk_loop_Forall _ _ _ _ (fun _ => True)); [done| |done|done].
    intros s _ _. apply Forall_forall. intros chunk Hin.
    exists paper, path. split; [by left|]. split; [done|].
    rewrite Htext. by eapply emitted_provenance.
Qed.

Lemma process_loop_returns fuel self papers :
  advancing self -> forallb complete_paper papers = true ->
  Forall (fun paper => forall pdf_path,
    paper !! "pdf_path"%string = Some pdf_path ->
    (Z.to_nat (py_len (extract pdf_path)) < fuel)%nat) papers ->
  exists chunks, process fuel self papers [] = Some (inr chunks).
Proof.
  intros Hadv. induction papers as [|paper rest IH]; intros Hall Hfuel;
    [by eexists|].
  cbn [forallb] in Hall. apply andb_prop in Hall as [Hpaper Hall].
  apply Forall_cons in Hfuel as [Hf Hfuel].
  destruct (IH Hall Hfuel) as [r Hr].
  destruct (chunk_metadata_complete paper Hpaper) as [md Hmd].
  unfold complete_paper in Hpaper. cbn [forallb] in Hpaper.
  rewrite !andb_true_iff in Hpaper.
  destruct Hpaper as ([v1 H1]%bool_decide_eq_true & [path H2]%bool_decide_eq_true & _).
  simpl. rewrite H1, H2. cbn [field].
  destruct (extract path) as [|c text] eqn:Htext; [by eexists|].
  rewrite Hmd.
  destruct (chunk_text_total self (c :: text) (Some md) Hadv) as [own Hown].
  specialize (Hf path H2). rewrite Htext in Hf. rewrite (Hown fuel Hf).
  rewrite process_loop_acc, Hr. by eexists.
Qed.

End BatchFacts.

(** X7: in an advancing configuration, on paper records that all carry
    the six keys read by the loop, and with enough fuel for the longest
    extracted text, the loop of [process_papers] ends with a list: it
    neither raises [KeyError] nor hangs, whatever the files hold. *)
Theorem process_papers_returns (unicode_alnum : N -> bool)
    (read_pages : pyval -> option (list pystr)) (fuel : nat)
    (self : DocumentProcessor.t) (papers : list (gmap string pyval)) :
  advancing self ->
  forallb complete_paper papers = true ->
  Forall (fun paper => forall pdf_path,
    paper !! "pdf_path"%string = Some pdf_path ->
    (Z.to_nat (py_len (extract_text_from_pdf unicode_alnum read_pages pdf_path))
     < fuel)%nat) papers ->
  exists chunks,
    process_papers unicode_alnum read_pages fuel self papers = Some (inr chunks).
Proof. apply process_loop_returns. Qed.

Lemma process_papers_returns_witness :
  exists chunks,
    process_papers (fun _ => false) sample_reader 100 (Build 20 1)
      [sample_paper; sample_paper] = Some (inr chunks).
Proof.
  apply process_papers_returns.
  - vm_compute. split; [discriminate|reflexivity].
  - vm_compute. reflexivity.
  - apply Forall_cons; split; [|apply Forall_cons; split; [|constructor]];
      intros pdf_path H; vm_compute in H; injection H as <-; vm_compute; lia.
Defined.

(** X8: every chunk that [process_papers] returns belongs to one paper
    of the batch: it has that paper's [arxiv_id], [title], [authors],
    [published] and [categories], and its [text] is the trimmed slice of
    the text extracted from that paper's file between the chunk's own
    [start_char] and [end_char]. *)
Theorem process_papers_provenance (unicode_alnum : N -> bool)
    (read_pages : pyval -> option (list pystr)) (fuel : nat)
    (self : DocumentProcessor.t) (papers : list (gmap string pyval))
    (chunks : list (gmap string pyval)) :
  process_papers unicode_alnum read_pages fuel self papers = Some (inr chunks) ->
  Forall (fun chunk => exists paper pdf_path,
    paper ∈ papers /\ paper !! "pdf_path"%string = Some pdf_path
    /\ same_provenance chunk paper
    /\ exists s e, chunk_offsets chunk = Some (s, e)
         /\ chunk_body chunk
            = Some (strip (py_slice
                (extract_text_from_pdf unicode_alnum read_pages pdf_path) s e)))
    chunks.
Proof. apply process_loop_provenance. Qed.

Lemma process_papers_provenance_witness :
  exists chunks,
    process_papers (fun _ => false) sample_reader 100 (Build 20 1) [sample_paper]
    = Some (inr chunks)
    /\ (2 <= length chunks)%nat
    /\ Forall (fun chunk => exists paper pdf_path,
         paper ∈ [sample_paper] /\ paper !! "pdf_path"%string = Some pdf_path
         /\ same_provenance chunk paper
         /\ exists s e, chunk_offsets chunk = Some (s, e)
              /\ chunk_body chunk
                 = Some (strip (py_slice
                     (extract_text_from_pdf (fun _ => false) sample_reader pdf_path)
                     s e)))
         chunks.
Proof.
  destruct (process_loop_returns (fun _ => false) sample_reader 100 (Build 20 1)
              [sample_paper]) as [chunks H].
  - vm_compute. split; [discriminate|reflexivity].
  - vm_compute. reflexivity.
  - apply Forall_cons; split; [|constructor].
    intros pdf_path Hp; vm_compute in Hp; injection Hp as <-; vm_compute; lia.
  - exists chunks. split; [exact H|]. split.
    + assert (match process_loop (fun _ => false) sample_reader 100 (Build 20 1)
                      [sample_paper] [] with
              | Some (inr found) => length found
              | _ => 0%nat
              end = 2%nat) as Hlen by (vm_compute; reflexivity).
      rewrite H in Hlen. lia.
    + exact (process_papers_provenance (fun _ => false) sample_reader 100
               (Build 20 1) [sample_paper] chunks H).
Defined.

(** X9: batches compose. When two batches are processed without error,
    processing them as one batch gives the chunks of the first followed by
    those of the second; when the first batch raises, so does the joint
    batch, with the same exception, and no chunk is returned. A paper
    whose file cannot be read is skipped, even when it lacks the metadata
    keys; a paper without a title raises [KeyError] before its file is
    opened. *)
Theorem process_papers_batches (unicode_alnum : N -> bool)
    (read_pages : pyval -> option (list pystr)) (fuel : nat)
    (self : DocumentProcessor.t) :
  (forall papers1 papers2 chunks1 chunks2,
     process_papers unicode_alnum read_pages fuel self papers1
     = Some (inr chunks1) ->
     process_papers unicode_alnum read_pages fuel self papers2
     = Some (inr chunks2) ->
     process_papers unicode_alnum read_pages fuel self (papers1 ++ papers2)
     = Some (inr (chunks1 ++ chunks2)))
  /\ (forall papers1 papers2 e,
        process_papers unicode_alnum read_pages fuel self papers1
        = Some (inl e) ->
        process_papers unicode_alnum read_pages fuel self (papers1 ++ papers2)
        = Some (inl e))
  /\ (forall paper rest title pdf_path,
        paper !! "title"%string = Some title ->
        paper !! "pdf_path"%string = Some pdf_path ->
        read_pages pdf_path = None ->
        process_papers unicode_alnum read_pages fuel self (paper :: rest)
        = process_papers unicode_alnum read_pages fuel self rest)
  /\ (forall paper rest,
        paper !! "title"%string = None ->
        process_papers unicode_alnum read_pages fuel self (paper :: rest)
        = Some (inl (KeyError "title"))).
Proof.
  unfold process_papers. repeat split.
  - intros papers1 papers2 chunks1 chunks2 H1 H2.
    by rewrite process_loop_app, H1, process_loop_acc, H2.
  - intros papers1 papers2 e H1. by rewrite process_loop_app, H1.
  - intros paper rest title pdf_path Ht Hp Hread. simpl.
    rewrite Ht, Hp. cbn [field]. unfold extract_text_from_pdf. by rewrite Hread.
  - intros paper rest Ht. simpl. by rewrite Ht.
Qed.

Lemma process_papers_batches_witness :
  process_papers (fun _ => false) sample_reader 100 (Build 20 1)
    ([untitled_paper] ++ [sample_paper])
  = Some (inl (KeyError "title")).
Proof.
  apply (proj1 (proj2 (process_papers_batches (fun _ => false) sample_reader 100
                         (Build 20 1)))).
  vm_compute. reflexivity.
Defined.

(** ** The vector store *)

Section StoreFacts.

Lemma py_inj (s1 s2 : string) : py s1 = py s2 -> s1 = s2.
Proof.
  unfold py. intros H.
  apply (f_equal (List.map ascii_of_N)) in H. rewrite !List.map_map in H.
  rewrite !(List.map_ext _ (fun a => a) ascii_N_embedding), !List.map_id in H.
  apply (f_equal string_of_list_ascii) in H.
  by rewrite !string_of_list_ascii_of_string in H.
Qed.

Lemma to_uint_nonnil (n : nat) : Nat.to_uint n <> Decimal.Nil.
Proof.
  pose proof (Unsigned.to_of (Nat.to_uint n)) as H.
  rewrite Unsigned.of_to in H. rewrite H. apply unorm_nonnil.
Qed.

Lemma decimal_inj (i j : nat) : decimal i = decimal j -> i = j.
Proof.
  unfold decimal. intros H%py_inj.
  apply (f_equal NilZero.uint_of_string) in H.
  rewrite !NilZero.usu in H by apply to_uint_nonnil.
  injection H as H. by apply Unsigned.to_uint_inj.
Qed.

Lemma chunk_ids_NoDup (n : nat) : NoDup (VectorStore.chunk_ids n).
Proof.
  unfold VectorStore.chunk_ids. apply NoDup_fmap_2_strong; [|apply NoDup_seq].
  intros i j _ _ H. by apply app_inv_head, decimal_inj in H.
Qed.

Lemma chunk_ids_take (n m : nat) :
  (n <= m)%nat -> VectorStore.chunk_ids n = take n (VectorStore.chunk_ids m).
Proof.
  intros Hle. unfold VectorStore.chunk_ids.
  rewrite <- fmap_take, take_seq. by rewrite Nat.min_l.
Qed.

Lemma chunk_texts_inr chunks : forall docs,
  VectorStore.chunk_texts chunks = inr docs ->
  Forall2 (fun chunk doc => chunk !! "text"%string = Some doc) chunks docs.
Proof.
  induction chunks as [|chunk rest IH]; intros docs; simpl.
  - intros [= <-]. constructor.
  - destruct (chunk !! "text"%string) as [doc|] eqn:Hd; [|done].
    destruct (VectorStore.chunk_texts rest) as [|docs']; [done|].
    intros [= <-]. constructor; [done|by apply IH].
Qed.

Lemma chunk_texts_present chunks :
  Forall (fun chunk => is_Some (chunk !! "text"%string)) chunks ->
  exists docs, VectorStore.chunk_texts chunks = inr docs.
Proof.
  induction 1 as [|chunk rest [doc Hd] _ [docs IH]]; [by eexists|].
  simpl. rewrite Hd, IH. by eexists.
Qed.

Lemma chunk_texts_absent chunks :
  Exists (fun chunk => chunk !! "text"%string = None) chunks ->
  VectorStore.chunk_texts chunks = inl (Raised (KeyError "text")).
Proof.
  induction chunks as [|chunk rest IH]; intros Hex; [by apply Exists_nil in Hex|].
  simpl. destruct (chunk !! "text"%string) eqn:Hd; [|done].
  apply Exists_cons in Hex as [Hex|Hex]; [congruence|]. by rewrite IH.
Qed.

Lemma join_value_joinable sep v :
  joinable v = true -> exists joined, VectorStore.join_value sep v = inr joined.
Proof.
  destruct v as [s|z|items]; simpl; [by eexists|done|].
  intros [parts Hp]%bool_decide_eq_true. rewrite Hp. by eexists.
Qed.

Lemma join_value_not_joinable sep v :
  joinable v = false -> VectorStore.join_value sep v = inl TypeError.
Proof.
  destruct v as [s|z|items]; simpl; [done|done|].
  intros H%bool_decide_eq_false. destruct (VectorStore.strings_of items); [|done].
  destruct H. by eexists.
Qed.

Lemma join_value_error sep v e :
  VectorStore.join_value sep v = inl e -> e = TypeError.
Proof.
  destruct v as [s|z|items]; simpl; [done|by intros [= <-]|].
  destruct (VectorStore.strings_of items); [done|by intros [= <-]].
Qed.

Lemma strings_of_strings (names : list pystr) :
  VectorStore.strings_of (VStr <$> names) = Some names.
Proof.
  induction names as [|n names IH]; [done|].
  rewrite fmap_cons. cbn [VectorStore.strings_of]. by rewrite IH.
Qed.

Lemma chunk_metadata_error chunk e :
  VectorStore.chunk_metadata chunk = inl e -> e = TypeError.
Proof.
  unfold VectorStore.chunk_metadata. cbv zeta.
  destruct (VectorStore.join_value _ (VectorStore.get chunk "authors" _))
    as [e1|a] eqn:Ha; cbn [bind_error].
  - intros [= <-]. by eapply join_value_error.
  - destruct (VectorStore.join_value _ (VectorStore.get chunk "categories" _))
      as [e2|c] eqn:Hc; cbn [bind_error]; [|done].
    intros [= <-]. by eapply join_value_error.
Qed.

Lemma chunk_metadata_storable chunk :
  joinable (VectorStore.get chunk "authors" (VList [])) = true ->
  joinable (VectorStore.get chunk "categories" (VList [])) = true ->
  exists md, VectorStore.chunk_metadata chunk = inr md.
Proof.
  intros [a Ha]%(join_value_joinable (py ", "))
         [c Hc]%(join_value_joinable (py ", ")).
  unfold VectorStore.chunk_metadata. cbv zeta. rewrite Ha. cbn [bind_error].
  rewrite Hc. cbn [bind_error]. by eexists.
Qed.

Lemma chunk_metadata_not_storable chunk :
  joinable (VectorStore.get chunk "authors" (VList []))
  && joinable (VectorStore.get chunk "categories" (VList [])) = false ->
  VectorStore.chunk_metadata chunk = inl TypeError.
Proof.
  intros H. unfold VectorStore.chunk_metadata. cbv zeta.
  destruct (joinable (VectorStore.get chunk "authors" (VList []))) eqn:Ja.
  - apply (join_value_joinable (py ", ")) in Ja as [a ->]. cbn [bind_error].
    simpl in H. by rewrite (join_value_not_joinable _ _ H).
  - by rewrite (join_value_not_joinable _ _ Ja).
Qed.

Lemma chunk_metadatas_inr chunks : forall mds,
  VectorStore.chunk_metadatas chunks = inr mds ->
  Forall2 (fun chunk md => VectorStore.chunk_metadata chunk = inr md) chunks mds.
Proof.
  induction chunks as [|chunk rest IH]; intros mds; simpl.
  - intros [= <-]. constructor.
  - destruct (VectorStore.chunk_metadata chunk) as [|md] eqn:Hm; [done|].
    cbn [bind_error].
    destruct (VectorStore.chunk_metadatas rest) as [|mds']; [done|].
    intros [= <-]. constructor; [done|by apply IH].
Qed.

Lemma chunk_metadatas_error chunks e :
  VectorStore.chunk_metadatas chunks = inl e -> e = TypeError.
Proof.
  induction chunks as [|chunk rest IH]; simpl; [done|].
  destruct (VectorStore.chunk_metadata chunk) as [e1|md] eqn:Hm; cbn [bind_error].
  - intros [= <-]. by eapply chunk_metadata_error.
  - destruct (VectorStore.chunk_metadatas rest) as [e2|mds]; [|done].
    cbn [bind_error]. intros [= <-]. by apply IH.
Qed.

Lemma chunk_metadatas_storable chunks :
  forallb storable chunks = true ->
  exists mds, VectorStore.chunk_metadatas chunks = inr mds.
Proof.
  induction chunks as [|chunk rest IH]; [by eexists|].
  cbn [forallb]. intros [Hc Hrest]%andb_prop. destruct (IH Hrest) as [mds Hmds].
  unfold storable in Hc. apply andb_prop in Hc as [[_ Ha]%andb_prop Hcat].
  destruct (chunk_metadata_storable chunk Ha Hcat) as [md Hmd].
  simpl. rewrite Hmd. cbn [bind_error]. rewrite Hmds. by eexists.
Qed.

Lemma add_documents_inr {E} (encode : list pyval -> E) chunks call :
  VectorStore.add_documents encode chunks = inr call ->
  exists docs mds,
    VectorStore.chunk_texts chunks = inr docs
    /\ VectorStore.chunk_metadatas chunks = inr mds
    /\ call = VectorStore.Build_add_call E
                (VectorStore.chunk_ids (length chunks)) (encode docs) docs mds.
Proof.
  unfold VectorStore.add_documents.
  destruct (VectorStore.chunk_texts chunks) as [|docs]; [done|].
  cbn [bind_error]. cbv zeta.
  destruct (VectorStore.chunk_metadatas chunks) as [|mds]; [done|].
  cbn [bind_error]. intros [= <-]. by exists docs, mds.
Qed.

End StoreFacts.

(** X10: when [add_documents] reaches [collection.add], it passes one
    id, one document and one metadata record per chunk, the documents are
    the [text] values of the chunks in order, the embeddings are those of
    the documents, and the ids of the batch are pairwise different. *)
Theorem add_documents_shape {E} (encode : list pyval -> E)
    (chunks : list (gmap string pyval)) (call : VectorStore.add_call E) :
  VectorStore.add_documents encode chunks = inr call ->
  length (VectorStore.ids call) = length chunks
  /\ length (VectorStore.metadatas call) = length chunks
  /\ Forall2 (fun chunk doc => chunk !! "text"%string = Some doc)
       chunks (VectorStore.documents call)
  /\ VectorStore.embeddings call = encode (VectorStore.documents call)
  /\ NoDup (VectorStore.ids call).
Proof.
  intros (docs & mds & Hd & Hm & ->)%add_documents_inr. simpl.
  repeat split.
  - unfold VectorStore.chunk_ids. by rewrite length_fmap, length_seq.
  - apply chunk_metadatas_inr, Forall2_length in Hm. done.
  - by apply chunk_texts_inr.
  - apply chunk_ids_NoDup.
Qed.

Lemma add_documents_shape_witness :
  exists call,
    VectorStore.add_documents (fun docs => length docs)
      [<["text" := VStr (py "a")]> sample_paper;
       <["text" := VStr (py "b")]> sample_paper] = inr call
    /\ NoDup (VectorStore.ids call)
    /\ VectorStore.ids call = [py "chunk_0"; py "chunk_1"].
Proof.
  destruct (VectorStore.add_documents (fun docs => length docs)
      [<["text" := VStr (py "a")]> sample_paper;
       <["text" := VStr (py "b")]> sample_paper]) as [e|call] eqn:H;
    [vm_compute in H; discriminate|].
  exists call. split; [done|]. split.
  - by eapply (add_documents_shape (fun docs => length docs)).
  - vm_compute in H. injection H as <-. reflexivity.
Defined.

(** X11: the ids depend on nothing but the number of chunks. The ids of
    a batch are the first ids of every batch that is at least as long, so
    two batches stored one after the other use the same ids. *)
Theorem add_documents_ids_reused {E} (encode : list pyval -> E)
    (chunks1 chunks2 : list (gmap string pyval))
    (call1 call2 : VectorStore.add_call E) :
  VectorStore.add_documents encode chunks1 = inr call1 ->
  VectorStore.add_documents encode chunks2 = inr call2 ->
  (length chunks1 <= length chunks2)%nat ->
  VectorStore.ids call1 = take (length chunks1) (VectorStore.ids call2)
  /\ forall id, id ∈ VectorStore.ids call1 -> id ∈ VectorStore.ids call2.
Proof.
  intros (docs1 & mds1 & _ & _ & ->)%add_documents_inr
         (docs2 & mds2 & _ & _ & ->)%add_documents_inr Hle. simpl.
  pose proof (chunk_ids_take _ _ Hle) as Htake. split; [done|].
  intros id. rewrite Htake. intros (i & Hi & _)%elem_of_take.
  by eapply list_elem_of_lookup_2.
Qed.

Lemma add_documents_ids_reused_witness :
  exists call1 call2,
    VectorStore.add_documents (fun docs => length docs)
      [<["text" := VStr (py "a")]> sample_paper] = inr call1
    /\ VectorStore.add_documents (fun docs => length docs)
         [<["text" := VStr (py "b")]> ∅; <["text" := VStr (py "c")]> ∅]
       = inr call2
    /\ VectorStore.ids call1 = take 1 (VectorStore.ids call2).
Proof.
  destruct (VectorStore.add_documents (fun docs => length docs)
      [<["text" := VStr (py "a")]> sample_paper]) as [e|call1] eqn:H1;
    [vm_compute in H1; discriminate|].
  destruct (VectorStore.add_documents (fun docs => length docs)
      [<["text" := VStr (py "b")]> ∅; <["text" := VStr (py "c")]> ∅])
    as [e|call2] eqn:H2; [vm_compute in H2; discriminate|].
  exists call1, call2. split; [done|]. split; [done|].
  apply (proj1 (add_documents_ids_reused _ _ _ call1 call2 H1 H2
                  ltac:(simpl; lia))).
Defined.

(** X12: the metadata that [add_documents] stores for a chunk has exactly
    the keys [arxiv_id], [title], [authors], [published] and [categories]:
    the offsets of the chunk are not stored. [arxiv_id], [title] and
    [published] are the values of the chunk, or the empty string when the
    chunk has none; [authors] and [categories] are always strings, and a
    list of names is stored as the names joined by a comma and a space. *)
Theorem add_documents_metadata {E} (encode : list pyval -> E)
    (chunks : list (gmap string pyval)) (call : VectorStore.add_call E) :
  VectorStore.add_documents encode chunks = inr call ->
  Forall2 (fun chunk md =>
    dom md = index_keys
    /\ md !! "arxiv_id"%string = Some (default (VStr []) (chunk !! "arxiv_id"%string))
    /\ md !! "title"%string = Some (default (VStr []) (chunk !! "title"%string))
    /\ md !! "published"%string = Some (default (VStr []) (chunk !! "published"%string))
    /\ (exists joined, md !! "authors"%string = Some (VStr joined))
    /\ (exists joined, md !! "categories"%string = Some (VStr joined))
    /\ (forall names, chunk !! "authors"%string = Some (VList (VStr <$> names)) ->
          md !! "authors"%string = Some (VStr (join (py ", ") names)))
    /\ (forall names, chunk !! "categories"%string = Some (VList (VStr <$> names)) ->
          md !! "categories"%string = Some (VStr (join (py ", ") names))))
    chunks (VectorStore.metadatas call).
Proof.
  intros (docs & mds & _ & Hm & ->)%add_documents_inr. simpl.
  apply chunk_metadatas_inr in Hm. eapply Forall2_impl; [exact Hm|].
  intros chunk md. unfold VectorStore.chunk_metadata, VectorStore.get. cbv zeta.
  destruct (VectorStore.join_value _ (default _ (chunk !! "authors"%string)))
    as [|a] eqn:Ha; [done|]. cbn [bind_error].
  destruct (VectorStore.join_value _ (default _ (chunk !! "categories"%string)))
    as [|c] eqn:Hc; [done|]. cbn [bind_error].
  intros [= <-]. split.
  { rewrite !dom_insert_L, dom_empty_L. unfold index_keys. set_solver. }
  repeat split; try done; try (by eexists).
  - intros names Hn. rewrite Hn in Ha. simpl in Ha.
    rewrite strings_of_strings in Ha. by injection Ha as <-.
  - intros names Hn. rewrite Hn in Hc. simpl in Hc.
    rewrite strings_of_strings in Hc. by injection Hc as <-.
Qed.

Lemma add_documents_metadata_witness :
  exists call,
    VectorStore.add_documents (fun docs => length docs)
      [<["text" := VStr (py "a")]> sample_paper] = inr call
    /\ Forall (fun md =>
         dom md = index_keys
         /\ md !! "authors"%string = Some (VStr (py "A. Bohr, C. Dirac")))
         (VectorStore.metadatas call).
Proof.
  destruct (VectorStore.add_documents (fun docs => length docs)
      [<["text" := VStr (py "a")]> sample_paper]) as [e|call] eqn:H;
    [vm_compute in H; discriminate|].
  exists call. split; [done|].
  pose proof (add_documents_metadata _ _ _ H) as Hmd.
  apply Forall2_Forall_r with (Q := fun md =>
      dom md = index_keys
      /\ md !! "authors"%string = Some (VStr (py "A. Bohr, C. Dirac"))) in Hmd;
    [done|].
  apply Forall_forall. intros chunk ->%list_elem_of_singleton md.
  intros (Hdom & _ & _ & _ & _ & _ & Hauthors & _). split; [done|].
  apply (Hauthors [py "A. Bohr"; py "C. Dirac"]). vm_compute. reflexivity.
Defined.

(** X13: [add_documents] reaches [collection.add] exactly when every
    chunk has a [text] and its [authors] and [categories], when present,
    can be joined (a list of strings, or a string). A chunk without
    [text] makes the whole call raise [KeyError], whatever else is wrong;
    otherwise a value that cannot be joined makes it raise [TypeError]. In
    both cases nothing is stored. *)
Theorem add_documents_outcome {E} (encode : list pyval -> E)
    (chunks : list (gmap string pyval)) :
  (forallb storable chunks = true ->
     exists call, VectorStore.add_documents encode chunks = inr call)
  /\ (Exists (fun chunk => chunk !! "text"%string = None) chunks ->
        VectorStore.add_documents encode chunks = inl (Raised (KeyError "text")))
  /\ (Forall (fun chunk => is_Some (chunk !! "text"%string)) chunks ->
      forallb storable chunks = false ->
        VectorStore.add_documents encode chunks = inl TypeError).
Proof.
  unfold VectorStore.add_documents. repeat split.
  - intros Hall.
    assert (Forall (fun chunk => is_Some (chunk !! "text"%string)) chunks) as Ht.
    { apply Forall_forall. intros chunk Hin%list_elem_of_In.
      apply (proj1 (forallb_forall _ _) Hall) in Hin. unfold storable in Hin.
      apply andb_prop in Hin as [[Hin _]%andb_prop _].
      by apply bool_decide_eq_true in Hin. }
    destruct (chunk_texts_present _ Ht) as [docs ->].
    destruct (chunk_metadatas_storable _ Hall) as [mds ->].
    cbn [bind_error]. by eexists.
  - intros Hex. by rewrite chunk_texts_absent.
  - intros Ht Hnot. destruct (chunk_texts_present _ Ht) as [docs ->].
    cbn [bind_error]. cbv zeta.
    destruct (VectorStore.chunk_metadatas chunks) as [e|mds] eqn:Hm.
    + cbn [bind_error]. f_equal. by eapply chunk_metadatas_error.
    + exfalso. apply chunk_metadatas_inr in Hm.
      assert (forallb storable chunks = true); [|congruence].
      clear Hnot. induction Hm as [|chunk md rest mds Hmd _ IH]; [done|].
      apply Forall_cons in Ht as [Hc Ht]. cbn [forallb]. rewrite (IH Ht).
      rewrite andb_true_r. unfold storable.
      rewrite (bool_decide_eq_true_2 _ Hc). simpl.
      destruct (joinable (VectorStore.get chunk "authors" (VList []))
                && joinable (VectorStore.get chunk "categories" (VList [])))
        eqn:Hj; [done|].
      by rewrite (chunk_metadata_not_storable _ Hj) in Hmd.
Qed.

Lemma add_documents_outcome_witness :
  VectorStore.add_documents (fun docs => length docs)
    [<["text" := VStr (py "a")]> (<["authors" := VInt 7]> ∅)]
  = inl TypeError.
Proof.
  apply (proj2 (proj2 (add_documents_outcome (fun docs => length docs) _))).
  - repeat constructor. vm_compute. by eexists.
  - vm_compute. reflexivity.
Defined.

(** ** The downloader *)

Section DownloaderFacts.

Implicit Types (s id base : pystr) (sep : N).

Lemma split_nonempty sep s : exists part parts,
  ArxivDownloader.split sep s = part :: parts.
Proof.
  induction s as [|c s (part & parts & IH)]; simpl; [by eexists _, _|].
  destruct (c =? sep)%N; [by eexists _, _|]. rewrite IH. by eexists _, _.
Qed.

Lemma split_none sep s : sep ∉ s -> ArxivDownloader.split sep s = [s].
Proof.
  induction s as [|c s IH]; simpl; [done|].
  intros [Hc Hs]%not_elem_of_cons. rewrite (IH Hs).
  destruct (N.eqb_spec c sep); [congruence|done].
Qed.

Lemma split_has sep s : sep ∈ s -> exists p q r,
  ArxivDownloader.split sep s = p :: q :: r.
Proof.
  induction s as [|c s IH]; simpl; [by intros ?%not_elem_of_nil|].
  intros Hin. destruct (N.eqb_spec c sep) as [->|Hne].
  - destruct (split_nonempty sep s) as (q & r & ->). by eexists _, _, _.
  - apply elem_of_cons in Hin as [->|Hin]; [done|].
    destruct (IH Hin) as (p & q & r & ->). by eexists _, _, _.
Qed.

Lemma last_split_app sep base id :
  last (ArxivDownloader.split sep (base ++ sep :: id))
  = last (ArxivDownloader.split sep id).
Proof.
  induction base as [|c base IH]; simpl.
  - rewrite N.eqb_refl. by destruct (split_nonempty sep id) as (q & r & ->).
  - destruct (split_has sep (base ++ sep :: id)) as (p & q & r & Hs);
      [apply elem_of_app; right; by left|].
    rewrite Hs in *. by destruct (c =? sep)%N.
Qed.

Lemma split_parts sep s :
  Forall (fun part => sep ∉ part) (ArxivDownloader.split sep s).
Proof.
  induction s as [|c s IH]; simpl; [repeat constructor; by intros ?%not_elem_of_nil|].
  destruct (N.eqb_spec c sep) as [->|Hne];
    [constructor; [by intros ?%not_elem_of_nil|done]|].
  destruct (ArxivDownloader.split sep s) as [|part parts];
    [repeat constructor; by intros [->|?%not_elem_of_nil]%elem_of_cons|].
  apply Forall_cons in IH as [Hp Hps]. constructor; [|done].
  by intros [->|?]%elem_of_cons.
Qed.

Lemma split_single sep s part : ArxivDownloader.split sep s = [part] -> s = part.
Proof.
  revert part. induction s as [|c s IH]; intros part; simpl; [by intros [= <-]|].
  destruct (split_nonempty sep s) as (p & ps & Hs). rewrite Hs in *.
  destruct (c =? sep)%N; [done|]. intros [= <- ->]. by rewrite (IH p).
Qed.

Lemma split_suffix sep s seg :
  last (ArxivDownloader.split sep s) = Some seg -> exists pre, s = pre ++ seg.
Proof.
  revert seg. induction s as [|c s IH]; intros seg; simpl.
  - intros [= <-]. by exists [].
  - destruct (split_nonempty sep s) as (part & parts & Hs). rewrite Hs in *.
    destruct (c =? sep)%N.
    + intros Hl. destruct (IH seg Hl) as [pre ->]. by exists (c :: pre).
    + destruct parts as [|q r].
      * intros [= <-]. exists []. by rewrite (split_single sep s part Hs).
      * intros Hl. destruct (IH seg Hl) as [pre ->]. by exists (c :: pre).
Qed.

Lemma replace_chars (old new : N) s c :
  c ∈ ArxivDownloader.replace old new s -> c = new \/ (c ∈ s /\ c <> old).
Proof.
  unfold ArxivDownloader.replace. intros (d & -> & Hd)%list_elem_of_fmap.
  destruct (N.eqb_spec d old); [by left|by right].
Qed.

End DownloaderFacts.

Lemma arxiv_id_no_slash (entry_id : pystr) :
  47%N ∉ ArxivDownloader.arxiv_id_of entry_id.
Proof.
  unfold ArxivDownloader.arxiv_id_of.
  destruct (last (ArxivDownloader.split 47 entry_id)) as [seg|] eqn:Hl;
    [|by intros ?%not_elem_of_nil].
  apply last_Some_elem_of in Hl.
  pose proof (split_parts 47 entry_id) as Hp. rewrite Forall_forall in Hp.
  by apply Hp.
Qed.

(** X14: the id of a paper is what follows the last slash of its entry
    id: it holds no slash and the entry id ends with it. So the id of
    [base/id] is [id] whatever [base] is, and two entry ids that differ
    only before the last slash get the same id. *)
Theorem arxiv_id_last_segment :
  (forall entry_id,
     (47%N ∉ ArxivDownloader.arxiv_id_of entry_id)
     /\ exists pre, entry_id = pre ++ ArxivDownloader.arxiv_id_of entry_id)
  /\ (forall base id, 47%N ∉ id ->
        ArxivDownloader.arxiv_id_of (base ++ [47%N] ++ id) = id).
Proof.
  split.
  - intros entry_id. split; [apply arxiv_id_no_slash|].
    unfold ArxivDownloader.arxiv_id_of.
    destruct (last (ArxivDownloader.split 47 entry_id)) as [seg|] eqn:Hl.
    + by eapply split_suffix.
    + destruct (split_nonempty 47 entry_id) as (p & ps & Hs). rewrite Hs in Hl.
      by apply last_None in Hl.
  - intros base id Hid. unfold ArxivDownloader.arxiv_id_of. simpl.
    by rewrite last_split_app, split_none.
Qed.

Lemma arxiv_id_last_segment_witness :
  ArxivDownloader.arxiv_id_of (py "http://arxiv.org/abs/hep-th" ++ [47%N]
                               ++ py "9901001v1") = py "9901001v1"
  /\ ArxivDownloader.arxiv_id_of (py "http://arxiv.org/abs/math" ++ [47%N]
                                  ++ py "9901001v1") = py "9901001v1".
Proof.
  assert (47%N ∉ py "9901001v1") as H.
  { intros Hin. vm_compute in Hin. repeat (apply elem_of_cons in Hin as [Hin|Hin];
      [discriminate|]). by apply not_elem_of_nil in Hin. }
  split; apply (proj2 arxiv_id_last_segment _ _ H).
Defined.

(** X15: the name of the file of a paper is its id with every dot
    replaced by an underscore, followed by [.pdf]: it holds no slash, and
    no dot before the extension, so it names a file directly in the
    output directory. The name does not tell a dot from an underscore: two
    ids that differ only there get the same file. *)
Theorem filename_is_plain (entry_id : pystr) :
  exists stem,
    ArxivDownloader.filename_of (ArxivDownloader.arxiv_id_of entry_id)
    = stem ++ py ".pdf"
    /\ length stem = length (ArxivDownloader.arxiv_id_of entry_id)
    /\ (47%N ∉ stem) /\ (46%N ∉ stem)
    /\ (47%N ∉ ArxivDownloader.filename_of (ArxivDownloader.arxiv_id_of entry_id))
    /\ forall id1 id2,
         ArxivDownloader.filename_of (id1 ++ [46%N] ++ id2)
         = ArxivDownloader.filename_of (id1 ++ [95%N] ++ id2).
Proof.
  exists (ArxivDownloader.replace 46 95 (ArxivDownloader.arxiv_id_of entry_id)).
  pose proof (arxiv_id_no_slash entry_id) as Hfree.
  assert (47%N ∉ ArxivDownloader.replace 46 95
            (ArxivDownloader.arxiv_id_of entry_id)) as H47.
  { intros [?|[? _]]%replace_chars; done. }
  repeat split; try done.
  - unfold ArxivDownloader.replace. by rewrite length_fmap.
  - intros [?|[_ ?]]%replace_chars; done.
  - unfold ArxivDownloader.filename_of. intros [?|Hin]%elem_of_app; [done|].
    vm_compute in Hin. repeat (apply elem_of_cons in Hin as [Hin|Hin];
      [discriminate|]). by apply not_elem_of_nil in Hin.
  - intros id1 id2. unfold ArxivDownloader.filename_of, ArxivDownloader.replace.
    by rewrite !fmap_app.
Qed.

(** ** The download loop and the three steps of [main] *)

Section DownloadLoopFacts.

Context (path_of : pystr -> pystr) (download_pdf : ArxivDownloader.arxiv_result -> bool).

Local Abbreviation loop := (ArxivDownloader.download_loop path_of download_pdf).

Lemma download_loop_acc results : forall files acc,
  loop results files acc = ((loop results files []).1, acc ++ (loop results files []).2).
Proof.
  induction results as [|result rest IH]; intros files acc; simpl.
  - by rewrite app_nil_r.
  - case_bool_decide; [|destruct (download_pdf result)].
    + rewrite (IH files (acc ++ _)), (IH files [_]). simpl. by rewrite <- app_assoc.
    + rewrite (IH _ (acc ++ _)), (IH _ [_]). simpl. by rewrite <- app_assoc.
    + apply IH.
Qed.

Lemma download_loop_files results : forall files,
  files ⊆ (loop results files []).1
  /\ (forall path, path ∈ (loop results files []).1 -> path ∉ files ->
        exists result, result ∈ results /\ download_pdf result = true
          /\ path = file_of path_of result).
Proof.
  induction results as [|result rest IH]; intros files; simpl; [by split|].
  fold (file_of path_of result).
  case_bool_decide as Hin; [|destruct (download_pdf result) eqn:Hd].
  - rewrite download_loop_acc. simpl. destruct (IH files) as [Hsub Hnew].
    split; [done|]. intros path Hp Hnp.
    destruct (Hnew path Hp Hnp) as (r & Hr & Hrest). exists r. split; [by right|done].
  - rewrite download_loop_acc. simpl.
    destruct (IH ({[file_of path_of result]} ∪ files)) as [Hsub Hnew].
    split; [etrans; [apply union_subseteq_r|exact Hsub]|]. intros path Hp Hnp.
    destruct (decide (path = file_of path_of result)) as [->|Hne].
    + exists result. split; [by left|done].
    + destruct (Hnew path Hp) as (r & Hr & Hrest);
        [by intros [?%elem_of_singleton|?]%elem_of_union|].
      exists r. split; [by right|done].
  - destruct (IH files) as [Hsub Hnew]. split; [done|]. intros path Hp Hnp.
    destruct (Hnew path Hp Hnp) as (r & Hr & Hrest). exists r. split; [by right|done].
Qed.

Lemma download_loop_listing results : forall files,
  (loop results files []).2 `sublist_of` (listed path_of <$> results)
  /\ Forall (fun paper => exists result, result ∈ results
       /\ paper = listed path_of result
       /\ file_of path_of result ∈ (loop results files []).1)
       (loop results files []).2
  /\ (forall result, result ∈ results ->
        download_pdf result = true \/ file_of path_of result ∈ files ->
        listed path_of result ∈ (loop results files []).2).
Proof.
  induction results as [|result rest IH]; intros files; simpl.
  { split; [done|]. split; [constructor|]. by intros ? ?%not_elem_of_nil. }
  fold (file_of path_of result). fold (listed path_of result).
  case_bool_decide as Hin; [|destruct (download_pdf result) eqn:Hd].
  - rewrite download_loop_acc. simpl. destruct (IH files) as (Hsub & Hall & Hin').
    split; [by apply sublist_skip|]. split.
    + constructor.
      * exists result. split; [by left|]. split; [done|].
        by apply (proj1 (download_loop_files rest files)).
      * eapply Forall_impl; [exact Hall|]. intros paper (r & Hr & Hp & Hf).
        exists r. split; [by right|done].
    + intros r [->|Hr]%elem_of_cons Hor; [by left|]. right. by apply Hin'.
  - rewrite download_loop_acc. simpl.
    destruct (IH ({[file_of path_of result]} ∪ files)) as (Hsub & Hall & Hin').
    split; [by apply sublist_skip|]. split.
    + constructor.
      * exists result. split; [by left|]. split; [done|].
        apply (proj1 (download_loop_files rest _)).
        by apply elem_of_union_l, elem_of_singleton.
      * eapply Forall_impl; [exact Hall|]. intros paper (r & Hr & Hp & Hf).
        exists r. split; [by right|done].
    + intros r [->|Hr]%elem_of_cons Hor; [by left|]. right. apply Hin'; [done|].
      destruct Hor; [by left|right; by apply elem_of_union_r].
  - destruct (IH files) as (Hsub & Hall & Hin').
    split; [by apply sublist_cons|]. split.
    + eapply Forall_impl; [exact Hall|]. intros paper (r & Hr & Hp & Hf).
      exists r. split; [by right|done].
    + intros r [->|Hr]%elem_of_cons Hor; [|by apply Hin'].
      destruct Hor; congruence.
Qed.

End DownloadLoopFacts.

Lemma listed_fields (path_of : pystr -> pystr)
    (result : ArxivDownloader.arxiv_result) :
  listed path_of result !! "arxiv_id"%string
    = Some (VStr (ArxivDownloader.arxiv_id_of (ArxivDownloader.entry_id result)))
  /\ listed path_of result !! "title"%string
     = Some (VStr (ArxivDownloader.title result))
  /\ listed path_of result !! "authors"%string
     = Some (VList (VStr <$> ArxivDownloader.authors result))
  /\ listed path_of result !! "published"%string
     = Some (VStr (ArxivDownloader.published result))
  /\ listed path_of result !! "categories"%string
     = Some (VList (VStr <$> ArxivDownloader.categories result))
  /\ listed path_of result !! "pdf_path"%string
     = Some (VStr (file_of path_of result)).
Proof. unfold listed, ArxivDownloader._extract_metadata. by simplify_map_eq. Qed.

Lemma listed_complete (path_of : pystr -> pystr)
    (result : ArxivDownloader.arxiv_result) :
  complete_paper (listed path_of result) = true.
Proof.
  destruct (listed_fields path_of result) as (H1 & H2 & H3 & H4 & H5 & H6).
  unfold complete_paper. cbn [forallb].
  rewrite H1, H2, H3, H4, H5, H6.
  by rewrite !bool_decide_eq_true_2 by by eexists.
Qed.

Lemma chunk_metadata_fields (chunk md : gmap string pyval) :
  VectorStore.chunk_metadata chunk = inr md ->
  md !! "arxiv_id"%string = Some (default (VStr []) (chunk !! "arxiv_id"%string))
  /\ md !! "title"%string = Some (default (VStr []) (chunk !! "title"%string))
  /\ md !! "published"%string = Some (default (VStr []) (chunk !! "published"%string))
  /\ (forall names, chunk !! "authors"%string = Some (VList (VStr <$> names)) ->
        md !! "authors"%string = Some (VStr (join (py ", ") names)))
  /\ (forall names, chunk !! "categories"%string = Some (VList (VStr <$> names)) ->
        md !! "categories"%string = Some (VStr (join (py ", ") names))).
Proof.
  unfold VectorStore.chunk_metadata, VectorStore.get. cbv zeta.
  destruct (VectorStore.join_value _ (default _ (chunk !! "authors"%string)))
    as [|a] eqn:Ha; [done|]. cbn [bind_error].
  destruct (VectorStore.join_value _ (default _ (chunk !! "categories"%string)))
    as [|c] eqn:Hc; [done|]. cbn [bind_error].
  intros [= <-]. repeat split; try done.
  - intros names Hn. rewrite Hn in Ha. simpl in Ha.
    rewrite strings_of_strings in Ha. by injection Ha as <-.
  - intros names Hn. rewrite Hn in Hc. simpl in Hc.
    rewrite strings_of_strings in Hc. by injection Hc as <-.
Qed.

Lemma provenance_indexed (path_of : pystr -> pystr)
    (result : ArxivDownloader.arxiv_result) (chunk md : gmap string pyval) :
  same_provenance chunk (listed path_of result) ->
  VectorStore.chunk_metadata chunk = inr md -> indexed result md.
Proof.
  intros Hsame Hmd.
  destruct (listed_fields path_of result) as (H1 & H2 & H3 & H4 & H5 & _).
  unfold same_provenance in Hsame.
  apply Forall_cons in Hsame as [Hid Hsame]. apply Forall_cons in Hsame as [Ht Hsame].
  apply Forall_cons in Hsame as [Ha Hsame]. apply Forall_cons in Hsame as [Hp Hsame].
  apply Forall_cons in Hsame as [Hc _].
  rewrite H1 in Hid. rewrite H2 in Ht. rewrite H3 in Ha. rewrite H4 in Hp.
  rewrite H5 in Hc.
  destruct (chunk_metadata_fields _ _ Hmd) as (M1 & M2 & M3 & M4 & M5).
  rewrite Hid in M1. rewrite Ht in M2. rewrite Hp in M3.
  unfold indexed. repeat split; auto.
Qed.

Lemma provenance_storable (path_of : pystr -> pystr)
    (result : ArxivDownloader.arxiv_result) (chunk : gmap string pyval) body :
  same_provenance chunk (listed path_of result) ->
  chunk_body chunk = Some body -> storable chunk = true.
Proof.
  intros Hsame Hbody.
  destruct (listed_fields path_of result) as (_ & _ & H3 & _ & H5 & _).
  unfold same_provenance in Hsame.
  apply Forall_cons in Hsame as [_ Hsame]. apply Forall_cons in Hsame as [_ Hsame].
  apply Forall_cons in Hsame as [Ha Hsame]. apply Forall_cons in Hsame as [_ Hsame].
  apply Forall_cons in Hsame as [Hc _].
  rewrite H3 in Ha. rewrite H5 in Hc.
  unfold storable, VectorStore.get. rewrite Ha, Hc. cbn [from_option id joinable].
  rewrite !strings_of_strings.
  unfold chunk_body in Hbody.
  destruct (chunk !! "text"%string) as [v|]; [|done].
  rewrite !bool_decide_eq_true_2 by by eexists. done.
Qed.

(** X16: after [download_papers] every file that existed before still
    exists, and a new file is the file of a result whose download
    succeeded. The
    list returned is a sub-list of the records of the search results, in
    the order of the search; every record of the list names under
    [pdf_path] a file that exists afterwards; a result whose download
    succeeds, or whose file existed before the call, is in the list, and
    only a result whose download raises is left out. *)
Theorem download_papers_listing (path_of : pystr -> pystr)
    (download_pdf : ArxivDownloader.arxiv_result -> bool)
    (search : pystr -> Z -> list ArxivDownloader.arxiv_result)
    (files : gset pystr) (query : pystr) (max_results : Z)
    (category : option pystr) :
  let results :=
    search (ArxivDownloader.search_query query category) max_results in
  let out := ArxivDownloader.download_papers path_of download_pdf search
               files query max_results category in
  files ⊆ out.1
  /\ (forall path, path ∈ out.1 -> path ∉ files ->
        exists result, result ∈ results /\ download_pdf result = true
          /\ path = file_of path_of result)
  /\ out.2 `sublist_of` (listed path_of <$> results)
  /\ Forall (fun paper => exists result, result ∈ results
       /\ paper = listed path_of result
       /\ paper !! "pdf_path"%string = Some (VStr (file_of path_of result))
       /\ file_of path_of result ∈ out.1) out.2
  /\ (forall result, result ∈ results ->
        download_pdf result = true \/ file_of path_of result ∈ files ->
        listed path_of result ∈ out.2).
Proof.
  intros results out. unfold out, ArxivDownloader.download_papers. fold results.
  destruct (download_loop_files path_of download_pdf results files) as [Hsub Hnew].
  destruct (download_loop_listing path_of download_pdf results files)
    as (Hlist & Hall & Hin).
  repeat split; try done.
  eapply Forall_impl; [exact Hall|]. intros paper (r & Hr & -> & Hf).
  exists r. repeat split; done.
Qed.

(** X17: the three steps of [main] fit together. In an advancing
    configuration and with enough fuel for the longest extracted text,
    the records that [download_papers] returns are processed by
    [process_papers] without [KeyError], and the chunks it returns are
    accepted by [add_documents]: every chunk has its text and lists that
    can be joined. The metadata stored for a chunk is that of one search
    result: its id, title and date, and its authors and categories joined
    by a comma and a space. *)
Theorem downloaded_papers_are_indexed {E} (unicode_alnum : N -> bool)
    (read_pages : pyval -> option (list pystr))
    (path_of : pystr -> pystr)
    (download_pdf : ArxivDownloader.arxiv_result -> bool)
    (search : pystr -> Z -> list ArxivDownloader.arxiv_result)
    (encode : list pyval -> E) (fuel : nat) (self : DocumentProcessor.t)
    (files : gset pystr) (query : pystr) (max_results : Z)
    (category : option pystr) :
  let results :=
    search (ArxivDownloader.search_query query category) max_results in
  let papers := (ArxivDownloader.download_papers path_of download_pdf search
                   files query max_results category).2 in
  advancing self ->
  (forall result, result ∈ results ->
     (Z.to_nat (py_len (extract_text_from_pdf unicode_alnum read_pages
                          (VStr (file_of path_of result)))) < fuel)%nat) ->
  exists chunks call,
    process_papers unicode_alnum read_pages fuel self papers = Some (inr chunks)
    /\ VectorStore.add_documents encode chunks = inr call
    /\ Forall2 (fun chunk md => exists result,
         result ∈ results /\ indexed result md
         /\ chunk !! "title"%string = Some (VStr (ArxivDownloader.title result)))
         chunks (VectorStore.metadatas call).
Proof.
  intros results papers Hadv Hfuel.
  assert (Forall (fun paper => exists result, result ∈ results
            /\ paper = listed path_of result) papers) as Hlisted.
  { unfold papers, ArxivDownloader.download_papers. fold results.
    destruct (download_loop_listing path_of download_pdf results files)
      as (_ & Hall & _).
    eapply Forall_impl; [exact Hall|]. intros paper (r & Hr & Hp & _). by exists r. }
  rewrite Forall_forall in Hlisted.
  destruct (process_loop_returns unicode_alnum read_pages fuel self papers Hadv)
    as [chunks Hchunks].
  { apply forallb_forall. intros paper Hin%list_elem_of_In.
    destruct (Hlisted paper Hin) as (r & _ & ->). apply listed_complete. }
  { apply Forall_forall. intros paper Hin pdf_path Hpath.
    destruct (Hlisted paper Hin) as (r & Hr & ->).
    destruct (listed_fields path_of r) as (_ & _ & _ & _ & _ & H6).
    rewrite H6 in Hpath. injection Hpath as <-. by apply Hfuel. }
  pose proof (process_loop_provenance unicode_alnum read_pages fuel self papers
                chunks Hchunks) as Hprov.
  rewrite Forall_forall in Hprov.
  assert (forallb storable chunks = true) as Hstorable.
  { apply forallb_forall. intros chunk Hin%list_elem_of_In.
    destruct (Hprov chunk Hin) as (paper & path & Hp & _ & Hsame & s & e & _ & Hbody).
    destruct (Hlisted paper Hp) as (r & _ & ->). by eapply provenance_storable. }
  destruct (chunk_metadatas_storable _ Hstorable) as [mds Hmds].
  destruct (chunk_texts_present chunks) as [docs Hdocs].
  { apply Forall_forall. intros chunk Hin.
    destruct (Hprov chunk Hin) as (? & ? & _ & _ & _ & s & e & _ & Hbody).
    unfold chunk_body in Hbody. by destruct (chunk !! "text"%string). }
  exists chunks. eexists. split; [exact Hchunks|]. split.
  { unfold VectorStore.add_documents. rewrite Hdocs, Hmds. reflexivity. }
  simpl. apply chunk_metadatas_inr in Hmds.
  clear Hstorable Hdocs Hchunks. revert Hprov.
  induction Hmds as [|chunk md rest mds Hmd _ IH]; intros Hprov; constructor.
  - destruct (Hprov chunk) as (paper & path & Hp & _ & Hsame & _); [by left|].
    destruct (Hlisted paper Hp) as (r & Hr & ->). exists r.
    split; [done|]. split; [by eapply provenance_indexed|].
    destruct (listed_fields path_of r) as (_ & H2 & _).
    unfold same_provenance in Hsame.
    apply Forall_cons in Hsame as [_ Hsame]. apply Forall_cons in Hsame as [Ht _].
    by rewrite Ht.
  - apply IH. intros x Hx. apply Hprov. by right.
Qed.


Lemma downloaded_papers_are_indexed_witness :
  exists chunks call,
    process_papers (fun _ => false) sample_reader 100 (Build 20 1)
      (ArxivDownloader.download_papers (fun name => py "data/raw_papers/" ++ name)
         (fun _ => true) (fun _ _ => [sample_result]) ∅
         (py "spin") 20 (Some (py "quant-ph"))).2
    = Some (inr chunks)
    /\ VectorStore.add_documents (fun docs => length docs) chunks = inr call
    /\ Forall2 (fun chunk md => exists result,
         result ∈ [sample_result] /\ indexed result md
         /\ chunk !! "title"%string = Some (VStr (ArxivDownloader.title result)))
         chunks (VectorStore.metadatas call).
Proof.
  apply (downloaded_papers_are_indexed (fun _ => false) sample_reader
           (fun name => py "data/raw_papers/" ++ name) (fun _ => true)
           (fun _ _ => [sample_result]) (fun docs => length docs) 100 (Build 20 1)
           ∅ (py "spin") 20 (Some (py "quant-ph"))).
  - vm_compute. split; [discriminate|reflexivity].
  - intros result ->%list_elem_of_singleton. vm_compute. lia.
Defined.

(** X25: every record that [download_papers] returns has exactly the
    seven keys of [_extract_metadata], and the two places that compute
    the id agree: the file under [pdf_path] is the one named after the
    record's own [arxiv_id], which holds no slash. *)
Theorem download_papers_records (path_of : pystr -> pystr)
    (download_pdf : ArxivDownloader.arxiv_result -> bool)
    (search : pystr -> Z -> list ArxivDownloader.arxiv_result)
    (files : gset pystr) (query : pystr) (max_results : Z)
    (category : option pystr) :
  Forall (fun paper =>
    dom paper = record_keys
    /\ exists arxiv_id,
         paper !! "arxiv_id"%string = Some (VStr arxiv_id)
         /\ paper !! "pdf_path"%string
            = Some (VStr (path_of (ArxivDownloader.filename_of arxiv_id)))
         /\ (47%N ∉ arxiv_id))
    (ArxivDownloader.download_papers path_of download_pdf search
       files query max_results category).2.
Proof.
  unfold ArxivDownloader.download_papers.
  destruct (download_loop_listing path_of download_pdf
              (search (ArxivDownloader.search_query query category) max_results)
              files) as (_ & Hall & _).
  eapply Forall_impl; [exact Hall|]. intros paper (r & _ & -> & _). split.
  - unfold listed, ArxivDownloader._extract_metadata, record_keys.
    rewrite !dom_insert_L, dom_empty_L. set_solver.
  - exists (ArxivDownloader.arxiv_id_of (ArxivDownloader.entry_id r)).
    destruct (listed_fields path_of r) as (H1 & _ & _ & _ & _ & H6).
    split; [done|]. split; [done|]. apply arxiv_id_no_slash.
Qed.

(** ** [ask] *)

Section AskFacts.

Context (format_3f : Q -> pystr).

Implicit Types (chunks : list RAGPipeline.context_chunk) (i : nat).

Lemma context_parts_inr chunks : forall i parts,
  RAGPipeline.context_parts i chunks = inr parts ->
  forallb has_source_fields chunks = true.
Proof.
  induction chunks as [|chunk rest IH]; intros i parts; [done|].
  cbn [RAGPipeline.context_parts forallb]. unfold RAGPipeline.source_block, field.
  cbv zeta.
  destruct (RAGPipeline.metadata chunk !! "title"%string) eqn:Ht; [|done].
  destruct (RAGPipeline.metadata chunk !! "arxiv_id"%string) eqn:Ha; [|done].
  cbn [bind].
  destruct (RAGPipeline.context_parts (S i) rest) as [|ps] eqn:Hps; [done|].
  intros _. rewrite (IH _ _ Hps). unfold has_source_fields. rewrite Ht, Ha.
  by rewrite !bool_decide_eq_true_2 by by eexists.
Qed.

Lemma print_sources_titles chunks : forall i,
  forallb has_source_fields chunks = true ->
  (RAGPipeline.print_sources format_3f i chunks).2 = inr tt
  /\ length (RAGPipeline.print_sources format_3f i chunks).1 = length chunks.
Proof.
  induction chunks as [|chunk rest IH]; intros i; [done|].
  cbn [forallb RAGPipeline.print_sources]. cbv zeta.
  intros [[Ht _]%andb_prop Hrest]%andb_prop.
  apply bool_decide_eq_true in Ht as [title Ht]. rewrite Ht.
  destruct (IH (S i) Hrest) as [Hv Hl].
  unfold RAGPipeline.quiet, RAGPipeline.say, field.
  destruct (RAGPipeline.print_sources format_3f (S i) rest) as [out r].
  cbn [fst snd] in *. subst r. unfold RAGPipeline.and_then.
  cbn [app length fst snd]. by rewrite Hl.
Qed.

Lemma ask_quiet self query n_results :
  RAGPipeline.ask format_3f self query n_results false
  = ([], match RAGPipeline.retrieve_context (RAGPipeline.vector_store self)
                 query n_results with
         | inl e => inl e
         | inr chunks =>
             match RAGPipeline.build_prompt query chunks with
             | inl e => inl e
             | inr prompt =>
                 inr (RAGPipeline.Build_answer_record query
                        (RAGPipeline.generate_answer self prompt) prompt chunks)
             end
         end).
Proof.
  unfold RAGPipeline.ask, RAGPipeline.when, RAGPipeline.and_then,
    RAGPipeline.quiet. cbn [fst snd app].
  destruct (RAGPipeline.retrieve_context _ _ _) as [e|chunks]; [done|].
  cbn [fst snd app].
  by destruct (RAGPipeline.build_prompt query chunks) as [e|prompt].
Qed.

Lemma ask_verbose self query n_results chunks prompt :
  RAGPipeline.retrieve_context (RAGPipeline.vector_store self) query n_results
  = inr chunks ->
  RAGPipeline.build_prompt query chunks = inr prompt ->
  exists head middle,
    RAGPipeline.ask format_3f self query n_results true
    = (head ++ (RAGPipeline.print_sources format_3f 1 chunks).1
         ++ middle ++ [prompt] ++ [RAGPipeline.nl ++ RAGPipeline.bar;
              py "ANSWER:"; RAGPipeline.bar;
              RAGPipeline.generate_answer self prompt;
              RAGPipeline.bar ++ RAGPipeline.nl],
       inr (RAGPipeline.Build_answer_record query
              (RAGPipeline.generate_answer self prompt) prompt chunks))
    /\ length head = 5%nat /\ length middle = 6%nat.
Proof.
  intros Hr Hb.
  assert (forallb has_source_fields chunks = true) as Hf.
  { unfold RAGPipeline.build_prompt in Hb.
    destruct (RAGPipeline.context_parts 1 chunks) as [|parts] eqn:Hp; [done|].
    by eapply context_parts_inr. }
  destruct (print_sources_titles chunks 1 Hf) as [Hv _].
  unfold RAGPipeline.ask. rewrite Hr.
  unfold RAGPipeline.when, RAGPipeline.and_then, RAGPipeline.quiet,
    RAGPipeline.say. cbn [app].
  destruct (RAGPipeline.print_sources format_3f 1 chunks) as [out r].
  cbn [fst snd] in *. subst r. rewrite Hb. cbn [app].
  eexists [_; _; _; _; _], [_; _; _; _; _; _]. split; [|done].
  reflexivity.
Qed.

Lemma ask_value self query n_results verbose :
  (RAGPipeline.ask format_3f self query n_results verbose).2
  = match RAGPipeline.retrieve_context (RAGPipeline.vector_store self)
            query n_results with
    | inl e => inl e
    | inr chunks =>
        match (if verbose then (RAGPipeline.print_sources format_3f 1 chunks).2
               else inr tt) with
        | inl e => inl e
        | inr _ =>
            match RAGPipeline.build_prompt query chunks with
            | inl e => inl e
            | inr prompt =>
                inr (RAGPipeline.Build_answer_record query
                       (RAGPipeline.generate_answer self prompt) prompt chunks)
            end
        end
    end.
Proof.
  destruct verbose; [|by rewrite ask_quiet].
  unfold RAGPipeline.ask.
  destruct (RAGPipeline.retrieve_context _ _ _) as [e|chunks]; [done|].
  unfold RAGPipeline.when, RAGPipeline.and_then, RAGPipeline.quiet,
    RAGPipeline.say. cbn [app snd].
  destruct (RAGPipeline.print_sources format_3f 1 chunks) as [out [e|[]]];
    [done|]. cbn [app snd].
  by destruct (RAGPipeline.build_prompt query chunks) as [e|prompt].
Qed.

Lemma build_prompt_inr query chunks prompt :
  RAGPipeline.build_prompt query chunks = inr prompt ->
  forallb has_source_fields chunks = true.
Proof.
  unfold RAGPipeline.build_prompt.
  destruct (RAGPipeline.context_parts 1 chunks) as [|parts] eqn:Hp; [done|].
  intros _. by eapply context_parts_inr.
Qed.

Lemma build_prompt_fields query chunks :
  forallb has_source_fields chunks = true ->
  exists prompt, RAGPipeline.build_prompt query chunks = inr prompt.
Proof.
  intros Hf. destruct (context_parts_fields chunks 1%nat Hf) as (parts & Hp & _).
  unfold RAGPipeline.build_prompt. rewrite Hp. by eexists.
Qed.

End AskFacts.

(** X18: [verbose] changes what [ask] prints and nothing else about
    a successful call: without it nothing is printed, and a call returns
    a record with it exactly when it returns the same record without
    it. *)
Theorem ask_verbose_only_prints (format_3f : Q -> pystr)
    (self : RAGPipeline.pipeline) (query : pystr) (n_results : Z) :
  (RAGPipeline.ask format_3f self query n_results false).1 = []
  /\ forall result,
       (RAGPipeline.ask format_3f self query n_results true).2 = inr result
       <-> (RAGPipeline.ask format_3f self query n_results false).2 = inr result.
Proof.
  split; [by rewrite ask_quiet|]. intros result. rewrite !ask_value.
  destruct (RAGPipeline.retrieve_context _ _ _) as [e|chunks]; [done|].
  destruct (RAGPipeline.build_prompt query chunks) as [e|prompt] eqn:Hb.
  - by destruct (RAGPipeline.print_sources format_3f 1 chunks).2 as [?|[]].
  - apply build_prompt_inr in Hb.
    by rewrite (proj1 (print_sources_titles format_3f chunks 1 Hb)).
Qed.

(** X19: [ask] returns a record exactly when the retrieval returns
    chunks that all carry a title and an arxiv id in their metadata,
    whether [verbose] is set or not; otherwise it raises. *)
Theorem ask_succeeds_iff (format_3f : Q -> pystr)
    (self : RAGPipeline.pipeline) (query : pystr) (n_results : Z)
    (verbose : bool) :
  (exists result,
     (RAGPipeline.ask format_3f self query n_results verbose).2 = inr result)
  <-> exists chunks,
        RAGPipeline.retrieve_context (RAGPipeline.vector_store self)
          query n_results = inr chunks
        /\ forallb has_source_fields chunks = true.
Proof.
  rewrite ask_value.
  destruct (RAGPipeline.retrieve_context _ _ _) as [e|chunks].
  { split; [by intros [? ?]|by intros (? & ? & _)]. }
  split.
  - intros [result Hres]. exists chunks. split; [done|].
    destruct (if verbose then _ else _) as [|[]]; [done|].
    destruct (RAGPipeline.build_prompt query chunks) as [|prompt] eqn:Hb; [done|].
    by eapply build_prompt_inr.
  - intros (? & [= <-] & Hf).
    destruct (build_prompt_fields query chunks Hf) as [prompt ->].
    rewrite (proj1 (print_sources_titles format_3f chunks 1 Hf)).
    destruct verbose; by eexists.
Qed.

(** X20: the record that [ask] returns holds the query as given, the
    chunks of the retrieval as sources, the prompt that [build_prompt]
    makes from exactly these, and as answer one of the two fixed strings
    of [generate_answer], chosen by [use_openai] alone: the answer does
    not depend on the query or on the sources. A verbose call makes 17
    calls of [print] and one more per source, the prompt and the answer
    among the printed strings. *)
Theorem ask_result (format_3f : Q -> pystr)
    (self : RAGPipeline.pipeline) (query : pystr) (n_results : Z)
    (verbose : bool) (result : RAGPipeline.answer_record) :
  (RAGPipeline.ask format_3f self query n_results verbose).2 = inr result ->
  RAGPipeline.query result = query
  /\ RAGPipeline.retrieve_context (RAGPipeline.vector_store self)
       query n_results = inr (RAGPipeline.sources result)
  /\ RAGPipeline.build_prompt query (RAGPipeline.sources result)
     = inr (RAGPipeline.prompt result)
  /\ RAGPipeline.answer result
     = (if RAGPipeline.use_openai self
        then py "[OpenAI integration not configured]"
        else py "[LLM response would go here - see prompt above]")
  /\ (verbose = true ->
      length (RAGPipeline.ask format_3f self query n_results verbose).1
      = (17 + length (RAGPipeline.sources result))%nat
      /\ RAGPipeline.prompt result
         ∈ (RAGPipeline.ask format_3f self query n_results verbose).1
      /\ RAGPipeline.answer result
         ∈ (RAGPipeline.ask format_3f self query n_results verbose).1).
Proof.
  rewrite ask_value.
  destruct (RAGPipeline.retrieve_context _ _ _) as [e|chunks] eqn:Hr; [done|].
  destruct (if verbose then _ else _) as [|[]]; [done|].
  destruct (RAGPipeline.build_prompt query chunks) as [|prompt] eqn:Hb; [done|].
  intros [= <-]. cbn [RAGPipeline.query RAGPipeline.sources RAGPipeline.prompt
                      RAGPipeline.answer].
  do 4 (split; [done|]). intros ->.
  destruct (ask_verbose format_3f self query n_results chunks prompt Hr Hb)
    as (head & middle & -> & Hh & Hm). cbn [fst]. repeat split.
  - rewrite !length_app, Hh, Hm.
    rewrite (proj2 (print_sources_titles format_3f chunks 1
                      (build_prompt_inr _ _ _ Hb))).
    cbn [length]. lia.
  - rewrite !elem_of_app. do 3 right. left. by apply list_elem_of_singleton.
  - rewrite !elem_of_app. do 4 right. do 3 apply list_elem_of_further.
    apply list_elem_of_here.
Qed.

(** X21: [ask] catches nothing. When the retrieval raises, [ask]
    raises the same exception; a verbose call has then printed the three
    lines of the header and the line of step 1, and nothing else. *)
Theorem ask_retrieval_error (format_3f : Q -> pystr)
    (self : RAGPipeline.pipeline) (query : pystr) (n_results : Z)
    (verbose : bool) (e : pyexn) :
  RAGPipeline.retrieve_context (RAGPipeline.vector_store self) query n_results
  = inl e ->
  RAGPipeline.ask format_3f self query n_results verbose
  = (if verbose
     then [RAGPipeline.nl ++ RAGPipeline.bar; py "Query: " ++ query;
           RAGPipeline.bar ++ RAGPipeline.nl;
           py "Step 1: Retrieving relevant context..."]
     else [], inl e).
Proof.
  intros Hr. destruct verbose; [|by rewrite ask_quiet, Hr].
  unfold RAGPipeline.ask, RAGPipeline.when, RAGPipeline.and_then,
    RAGPipeline.quiet, RAGPipeline.say. cbn [fst snd app].
  rewrite Hr. reflexivity.
Qed.

Lemma ask_result_witness :
  exists result,
    (RAGPipeline.ask (fun _ => py "0.100")
       (RAGPipeline.Build_pipeline (fun _ _ => even_results) false)
       (py "What is spin?") 3 true).2 = inr result
    /\ length (RAGPipeline.ask (fun _ => py "0.100")
         (RAGPipeline.Build_pipeline (fun _ _ => even_results) false)
         (py "What is spin?") 3 true).1 = 19%nat
    /\ RAGPipeline.answer result
       = py "[LLM response would go here - see prompt above]".
Proof.
  assert (exists result,
    (RAGPipeline.ask (fun _ => py "0.100")
       (RAGPipeline.Build_pipeline (fun _ _ => even_results) false)
       (py "What is spin?") 3 true).2 = inr result) as [result H]
    by (vm_compute; eexists; reflexivity).
  exists result. split; [exact H|].
  destruct (ask_result _ _ _ _ _ _ H) as (_ & Hs & _ & Ha & Hv).
  split; [|exact Ha]. destruct (Hv eq_refl) as [-> _].
  remember (RAGPipeline.sources result) as chunks eqn:Hc. clear Hc.
  vm_compute in Hs. injection Hs as <-. reflexivity.
Defined.

Lemma ask_retrieval_error_witness :
  RAGPipeline.ask (fun _ => py "0.100")
    (RAGPipeline.Build_pipeline
       (fun _ _ => RAGPipeline.Build_search_results None None None) false)
    (py "What is spin?") 3 true
  = ([RAGPipeline.nl ++ RAGPipeline.bar; py "Query: " ++ py "What is spin?";
      RAGPipeline.bar ++ RAGPipeline.nl;
      py "Step 1: Retrieving relevant context..."],
     inl (KeyError "documents")).
Proof.
  apply (ask_retrieval_error (fun _ => py "0.100")
           (RAGPipeline.Build_pipeline
              (fun _ _ => RAGPipeline.Build_search_results None None None) false)
           (py "What is spin?") 3 true).
  reflexivity.
Defined.

Lemma indexed_source_fields (result : ArxivDownloader.arxiv_result)
    (md : gmap string pyval) (chunk : RAGPipeline.context_chunk) :
  indexed result md -> RAGPipeline.metadata chunk = stored_strings md ->
  has_source_fields chunk = true
  /\ title_of chunk = ArxivDownloader.title result.
Proof.
  intros (Hid & Ht & _) Hm. unfold has_source_fields, title_of. rewrite Hm.
  unfold stored_strings. rewrite !lookup_omap, Hid, Ht. cbn [mbind option_bind].
  by rewrite !bool_decide_eq_true_2 by by eexists.
Qed.

(** X26: metadata in the form that [add_documents] stores is enough
    for [ask]. When the index answers with as many metadata records and
    distances as documents, and every metadata record holds the string
    values of a stored record of some search result, [ask] returns a
    record, verbose or not, whose sources carry the documents and the
    metadata of the index in the order of the index. *)
Theorem indexed_sources_answer (format_3f : Q -> pystr)
    (self : RAGPipeline.pipeline) (query : pystr) (n_results : Z)
    (verbose : bool)
    (docs : list pystr) (metas : list (gmap string pystr)) (dists : list Q) :
  RAGPipeline.documents (RAGPipeline.vector_store self query n_results)
  = Some [docs] ->
  RAGPipeline.metadatas (RAGPipeline.vector_store self query n_results)
  = Some [metas] ->
  RAGPipeline.distances (RAGPipeline.vector_store self query n_results)
  = Some [dists] ->
  length metas = length docs -> length dists = length docs ->
  Forall (fun meta => exists result md,
    indexed result md /\ meta = stored_strings md) metas ->
  exists record,
    (RAGPipeline.ask format_3f self query n_results verbose).2 = inr record
    /\ RAGPipeline.text <$> RAGPipeline.sources record = docs
    /\ RAGPipeline.metadata <$> RAGPipeline.sources record = metas.
Proof.
  intros Hd Hm Hs Hlm Hls Hmetas.
  destruct (retrieve_context_lists (RAGPipeline.vector_store self) query n_results
              docs [] metas [] dists [] Hd Hm Hs) as (_ & _ & Hret).
  destruct (Hret Hlm Hls) as (chunks & Hr & Ht & Hmd & _).
  assert (forallb has_source_fields chunks = true) as Hf.
  { apply forallb_forall. intros chunk Hin%list_elem_of_In.
    rewrite Forall_forall in Hmetas.
    destruct (Hmetas (RAGPipeline.metadata chunk)) as (r & md & Hi & Heq).
    { rewrite <- Hmd. by apply list_elem_of_fmap_2. }
    by destruct (indexed_source_fields r md chunk Hi Heq). }
  destruct (build_prompt_fields query chunks Hf) as [prompt Hb].
  rewrite ask_value, Hr, Hb.
  rewrite (proj1 (print_sources_titles format_3f chunks 1 Hf)).
  eexists. split; [by destruct verbose|]. by split.
Qed.

Lemma indexed_sources_answer_witness :
  exists record,
    (RAGPipeline.ask (fun _ => py "0.250")
       (RAGPipeline.Build_pipeline (fun _ _ => stored_results) false)
       (py "What is spin?") 3 true).2 = inr record
    /\ RAGPipeline.text <$> RAGPipeline.sources record = [py "Spin."]
    /\ RAGPipeline.metadata <$> RAGPipeline.sources record
       = [stored_strings sample_stored].
Proof.
  apply (indexed_sources_answer (fun _ => py "0.250")
           (RAGPipeline.Build_pipeline (fun _ _ => stored_results) false)
           (py "What is spin?") 3 true [py "Spin."]
           [stored_strings sample_stored] [1 # 4]%Q); try reflexivity.
  apply Forall_cons; split; [|constructor].
  exists sample_result, sample_stored. split; [|reflexivity].
  vm_compute. repeat split; reflexivity.
Defined.

(** ** The question loop *)

Section LoopFacts.

Context (unicode_lower : pystr -> pystr) (format_3f : Q -> pystr)
  (rag : RAGPipeline.pipeline).

Local Abbreviation loop := (Main.question_loop unicode_lower format_3f rag).
Local Abbreviation leaves := (exit_line unicode_lower).

Lemma blank_line_stays (line : pystr) : blank_line line -> ~ leaves line.
Proof.
  unfold blank_line, exit_line. intros ->. unfold Main.lower. cbn [forallb fmap list_fmap].
  unfold Main.exit_words. intros Hin.
  repeat (apply elem_of_cons in Hin as [Hin|Hin]; [discriminate|]).
  by apply not_elem_of_nil in Hin.
Qed.

Lemma question_loop_exit (line : pystr) (rest : list pystr) :
  leaves line -> loop (line :: rest) = ([Main.question], Main.Quit).
Proof.
  intros Hexit. cbn [Main.question_loop]. cbv zeta.
  by rewrite bool_decide_eq_true_2.
Qed.

Lemma question_loop_blank (line : pystr) (rest : list pystr) :
  blank_line line ->
  loop (line :: rest) = (Main.question :: (loop rest).1, (loop rest).2).
Proof.
  intros Hblank. pose proof (blank_line_stays line Hblank) as Hstay.
  cbn [Main.question_loop]. cbv zeta.
  rewrite bool_decide_eq_false_2 by done. by rewrite Hblank.
Qed.

End LoopFacts.

(** X22: the question loop of [main] stops at the first line that,
    trimmed and in lower case, is [quit], [exit] or [q]: the lines after
    it are never read, and the loop then does not end by [EOFError]. *)
Theorem question_loop_stops_at_exit (unicode_lower : pystr -> pystr)
    (format_3f : Q -> pystr) (rag : RAGPipeline.pipeline)
    (before : list pystr) (line : pystr) (after : list pystr) :
  exit_line unicode_lower line ->
  Main.question_loop unicode_lower format_3f rag (before ++ line :: after)
  = Main.question_loop unicode_lower format_3f rag (before ++ [line])
  /\ (Main.question_loop unicode_lower format_3f rag (before ++ [line])).2
     <> Main.Failed EOFError.
Proof.
  intros Hexit. induction before as [|l before [IH1 IH2]].
  - cbn [app]. by rewrite !question_loop_exit.
  - cbn [app Main.question_loop]. cbv zeta. rewrite IH1.
    case_bool_decide; [done|]. destruct (strip l); [done|].
    by destruct (RAGPipeline.ask _ _ _ _ _).2.
Qed.

(** X23: a line that holds only whitespace asks nothing: each such
    line prints the prompt of [input] once more and the loop goes on with
    the next line. *)
Theorem question_loop_skips_blank (unicode_lower : pystr -> pystr)
    (format_3f : Q -> pystr) (rag : RAGPipeline.pipeline)
    (before rest : list pystr) :
  Forall blank_line before ->
  Main.question_loop unicode_lower format_3f rag (before ++ rest)
  = (repeat Main.question (length before)
       ++ (Main.question_loop unicode_lower format_3f rag rest).1,
     (Main.question_loop unicode_lower format_3f rag rest).2).
Proof.
  induction 1 as [|line before Hblank _ IH]; [by destruct (Main.question_loop _ _ _ _)|].
  rewrite <- app_comm_cons, question_loop_blank by done. by rewrite IH.
Qed.

(** X24: the three ways in which the question loop ends. It ends
    normally only at an exit line with no exit line before it; it ends by
    [EOFError] only when no line is an exit line and every line that is
    not blank was answered; and it ends by another exception only when
    [ask] raised that exception for a line, no line up to that one being
    an exit line. *)
Theorem question_loop_ending (unicode_lower : pystr -> pystr)
    (format_3f : Q -> pystr) (rag : RAGPipeline.pipeline)
    (lines : list pystr) :
  match (Main.question_loop unicode_lower format_3f rag lines).2 with
  | Main.Quit =>
      exists before line after, lines = before ++ line :: after
        /\ exit_line unicode_lower line
        /\ Forall (fun l => ~ exit_line unicode_lower l) before
  | Main.Failed EOFError =>
      Forall (fun l => ~ exit_line unicode_lower l
        /\ (blank_line l
            \/ exists result,
                 (RAGPipeline.ask format_3f rag (strip l) 3 true).2 = inr result))
        lines
  | Main.Failed (Raised e) =>
      exists before line after, lines = before ++ line :: after
        /\ (RAGPipeline.ask format_3f rag (strip line) 3 true).2 = inl e
        /\ Forall (fun l => ~ exit_line unicode_lower l) (before ++ [line])
  | Main.Failed TypeError => False
  end.
Proof.
  induction lines as [|l rest IH]; [by constructor|].
  cbn [Main.question_loop]. cbv zeta. case_bool_decide as Hexit.
  { exists [], l, rest. by repeat split. }
  assert (~ exit_line unicode_lower l) as Hstay by done. clear Hexit.
  destruct (strip l) as [|c q] eqn:Hq.
  - cbn [snd].
    destruct (Main.question_loop unicode_lower format_3f rag rest).2
      as [|[e| |]]; try done.
    + destruct IH as (before & line & after & -> & Hl & Hb).
      exists (l :: before), line, after. repeat split; try done. by constructor.
    + destruct IH as (before & line & after & -> & Hl & Hb).
      exists (l :: before), line, after. repeat split; try done.
      rewrite <- app_comm_cons. by constructor.
    + constructor; [|done]. split; [done|by left].
  - destruct (RAGPipeline.ask format_3f rag (c :: q) 3 true).2 as [e|result] eqn:Ha.
    + cbn [snd]. exists [], l, rest. rewrite Hq. repeat split; try done.
      by repeat constructor.
    + cbn [snd].
      destruct (Main.question_loop unicode_lower format_3f rag rest).2
        as [|[e| |]]; try done.
      * destruct IH as (before & line & after & -> & Hl & Hb).
        exists (l :: before), line, after. repeat split; try done. by constructor.
      * destruct IH as (before & line & after & -> & Hl & Hb).
        exists (l :: before), line, after. repeat split; try done.
        rewrite <- app_comm_cons. by constructor.
      * constructor; [|done]. split; [done|]. right. rewrite Hq. by eexists.
Qed.

Lemma question_loop_stops_at_exit_witness :
  Main.question_loop (fun s => s) (fun _ => py "0.100")
    (RAGPipeline.Build_pipeline (fun _ _ => even_results) false)
    ([py "  "] ++ py " QUIT " :: [py "never read"])
  = Main.question_loop (fun s => s) (fun _ => py "0.100")
      (RAGPipeline.Build_pipeline (fun _ _ => even_results) false)
      ([py "  "] ++ [py " QUIT "])
  /\ (Main.question_loop (fun s => s) (fun _ => py "0.100")
        (RAGPipeline.Build_pipeline (fun _ _ => even_results) false)
        ([py "  "] ++ [py " QUIT "])).2 <> Main.Failed EOFError.
Proof.
  apply question_loop_stops_at_exit. unfold exit_line. vm_compute.
  apply list_elem_of_here.
Defined.

Lemma question_loop_skips_blank_witness :
  Main.question_loop (fun s => s) (fun _ => py "0.100")
    (RAGPipeline.Build_pipeline (fun _ _ => even_results) false)
    ([py "  "; []] ++ [py "q"])
  = (repeat Main.question 2 ++ [Main.question], Main.Quit).
Proof.
  rewrite (question_loop_skips_blank (fun s => s) (fun _ => py "0.100")
    (RAGPipeline.Build_pipeline (fun _ _ => even_results) false)
    [py "  "; []] [py "q"]).
  - reflexivity.
  - repeat constructor.
Defined.
